(** * uyuni-ldap-sync: the reconciliation engine of [ldapsync.go]

    A shallow embedding of the LDAP to Uyuni user synchronisation
    ([ldapsync.go], [ldapcalls.go]) and the properties of its
    classification, role merging, push and lockout guard. *)

From Stdlib Require Import Ascii String.
From stdpp Require Import base strings list gmap pretty.

Set Default Proof Using "Type".
Set Warnings "-clear-no-such-hyp".
Open Scope string_scope.
Open Scope list_scope.

(** ** Users

    [UyuniUser] and its methods live in a file of the package that is
    not part of the sources at hand; [ldapsync.go] only calls them. *)

(** Modelled from the spec: the [UyuniUser] struct ("User — canonical
    identity record"): uid, distinguishedName, given and family name,
    email, a role set, the transient flags and the [Err] of the last
    remote call that [SyncUsers] stores in it. *)
Record UyuniUser : Type := mkUyuniUser {
  Dn : string;
  Uid : string;
  Email : string;
  Name : string;
  Secondname : string;
  Err : option string;
  roles : list string;
  new : bool;
  outdated : bool;
  accountchanged : bool;
  roleschanged : bool
}.

Global Instance UyuniUser_eq_dec : EqDecision UyuniUser.
Proof. solve_decision. Defined.

(** Modelled from the spec: [NewUyuniUser] is the constructor of
    [UyuniUser]; every field is empty and no flag is raised. *)
Definition NewUyuniUser : UyuniUser :=
  {| Dn := ""; Uid := ""; Email := ""; Name := ""; Secondname := "";
     Err := None; roles := []; new := false; outdated := false;
     accountchanged := false; roleschanged := false |}.

Definition set_Dn (v : string) (u : UyuniUser) : UyuniUser :=
  mkUyuniUser v (Uid u) (Email u) (Name u) (Secondname u) (Err u) (roles u)
    (new u) (outdated u) (accountchanged u) (roleschanged u).
Definition set_Uid (v : string) (u : UyuniUser) : UyuniUser :=
  mkUyuniUser (Dn u) v (Email u) (Name u) (Secondname u) (Err u) (roles u)
    (new u) (outdated u) (accountchanged u) (roleschanged u).
Definition set_Email (v : string) (u : UyuniUser) : UyuniUser :=
  mkUyuniUser (Dn u) (Uid u) v (Name u) (Secondname u) (Err u) (roles u)
    (new u) (outdated u) (accountchanged u) (roleschanged u).
Definition set_Name (v : string) (u : UyuniUser) : UyuniUser :=
  mkUyuniUser (Dn u) (Uid u) (Email u) v (Secondname u) (Err u) (roles u)
    (new u) (outdated u) (accountchanged u) (roleschanged u).
Definition set_Secondname (v : string) (u : UyuniUser) : UyuniUser :=
  mkUyuniUser (Dn u) (Uid u) (Email u) (Name u) v (Err u) (roles u)
    (new u) (outdated u) (accountchanged u) (roleschanged u).
Definition set_Err (v : option string) (u : UyuniUser) : UyuniUser :=
  mkUyuniUser (Dn u) (Uid u) (Email u) (Name u) (Secondname u) v (roles u)
    (new u) (outdated u) (accountchanged u) (roleschanged u).
Definition set_roles (v : list string) (u : UyuniUser) : UyuniUser :=
  mkUyuniUser (Dn u) (Uid u) (Email u) (Name u) (Secondname u) (Err u) v
    (new u) (outdated u) (accountchanged u) (roleschanged u).
Definition set_new (v : bool) (u : UyuniUser) : UyuniUser :=
  mkUyuniUser (Dn u) (Uid u) (Email u) (Name u) (Secondname u) (Err u) (roles u)
    v (outdated u) (accountchanged u) (roleschanged u).
Definition set_outdated (v : bool) (u : UyuniUser) : UyuniUser :=
  mkUyuniUser (Dn u) (Uid u) (Email u) (Name u) (Secondname u) (Err u) (roles u)
    (new u) v (accountchanged u) (roleschanged u).
Definition set_accountchanged (v : bool) (u : UyuniUser) : UyuniUser :=
  mkUyuniUser (Dn u) (Uid u) (Email u) (Name u) (Secondname u) (Err u) (roles u)
    (new u) (outdated u) v (roleschanged u).
Definition set_roleschanged (v : bool) (u : UyuniUser) : UyuniUser :=
  mkUyuniUser (Dn u) (Uid u) (Email u) (Name u) (Secondname u) (Err u) (roles u)
    (new u) (outdated u) (accountchanged u) v.

(** Modelled from the spec: [AddRoles] adds role names to the role set of
    the user; "duplicates collapsed", so a name already held is not added
    again. *)
Fixpoint AddRoles (rs : list string) (u : UyuniUser) : UyuniUser :=
  match rs with
  | [] => u
  | r :: rs' =>
      AddRoles rs'
        (if bool_decide (r ∈ roles u) then u else set_roles (roles u ++ [r]) u)
  end.

(** Modelled from the spec: [FlushRoles] empties the role set. *)
Definition FlushRoles (u : UyuniUser) : UyuniUser := set_roles [] u.

(** Modelled from the spec: [GetRoles] lists the role set. *)
Definition GetRoles (u : UyuniUser) : list string := roles u.

(** Modelled from the spec: [IsNew], [IsOutdated] read the transient
    flags; [IsValid] holds while no remote call failed for the user. *)
Definition IsNew (u : UyuniUser) : bool := new u.
Definition IsOutdated (u : UyuniUser) : bool := outdated u.
Definition IsValid (u : UyuniUser) : bool :=
  match Err u with None => true | Some _ => false end.

(** Modelled from the spec: [Clone] is "a cloned copy" of the user, a
    separate object with the same field values. *)
Definition Clone (u : UyuniUser) : UyuniUser := u.

(** Modelled from the spec: [CompareRoles] is "role-set equality
    (order-independent set comparison)". *)
Definition CompareRoles (a b : UyuniUser) : bool :=
  bool_decide (GetRoles a ⊆ GetRoles b) && bool_decide (GetRoles b ⊆ GetRoles a).

(** ** The directory: [ldap.Entry] and search requests *)

(** An [ldap.Entry] of go-ldap: its DN and its attributes, each with its
    values. *)
Record Entry : Type := mkEntry {
  DN : string;
  Attributes : list (string * list string)
}.

(** [Entry.GetAttributeValues]: the values of the first attribute of that
    name, none if there is no such attribute. *)
Fixpoint GetAttributeValues_in (attrs : list (string * list string))
    (attribute : string) : list string :=
  match attrs with
  | [] => []
  | (name, values) :: rest =>
      if String.eqb name attribute then values
      else GetAttributeValues_in rest attribute
  end.

Definition GetAttributeValues (e : Entry) (attribute : string) : list string :=
  GetAttributeValues_in (Attributes e) attribute.

(** [Entry.GetAttributeValue]: the first value, or the empty string. *)
Definition GetAttributeValue (e : Entry) (attribute : string) : string :=
  match GetAttributeValues e attribute with
  | [] => ""
  | v :: _ => v
  end.

(** [ldap.NewSearchRequest(dn, ScopeWholeSubtree, NeverDerefAliases, 0, 0,
    false, filter, []string{}, nil)]: only the base DN and the filter vary. *)
Record SearchRequest : Type := NewSearchRequest {
  BaseDN : string;
  Filter : string
}.

(** ** The account store: remote calls and their dynamically typed replies *)

(** The methods [ldapsync.go] invokes through [UyuniCaller.Call]; the
    session token is the same in every call and is left out. *)
Inductive Call : Type :=
| user_listUsers
| user_getDetails (login : string)
| user_listRoles (login : string)
| user_addRole (login role : string)
| user_removeRole (login role : string)
| user_create (login password first_name last_name email : string) (usePam : Z)
| user_setDetails (login first_name last_name email : string)
| user_usePamAuthentication (login : string) (v : Z)
| user_delete (login : string).

Global Instance Call_eq_dec : EqDecision Call.
Proof. solve_decision. Defined.

(** What a call returns when [err == nil]: an [interface{}] value, on
    which the code uses type assertions. *)
#[local] Unset Elimination Schemes.
Inductive Value : Type :=
| VNil
| VString (s : string)
| VInt (n : Z)
| VArray (items : list Value)
| VStruct (fields : list (string * Value)).
#[local] Set Elimination Schemes.

Inductive Reply : Type :=
| Failed (err : string)
| Returned (v : Value).

(** ** Configuration *)

(** The [Directory] section of the configuration, as [ldapsync.go] reads
    it through [ConfigReader.Config()]. *)
Record Directory : Type := mkDirectory {
  User : string;
  Password : string;
  Host : string;
  Port : Z;
  Frozen : list string;
  Groups : gmap string (list string);
  Roles : gmap string (list string);
  Attrmap : gmap string (gmap string string);
  Allusers : string
}.

(** ** [ldapcalls.go] *)

Record LDAPCaller : Type := mkLDAPCaller {
  lc_user : string;
  lc_password : string;
  lc_host : string;
  lc_proto : string;
  lc_port : Z;
  lc_conn : bool
}.

Definition NewLDAPCaller : LDAPCaller :=
  {| lc_user := ""; lc_password := ""; lc_host := ""; lc_proto := "tcp";
     lc_port := 389; lc_conn := false |}.

Definition SetUser (user : string) (lc : LDAPCaller) : LDAPCaller :=
  mkLDAPCaller user (lc_password lc) (lc_host lc) (lc_proto lc) (lc_port lc) (lc_conn lc).
Definition SetPassword (password : string) (lc : LDAPCaller) : LDAPCaller :=
  mkLDAPCaller (lc_user lc) password (lc_host lc) (lc_proto lc) (lc_port lc) (lc_conn lc).
Definition SetPort (port : Z) (lc : LDAPCaller) : LDAPCaller :=
  mkLDAPCaller (lc_user lc) (lc_password lc) (lc_host lc) (lc_proto lc) port (lc_conn lc).
Definition SetProto (proto : string) (lc : LDAPCaller) : LDAPCaller :=
  mkLDAPCaller (lc_user lc) (lc_password lc) (lc_host lc) proto (lc_port lc) (lc_conn lc).
Definition SetHost (host : string) (lc : LDAPCaller) : LDAPCaller :=
  mkLDAPCaller (lc_user lc) (lc_password lc) host (lc_proto lc) (lc_port lc) (lc_conn lc).
Definition set_conn (c : bool) (lc : LDAPCaller) : LDAPCaller :=
  mkLDAPCaller (lc_user lc) (lc_password lc) (lc_host lc) (lc_proto lc) (lc_port lc) c.

(** ** Effects

    A run talks to the account store, searches the directory and writes
    log lines; [Log.Fatal] ends the process, and so does a failed type
    assertion or a nil dereference. *)

Inductive Level : Type := Debug | Info | Error | Fatal.

Inductive Event : Type :=
| EvCall (c : Call)
| EvSearch (r : SearchRequest)
| EvLog (l : Level) (msg : string).

Inductive Outcome (A : Type) : Type :=
| Done (a : A)
| Exit
| Panic.
Arguments Done {A} a.
Arguments Exit {A}.
Arguments Panic {A}.

Record Result (S A : Type) : Type := mkResult {
  out : Outcome A;
  final : S;
  events : list Event
}.
Arguments mkResult {S A} _ _ _.
Arguments out {S A} _.
Arguments final {S A} _.
Arguments events {S A} _.

(** A computation: from the state of the account store to an outcome, the
    state it leaves and the events it emitted, in their order. *)
Definition M (S A : Type) : Type := S → Result S A.

Definition ret {S A} (a : A) : M S A := λ st, mkResult (Done a) st [].

(** Sequencing: an exit or a panic ends the run, nothing follows it. *)
Definition bind {S A B} (m : M S A) (k : A → M S B) : M S B := λ st,
  let r := m st in
  match out r with
  | Done a =>
      let r' := k a (final r) in
      mkResult (out r') (final r') (events r ++ events r')
  | Exit => mkResult Exit (final r) (events r)
  | Panic => mkResult Panic (final r) (events r)
  end.

Arguments bind {S A B} m k st : simpl never.

Declare Scope run_scope.
Delimit Scope run_scope with run.
Bind Scope run_scope with M.
Notation "'let*' x ':=' m 'in' k" := (bind m (λ x, k))
  (at level 10, x name, m at level 100, k at level 200) : run_scope.
Notation "'let*' ' p ':=' m 'in' k" := (bind m (λ p, k))
  (at level 10, p strict pattern, m at level 100, k at level 200) : run_scope.
Notation "m ';;' k" := (bind m (λ _, k))
  (at level 100, k at level 200, right associativity) : run_scope.
Open Scope run_scope.

Definition emit {S} (ev : Event) : M S unit := λ st, mkResult (Done ()) st [ev].
Definition exit_ {S A} : M S A := λ st, mkResult Exit st [].
Definition panic {S A} : M S A := λ st, mkResult Panic st [].

(** [Log.Debugf], [Log.Infof], [Log.Errorf]: the message is the format
    with its arguments filled in. *)
Definition logf {S} (l : Level) (parts : list string) : M S unit :=
  emit (EvLog l (String.concat "" parts)).

(** [Log.Fatal]: the line is written and the process exits. *)
Definition fatal {S A} (msg : string) : M S A :=
  emit (EvLog Fatal msg);; exit_.

(** Type assertions [v.(string)], [v.([]interface{})] and
    [v.(map[string]interface{})]: a value of another type panics. *)
Definition asString {S} (v : Value) : M S string :=
  match v with VString s => ret s | _ => panic end.
Definition asArray {S} (v : Value) : M S (list Value) :=
  match v with VArray items => ret items | _ => panic end.
Definition asMap {S} (v : Value) : M S (list (string * Value)) :=
  match v with VStruct fields => ret fields | _ => panic end.

(** [m[key]] on a [map[string]interface{}]: nil when the key is absent. *)
Fixpoint index (fields : list (string * Value)) (key : string) : Value :=
  match fields with
  | [] => VNil
  | (k, v) :: rest => if String.eqb k key then v else index rest key
  end.

(** [strings.Split(s, sep)] for a separator of one byte: the pieces
    between the separators, one more than there are separators. *)
Fixpoint Split (s : string) (sep : Ascii.ascii) : list string :=
  match s with
  | EmptyString => [""]
  | String c s' =>
      if Ascii.eqb c sep then "" :: Split s' sep
      else match Split s' sep with
           | [] => [String c ""]
           | piece :: pieces => String c piece :: pieces
           end
  end.

(** ** [ldapsync.go] *)

Record SearchConfig : Type := mkSearchConfig {
  sc_config : gmap string (list string);
  sc_filter : string;
  sc_attribute : string
}.

Record LDAPSync : Type := mkLDAPSync {
  lc : LDAPCaller;
  cr : Directory;
  ldapusers : list UyuniUser;
  uyuniusers : list UyuniUser;
  allldapusers : list UyuniUser;
  roleConfigs : list SearchConfig
}.

Definition set_lc (v : LDAPCaller) (sync : LDAPSync) : LDAPSync :=
  mkLDAPSync v (cr sync) (ldapusers sync) (uyuniusers sync) (allldapusers sync)
    (roleConfigs sync).
Definition set_ldapusers (v : list UyuniUser) (sync : LDAPSync) : LDAPSync :=
  mkLDAPSync (lc sync) (cr sync) v (uyuniusers sync) (allldapusers sync)
    (roleConfigs sync).
Definition set_uyuniusers (v : list UyuniUser) (sync : LDAPSync) : LDAPSync :=
  mkLDAPSync (lc sync) (cr sync) (ldapusers sync) v (allldapusers sync)
    (roleConfigs sync).
Definition set_allldapusers (v : list UyuniUser) (sync : LDAPSync) : LDAPSync :=
  mkLDAPSync (lc sync) (cr sync) (ldapusers sync) (uyuniusers sync) v
    (roleConfigs sync).

(** [NewLDAPSync], from the configuration that [NewConfigReader] loaded. *)
Definition NewLDAPSync (cfg : Directory) : LDAPSync :=
  {| cr := cfg;
     lc := SetPassword (Password cfg) (SetUser (User cfg)
             (SetPort (Port cfg) (SetHost (Host cfg) NewLDAPCaller)));
     ldapusers := [];
     uyuniusers := [];
     allldapusers := [];
     roleConfigs :=
       [ {| sc_config := Roles cfg;
            sc_filter := "(objectClass=organizationalRole)";
            sc_attribute := "roleOccupant" |};
         {| sc_config := Groups cfg;
            sc_filter := "(|(objectClass=groupOfNames)(objectClass=group))";
            sc_attribute := "member" |} ] |}.

Definition ConfigReader (sync : LDAPSync) : Directory := cr sync.

(** [funk.Contains] on a slice of strings. *)
Definition Contains (l : list string) (x : string) : bool := bool_decide (x ∈ l).

(** Helper function that looks for the same user or at least its ID. *)
Fixpoint in_ (user : UyuniUser) (users : list UyuniUser) : bool :=
  match users with
  | [] => false
  | u :: rest => if String.eqb (Uid u) (Uid user) then true else in_ user rest
  end.

(** Iterate over possible attribute aliases. *)
Fixpoint getAttributes (entry : Entry) (attr : list string) : string :=
  match attr with
  | [] => ""
  | a :: rest =>
      let obj := GetAttributeValue entry a in
      if String.eqb obj "" then getAttributes entry rest else obj
  end.

(** Get an attribute name for DN: the remapped name from the
    configuration, or the original one. *)
Definition getAttributeNameFor (sync : LDAPSync) (attr : string) : string :=
  match Attrmap (cr sync) !! Allusers (cr sync) with
  | Some fieldmap =>
      match fieldmap !! attr with
      | Some nAttr => nAttr
      | None => attr
      end
  | None => attr
  end.

(** Copies the data of the staged users of the same uid into the user. *)
Definition updateFromLDAPUser (sync : LDAPSync) (uyuniUser : UyuniUser) : UyuniUser :=
  foldl (λ uyuniUser ldapUser,
           if String.eqb (Uid ldapUser) (Uid uyuniUser) then
             foldl (λ uyuniUser role, AddRoles [role] uyuniUser)
               (FlushRoles
                  (set_Email (Email ldapUser)
                     (set_Secondname (Secondname ldapUser)
                        (set_Name (Name ldapUser) uyuniUser))))
               (GetRoles ldapUser)
           else uyuniUser)
    uyuniUser (ldapusers sync).

(** GetDeletedUsers: the users that are both in Uyuni and LDAP, but not
    in the LDAP admin-related groups. *)
Definition GetDeletedUsers (sync : LDAPSync) : list UyuniUser :=
  filter (λ user, negb (in_ user (ldapusers sync)) && in_ user (uyuniusers sync))
    (allldapusers sync).

(** GetNewUsers: the new users among [uyuniusers], each refreshed from its
    staged user. The users are shared with [sync.uyuniusers], which is
    returned with the refreshed users in place. *)
Definition GetNewUsers (sync : LDAPSync) : LDAPSync * list UyuniUser :=
  let users' :=
    (λ user, if IsNew user then updateFromLDAPUser sync user else user)
      <$> uyuniusers sync in
  (set_uyuniusers users' sync, filter (λ user, IsNew user = true) users').

(** GetOutdatedUsers: the users that are in Uyuni but need a refresh. *)
Definition GetOutdatedUsers (sync : LDAPSync) : list UyuniUser :=
  filter (λ user, negb (IsNew user) && IsOutdated user) (uyuniusers sync).

(** The users of [news] written over the new users of [users], in order:
    [SyncUsers] changes the new users through pointers shared with
    [sync.uyuniusers]. *)
Fixpoint writeBack (news users : list UyuniUser) : list UyuniUser :=
  match users with
  | [] => []
  | u :: rest =>
      if IsNew u then
        match news with
        | n :: news' => n :: writeBack news' rest
        | [] => u :: rest
        end
      else u :: writeBack news rest
  end.

Section Engine.
(** The state of the remote account store and its answer to a call; the
    directory: whether [ldap.Dial] fails and what a search returns; and
    the order in which a [range] over a map visits it. *)
Context {St : Type}.
Variable uc_Call : Call → St → Reply * St.
Variable ldap_Dial : string → string → option string.
Variable ldap_Search : SearchRequest → string + list Entry.
Variable range : ∀ A : Type, list A → list A.

Abbreviation M := (M St).

Fixpoint forM_ {A} (l : list A) (f : A → M unit) : M unit :=
  match l with
  | [] => ret ()
  | x :: rest => f x;; forM_ rest f
  end.

Fixpoint foldM {A B} (f : B → A → M B) (l : list A) (b : B) : M B :=
  match l with
  | [] => ret b
  | x :: rest => let* b' := f b x in foldM f rest b'
  end.

(** [sync.uc.Call(method, sync.uc.Session(), args...)] *)
Definition uc (c : Call) : M Reply := λ st,
  let r := uc_Call c st in mkResult (Done r.1) r.2 [EvCall c].

(** *** [ldapcalls.go] *)

Definition Connect (lc : LDAPCaller) : M LDAPCaller :=
  if lc_conn lc then ret lc
  else
    match ldap_Dial (lc_proto lc) (lc_host lc +:+ ":" +:+ pretty (lc_port lc)) with
    | Some err => fatal err
    | None => ret (set_conn true lc)
    end.

Definition Disconnect (lc : LDAPCaller) : M LDAPCaller :=
  if lc_conn lc then ret (set_conn false lc) else ret lc.

Definition Search (lc : LDAPCaller) (request : SearchRequest) : M (list Entry) :=
  if lc_conn lc then
    emit (EvSearch request);;
    match ldap_Search request with
    | inl err => fatal err
    | inr entries => ret entries
    end
  else panic.

(** *** Comparison *)

(** The body of the loop of [sameAsIn] at the user [u] of the same uid. *)
Definition compareWith (user u : UyuniUser) : M (UyuniUser * bool) :=
  let same := String.eqb (Email u) (Email user) in
  let* '(user, same) :=
    (if same then ret (user, String.eqb (Name u) (Name user))
     else
       logf Debug ["User "; Uid user; " email has been changed from ";
                   Email user; " to "; Email u];;
       ret (set_accountchanged true user, same)) in
  let* '(user, same) :=
    (if same then ret (user, String.eqb (Secondname u) (Secondname user))
     else
       logf Debug ["User "; Uid user; " name has been changed from ";
                   Name user; " to "; Name u];;
       ret (set_accountchanged true user, same)) in
  let* '(user, same) :=
    (if same then ret (user, CompareRoles user u)
     else
       logf Debug ["User "; Uid user; " family name has been changed from ";
                   Secondname user; " to "; Secondname u];;
       ret (set_accountchanged true user, same)) in
  if negb same then
    logf Debug ["User "; Uid user; " role set has been changed"];;
    ret (set_roleschanged true user, same)
  else ret (user, same).

(** Match a given user by uid, compare all metadata. Returns the user
    with its diagnostic flags, the verdict and the error. *)
Fixpoint sameAsIn (user : UyuniUser) (users : list UyuniUser)
    : M (UyuniUser * (bool * option string)) :=
  match users with
  | [] =>
      logf Debug ["Unable to compare user '"; Uid user; "': user not found"];;
      ret (user, (false, Some ("User UID " +:+ Uid user +:+ " was not found")))
  | u :: rest =>
      if String.eqb (Uid u) (Uid user) then
        let* '(user, same) := compareWith user u in
        ret (user, (same, None))
      else sameAsIn user rest
  end.

(** *** Pushing to Uyuni *)

(** Remove user from the Uyuni. *)
Definition deleteUser (uyuniUser : UyuniUser) : M unit :=
  let* r := uc (user_delete (Uid uyuniUser)) in
  match r with
  | Failed err => logf Error ["Cannot delete users '"; Uid uyuniUser; "': "; err]
  | Returned _ => ret ()
  end.

(** Push account data to Uyuni. *)
Definition pushUserAccountDataToUyuni (user : UyuniUser) : M unit :=
  let* r := uc (user_setDetails (Uid user) (Name user) (Secondname user)
                  (Email user)) in
  match r with
  | Failed err =>
      logf Error ["Failed to push user account data for "; Uid user; ": "; err]
  | Returned _ =>
      let* r := uc (user_usePamAuthentication (Uid user) 1) in
      match r with
      | Failed err =>
          logf Error ["Failed to push user authentication settings for ";
                      Uid user; ": "; err]
      | Returned _ => ret ()
      end
  end.

(** Sync user roles: remove the current roles away, add the new ones. *)
Definition pushUserRolesToUyuni (uyuniUser : UyuniUser) : M unit :=
  let* res := uc (user_listRoles (Uid uyuniUser)) in
  match res with
  | Failed err =>
      logf Error ["Cannot list roles for user '"; Uid uyuniUser; "': "; err]
  | Returned v =>
      let* items := asArray v in
      forM_ items (λ item,
        let* role := asString item in
        let* r := uc (user_removeRole (Uid uyuniUser) role) in
        match r with
        | Failed err => logf Error ["Cannot remove role '"; role; "': "; err]
        | Returned _ => logf Debug ["Removed role '"; role; "'"]
        end);;
      forM_ (GetRoles uyuniUser) (λ role,
        let* r := uc (user_addRole (Uid uyuniUser) role) in
        match r with
        | Failed err => logf Error ["Cannot add role '"; role; "': "; err]
        | Returned _ => logf Debug ["Added role '"; role; "'"]
        end)
  end.

(** The body of the loop of [SyncUsers] over the new users: the user
    with the [Err] of its creation, and whether it failed. *)
Definition createUser (user : UyuniUser) : M UyuniUser :=
  logf Debug ["New user: "; Uid user];;
  let* r := uc (user_create (Uid user) "" (Name user) (Secondname user)
                  (Email user) 1) in
  let user := set_Err (match r with
                       | Failed err => Some err
                       | Returned _ => None
                       end) user in
  if negb (IsValid user) then
    logf Debug ["Failed to create user "; Uid user; " due to ";
                default "" (Err user)];;
    ret user
  else
    pushUserRolesToUyuni user;;
    ret user.

Definition createUsers (newUsers : list UyuniUser)
    : M (list UyuniUser * list UyuniUser) :=
  foldM (λ '(users, failed) user,
           let* user := createUser user in
           if negb (IsValid user) then ret (users ++ [user], failed ++ [user])
           else ret (users ++ [user], failed))
    newUsers ([], []).

(** SyncUsers is creating new users in Uyuni by their names and emails,
    updating the outdated ones and deleting the removed ones. *)
Definition SyncUsers (sync : LDAPSync) : M (LDAPSync * list UyuniUser) :=
  logf Info ["Begin user synchronisation between LDAP and Uyuni server"];;
  let '(sync, newUsers) := GetNewUsers sync in
  let* '(created, failed) :=
    (if bool_decide (0 < length newUsers) then
       logf Debug ["Found "; pretty (length newUsers); " new users"];;
       createUsers newUsers
     else ret (newUsers, [])) in
  let sync := set_uyuniusers (writeBack created (uyuniusers sync)) sync in
  let existingUsers := GetOutdatedUsers sync in
  (if bool_decide (0 < length existingUsers) then
     logf Debug ["Updating "; pretty (length existingUsers); " users"];;
     forM_ existingUsers (λ user,
       logf Debug ["Update data for user: "; Uid user];;
       pushUserRolesToUyuni user;;
       pushUserAccountDataToUyuni user)
   else ret ());;
  let deletedUsers := GetDeletedUsers sync in
  (if bool_decide (0 < length deletedUsers) then
     logf Debug ["Deleting removed "; pretty (length deletedUsers); " users"];;
     forM_ deletedUsers (λ user,
       logf Debug ["Remove user: "; Uid user];;
       deleteUser user)
   else ret ());;
  logf Info ["Added "; pretty (length newUsers); " new users, updated ";
             pretty (length existingUsers); " existing users, removed ";
             pretty (length deletedUsers); " users"];;
  logf Info ["End user synchronisation between LDAP and Uyuni server"];;
  ret (sync, failed).

(** *** The lockout guard *)

(** The inner loop of [verifyIgnoredUsers]: is one of the roles
    "org_admin"? *)
Fixpoint hasOrgAdmin (items : list Value) : M bool :=
  match items with
  | [] => ret false
  | item :: rest =>
      let* role := asString item in
      if String.eqb role "org_admin" then ret true else hasOrgAdmin rest
  end.

(** The outer loop of [verifyIgnoredUsers], up to the label [End]. *)
Fixpoint findFrozenAdmin (uids : list string) : M bool :=
  match uids with
  | [] => ret false
  | uid :: rest =>
      let* res := uc (user_listRoles uid) in
      match res with
      | Failed err =>
          logf Error ["No users has been found with the UID '"; uid; "'"];;
          findFrozenAdmin rest
      | Returned v =>
          let* items := asArray v in
          let* valid := hasOrgAdmin items in
          if valid then ret true else findFrozenAdmin rest
      end
  end.

(** At least one ignored/frozen user must have org_admin role. *)
Definition verifyIgnoredUsers (sync : LDAPSync) : M unit :=
  let* valid := findFrozenAdmin (Frozen (cr sync)) in
  if negb valid then
    fatal ("In Uyuni server no actual frozen accounts found with the role 'org_admin'. "
           +:+ "You are risking permanently locking Uyuni server, if you have incorrect LDAP users settings.")
  else ret ().

(** *** Classification *)

(** The body of the loop of [refreshUyuniUsersStatus] at one staged
    user: the user with its flags, [sync.uyuniusers] updated in place,
    and the new users queued so far. *)
Definition refreshStatusOf (user : UyuniUser)
    (uyuni newusers : list UyuniUser)
    : M (UyuniUser * list UyuniUser * list UyuniUser) :=
  let user := set_new (negb (in_ user uyuni)) user in
  let* '(user, newusers) :=
    (if negb (IsNew user) then
       let* '(user, (isSame, err)) := sameAsIn user uyuni in
       match err with
       | None => ret (set_outdated (negb isSame) user, newusers)
       | Some _ => ret (user, newusers)
       end
     else ret (user, newusers ++ [Clone user])) in
  let uyuni :=
    (λ uUuser,
       if String.eqb (Uid uUuser) (Uid user) then
         AddRoles (GetRoles user)
           (FlushRoles
              (set_Email (Email user)
                 (set_Secondname (Secondname user)
                    (set_Name (Name user)
                       (set_outdated (outdated user) uUuser)))))
       else uUuser) <$> uyuni in
  ret (user, uyuni, newusers).

(** Refresh what users are new and what needs update. *)
Definition refreshUyuniUsersStatus (sync : LDAPSync) : M LDAPSync :=
  let* '(ldap, uyuni, newusers) :=
    foldM (λ '(ldap, uyuni, newusers) user,
             let* '(user, uyuni, newusers) :=
               refreshStatusOf user uyuni newusers in
             ret (ldap ++ [user], uyuni, newusers))
      (ldapusers sync) ([], uyuniusers sync, []) in
  ret (set_uyuniusers (uyuni ++ newusers) (set_ldapusers ldap sync)).

(** *** The three sets of users *)

(** The body of the loop of [refreshExistingUyuniUsers] at one item of
    the listing. *)
Definition existingUserOf (sync : LDAPSync) (users : list UyuniUser)
    (usrdata : Value) : M (list UyuniUser) :=
  let* fields := asMap usrdata in
  let* uid := asString (index fields "login") in
  if Contains (Frozen (cr sync)) uid then ret users
  else
    let user := set_Uid uid NewUyuniUser in
    let* res := uc (user_getDetails (Uid user)) in
    match res with
    | Failed err => fatal err
    | Returned v =>
        let* userDetails := asMap v in
        let* email := asString (index userDetails "email") in
        let user := set_Email email user in
        let* first_name := asString (index userDetails "first_name") in
        let user := set_Name first_name user in
        let* last_name := asString (index userDetails "last_name") in
        let user := set_Secondname last_name user in
        let* res := uc (user_listRoles (Uid user)) in
        match res with
        | Failed err => fatal err
        | Returned v =>
            let* items := asArray v in
            let* user :=
              foldM (λ user roleItf,
                       let* role := asString roleItf in
                       ret (AddRoles [role] user))
                items user in
            ret (users ++ [user])
        end
    end.

(** Get all existing users in Uyuni. *)
Definition refreshExistingUyuniUsers (sync : LDAPSync) : M LDAPSync :=
  let sync := set_uyuniusers [] sync in
  let* res := uc user_listUsers in
  match res with
  | Failed err => fatal err
  | Returned v =>
      let* items := asArray v in
      let* users := foldM (existingUserOf sync) items (uyuniusers sync) in
      ret (set_uyuniusers users sync)
  end.

Definition newUserFromDN (sync : LDAPSync) (dn : string) : M UyuniUser :=
  let user := NewUyuniUser in
  let request := NewSearchRequest dn "(objectClass=*)" in
  let* entries := Search (lc sync) request in
  match entries with
  | [entry] =>
      let user := set_Dn (DN entry) user in
      let user := set_Uid (GetAttributeValue entry (getAttributeNameFor sync "uid")) user in
      let user := set_Email (GetAttributeValue entry (getAttributeNameFor sync "mail")) user in
      let cn := Split (GetAttributeValue entry "cn") " "%char in
      match cn with
      | [cn0; cn1] => ret (set_Secondname cn1 (set_Name cn0 user))
      | _ =>
          let user :=
            set_Name (getAttributes entry [getAttributeNameFor sync "name";
                                           getAttributeNameFor sync "givenName"]) user in
          ret (set_Secondname (GetAttributeValue entry (getAttributeNameFor sync "sn")) user)
      end
  | _ =>
      logf Error ["DN '"; dn; "' matches more or less than one distinct user"];;
      ret user
  end.

(** Get all users from LDAP, regardless are they are meant to be in the
    Uyuni. *)
Definition refreshAllLDAPUsers (sync : LDAPSync) : M LDAPSync :=
  let sync := set_allldapusers [] sync in
  let request :=
    NewSearchRequest (Allusers (cr sync)) "(objectClass=organizationalPerson)" in
  let* entries := Search (lc sync) request in
  let* users :=
    foldM (λ users entry,
             let* user := newUserFromDN sync (DN entry) in
             ret (users ++ [user]))
      entries (allldapusers sync) in
  ret (set_allldapusers users sync).

Definition mergeRolesByAttributes (sync : LDAPSync) (dn : string)
    (user : UyuniUser) (filter attribute : string) (uyuniRoles : list string)
    : M UyuniUser :=
  let req := NewSearchRequest dn filter in
  let* entries := Search (lc sync) req in
  ret (foldl (λ user entry,
                foldl (λ user roleDn,
                         if String.eqb roleDn (Dn user)
                         then AddRoles uyuniRoles user else user)
                  user (GetAttributeValues entry attribute))
         user entries).

(** Get LDAP organizationalRole based on configuration. *)
Definition updateLDAPUserRoles (sync : LDAPSync) (user : UyuniUser) : M UyuniUser :=
  foldM (λ user searchConfig,
           foldM (λ user '(dn, uyuniRoles),
                    mergeRolesByAttributes sync dn user (sc_filter searchConfig)
                      (sc_attribute searchConfig) uyuniRoles)
             (range _ (map_to_list (sc_config searchConfig))) user)
    (roleConfigs sync) user.

(** The first loop of [refreshStagedLDAPUsers]: all distinct user DNs
    from the "member" and "roleOccupant" attributes across all the
    groups. *)
Definition stagedDNs (sync : LDAPSync) : M (gset string) :=
  foldM (λ udns (roleset : gmap string (list string)),
           foldM (λ udns '(gdn, _),
                    let request := NewSearchRequest gdn "(objectClass=*)" in
                    let* entries := Search (lc sync) request in
                    ret (foldl (λ udns entry,
                                  foldl (λ (udns : gset string) udn, {[udn]} ∪ udns)
                                    udns
                                    (GetAttributeValues entry "member"
                                     ++ GetAttributeValues entry "roleOccupant"))
                           udns entries))
             (range _ (map_to_list roleset)) udns)
    [Groups (cr sync); Roles (cr sync)] ∅.

(** The body of the second loop of [refreshStagedLDAPUsers] at one user
    DN: collect the data of the user. *)
Definition stagedUserOf (sync : LDAPSync) (users : list UyuniUser)
    (udn : string) : M (list UyuniUser) :=
  let* user := newUserFromDN sync udn in
  if negb (String.eqb (Uid user) "")
     && negb (Contains (Frozen (cr sync)) (Uid user))
  then
    let* user := updateLDAPUserRoles sync user in
    ret (users ++ [user])
  else ret users.

(** Get existing LDAP users, based on the groups mapping. *)
Definition refreshStagedLDAPUsers (sync : LDAPSync) : M LDAPSync :=
  let sync := set_ldapusers [] sync in
  let* udns := stagedDNs sync in
  let* users :=
    foldM (stagedUserOf sync) (range _ (elements udns)) (ldapusers sync) in
  ret (set_ldapusers users sync).

(** *** A run *)

Definition Start (sync : LDAPSync) : M LDAPSync :=
  let* lc' := Connect (lc sync) in
  let sync := set_lc lc' sync in
  verifyIgnoredUsers sync;;
  let* sync := refreshExistingUyuniUsers sync in
  let* sync := refreshStagedLDAPUsers sync in
  let* sync := refreshAllLDAPUsers sync in
  refreshUyuniUsersStatus sync.

Definition Finish (sync : LDAPSync) : M LDAPSync :=
  let* lc' := Disconnect (lc sync) in
  ret (set_lc lc' sync).

(** Modelled from the spec: the caller of the engine is not part of the
    sources at hand. A run builds the engine from the configuration,
    starts it (lockout guard, the three sets, classification), pushes,
    and closes the directory session. *)
Definition Run (cfg : Directory) : M (list UyuniUser) :=
  let* sync := Start (NewLDAPSync cfg) in
  let* '(sync, failed) := SyncUsers sync in
  Finish sync;;
  ret failed.
End Engine.

(** ** A reference account store

    The account store is a remote system; the engine is proved against
    any store ([uc_Call] above is arbitrary). Where a property speaks of
    what the store holds afterwards, it is stated for this one. *)

Record Account : Type := mkAccount {
  acc_email : string;
  acc_first_name : string;
  acc_last_name : string;
  acc_roles : list string;
  acc_pam : bool
}.

(** Modelled from the spec: the destination account store behind the
    "Account Store Client", a reliable request/response facility: the
    accounts by login, and the nine methods of the interface. A method
    on a login that does not exist fails, and so does the creation of one
    that does. *)
Definition store_Call (c : Call) (st : gmap string Account)
    : Reply * gmap string Account :=
  let on login (f : Account → Reply * gmap string Account) :=
    match st !! login with
    | Some a => f a
    | None => (Failed ("no such user: " +:+ login), st)
    end in
  match c with
  | user_listUsers =>
      (Returned (VArray ((λ p, VStruct [("login", VString p.1)]) <$> map_to_list st)),
       st)
  | user_getDetails login =>
      on login (λ a,
        (Returned (VStruct [("first_name", VString (acc_first_name a));
                            ("last_name", VString (acc_last_name a));
                            ("email", VString (acc_email a))]), st))
  | user_listRoles login =>
      on login (λ a, (Returned (VArray (VString <$> acc_roles a)), st))
  | user_addRole login role =>
      on login (λ a,
        (Returned (VInt 1),
         <[login := mkAccount (acc_email a) (acc_first_name a) (acc_last_name a)
                      (if bool_decide (role ∈ acc_roles a) then acc_roles a
                       else acc_roles a ++ [role])
                      (acc_pam a)]> st))
  | user_removeRole login role =>
      on login (λ a,
        (Returned (VInt 1),
         <[login := mkAccount (acc_email a) (acc_first_name a) (acc_last_name a)
                      (filter (λ r, r ≠ role) (acc_roles a)) (acc_pam a)]> st))
  | user_create login password first_name last_name email usePam =>
      match st !! login with
      | Some _ => (Failed ("user already exists: " +:+ login), st)
      | None =>
          (Returned (VInt 1),
           <[login := mkAccount email first_name last_name [] (bool_decide (usePam ≠ 0%Z))]> st)
      end
  | user_setDetails login first_name last_name email =>
      on login (λ a,
        (Returned (VInt 1),
         <[login := mkAccount email first_name last_name (acc_roles a) (acc_pam a)]> st))
  | user_usePamAuthentication login v =>
      on login (λ a,
        (Returned (VInt 1),
         <[login := mkAccount (acc_email a) (acc_first_name a) (acc_last_name a)
                      (acc_roles a) (bool_decide (v ≠ 0%Z))]> st))
  | user_delete login =>
      on login (λ a, (Returned (VInt 1), delete login st))
  end.

(** ** A small deployment, used to run the engine on concrete inputs *)

Module Example.
Definition cfg : Directory :=
  {| User := "uid=admin,ou=system"; Password := "secret";
     Host := "ldap.example.com"; Port := 10389;
     Frozen := ["administrator"];
     Groups := {[ "cn=org_admin,ou=Groups,dc=x" := ["org_admin"];
                  "cn=sysop,ou=Groups,dc=x" := ["channel_admin"; "config_admin"] ]};
     Roles := {[ "cn=root,ou=Groups,dc=x" := ["org_admin"; "channel_admin"] ]};
     Attrmap := ∅;
     Allusers := "ou=Users,dc=x" |}.

Definition person (dn uid cn mail : string) : Entry :=
  {| DN := dn; Attributes := [("uid", [uid]); ("cn", [cn]); ("mail", [mail])] |}.

Definition alice := person "cn=alice,ou=Users,dc=x" "alice" "Alice Liddell" "alice@x".
Definition bob := person "cn=bob,ou=Users,dc=x" "bob" "Bob Builder" "bob@x".
Definition carol := person "cn=carol,ou=Users,dc=x" "carol" "Carol Jones" "carol@x".

(** alice is a member of two groups and the occupant of a role, carol
    of one group; bob is in the subtree of all users only. *)
Definition search (r : SearchRequest) : string + list Entry :=
  let dn := BaseDN r in
  if String.eqb dn "cn=org_admin,ou=Groups,dc=x" then
    inr [ {| DN := dn; Attributes := [("member", [DN alice])] |} ]
  else if String.eqb dn "cn=sysop,ou=Groups,dc=x" then
    inr [ {| DN := dn; Attributes := [("member", [DN alice; DN carol])] |} ]
  else if String.eqb dn "cn=root,ou=Groups,dc=x" then
    inr [ {| DN := dn; Attributes := [("roleOccupant", [DN alice])] |} ]
  else if String.eqb dn "ou=Users,dc=x" then inr [alice; bob; carol]
  else if String.eqb dn (DN alice) then inr [alice]
  else if String.eqb dn (DN bob) then inr [bob]
  else if String.eqb dn (DN carol) then inr [carol]
  else inr [].

Definition dial (proto addr : string) : option string := None.

Definition store : gmap string Account :=
  {[ "administrator" := mkAccount "root@x" "Ad" "Min" ["org_admin"] true;
     "bob" := mkAccount "bob@x" "Bob" "Builder" ["channel_admin"] true;
     "carol" := mkAccount "carol@x" "Carol" "Jones" ["channel_admin"] true ]}.

Definition run := Run store_Call dial search (λ _ l, l) cfg store.
End Example.

(** * Notions used in the properties *)

(** ** Strings and attribute names *)

(** The byte occurs in the string. *)
Fixpoint occurs (c : Ascii.ascii) (s : string) : bool :=
  match s with
  | EmptyString => false
  | String c' s' => Ascii.eqb c' c || occurs c s'
  end.

(** The rule of the specification, by its words: [resolve(baseDN,
    canonicalName)] looks up [baseDN] in the AttributeMap and returns the
    override of the canonical name if there is one, else the canonical
    name. *)
Definition resolve (attrmap : gmap string (gmap string string))
    (baseDN canonicalName : string) : string :=
  match attrmap !! baseDN with
  | Some overrides => default canonicalName (overrides !! canonicalName)
  | None => canonicalName
  end.

Module Remap.
(** The users of the staff are kept under a base DN of their own, with
    a remapped "uid"; the base DN of all users is another one. *)
Definition cfg : Directory :=
  {| User := ""; Password := ""; Host := "ldap.example.com"; Port := 389;
     Frozen := ["administrator"]; Groups := ∅; Roles := ∅;
     Attrmap := {[ "ou=Staff,dc=x" := {[ "uid" := "login" ]} ]};
     Allusers := "ou=Users,dc=x" |}.

Definition sync : LDAPSync :=
  set_lc (set_conn true (lc (NewLDAPSync cfg))) (NewLDAPSync cfg).

Definition jdoe : Entry :=
  {| DN := "ou=Staff,dc=x";
     Attributes := [("uid", ["u1"]); ("login", ["jdoe"]); ("cn", ["John Doe"])] |}.

(** An entry with an entry below it: a subtree search rooted at it finds
    both. *)
Definition team : list Entry :=
  [ {| DN := "cn=team,ou=Users,dc=x";
       Attributes := [("uid", ["team"]); ("cn", ["The Team"])] |};
    {| DN := "cn=lead,cn=team,ou=Users,dc=x";
       Attributes := [("uid", ["lead"]); ("cn", ["Team Lead"])] |} ].

Definition search (r : SearchRequest) : string + list Entry :=
  if String.eqb (BaseDN r) "ou=Staff,dc=x" then inr [jdoe]
  else if String.eqb (BaseDN r) "cn=team,ou=Users,dc=x" then inr team
  else inr [].
End Remap.

(** ** Users built from a DN *)

(** C8 by its words: only the distinguished name of the user is set. *)
Definition only_distinguishedName_set (dn : string) (u : UyuniUser) : Prop :=
  Dn u = dn ∧ Uid u = "" ∧ Email u = "" ∧ Name u = "" ∧ Secondname u = ""
  ∧ GetRoles u = [].

(** ** Comparison and classification *)

(** The first user of the uid in a list: the one [sameAsIn] compares
    with. *)
Fixpoint firstOf (uid : string) (users : list UyuniUser) : option UyuniUser :=
  match users with
  | [] => None
  | u :: rest => if String.eqb (Uid u) uid then Some u else firstOf uid rest
  end.

(** The verdict of the comparison of a staged user with a destination
    user, and the staged user with the diagnostic flags it raises. *)
Definition sameAccount (user u : UyuniUser) : bool :=
  String.eqb (Email u) (Email user) && String.eqb (Name u) (Name user)
  && String.eqb (Secondname u) (Secondname user).

Definition same (user u : UyuniUser) : bool :=
  sameAccount user u && CompareRoles user u.

Definition flagged (user u : UyuniUser) : UyuniUser :=
  let user := if sameAccount user u then user else set_accountchanged true user in
  if same user u then user else set_roleschanged true user.

(** The in-place overwrite of the destination users of the uid of a
    staged user, at the end of an iteration of
    [refreshUyuniUsersStatus]. *)
Definition overwritten (user uUuser : UyuniUser) : UyuniUser :=
  AddRoles (GetRoles user)
    (FlushRoles
       (set_Email (Email user)
          (set_Secondname (Secondname user)
             (set_Name (Name user)
                (set_outdated (outdated user) uUuser))))).

Definition overwrite (user : UyuniUser) (uyuni : list UyuniUser) : list UyuniUser :=
  (λ uUuser,
     if String.eqb (Uid uUuser) (Uid user) then overwritten user uUuser
     else uUuser) <$> uyuni.

(** The staged user after its iteration. *)
Definition classified (user : UyuniUser) (uyuni : list UyuniUser) : UyuniUser :=
  match firstOf (Uid user) uyuni with
  | Some u =>
      set_outdated (negb (same (set_new false user) u))
        (flagged (set_new false user) u)
  | None => set_new true user
  end.

(** ** Role resolution *)

(** Evaluation without the log: the outcome of a computation that leaves
    the account store alone. *)
Definition obind {A B} (o : Outcome A) (k : A → Outcome B) : Outcome B :=
  match o with
  | Done a => k a
  | Exit => Exit
  | Panic => Panic
  end.

Fixpoint ofoldM {A B} (f : B → A → Outcome B) (l : list A) (b : B) : Outcome B :=
  match l with
  | [] => Done b
  | x :: rest => obind (f b x) (ofoldM f rest)
  end.

Definition pure_as {St A} (m : M St A) (o : Outcome A) : Prop :=
  ∀ st, out (m st) = o ∧ final (m st) = st.

(** One mapping entry of a role source: the DN of the group or role, the
    filter and the member attribute of the source, and the destination
    roles the entry grants. *)
Record Grant : Type := mkGrant {
  g_dn : string;
  g_filter : string;
  g_attribute : string;
  g_roles : list string
}.

(** What a search gives, without the log. *)
Definition searched (ldap_Search : SearchRequest → string + list Entry)
    (lc : LDAPCaller) (request : SearchRequest) : Outcome (list Entry) :=
  if lc_conn lc then
    match ldap_Search request with
    | inl _ => Exit
    | inr entries => Done entries
    end
  else Panic.

(** The user is a member (or an occupant) of the directory object of the
    grant. *)
Definition memberOf (userDn : string) (entries : list Entry) (attribute : string)
    : Prop :=
  ∃ entry, entry ∈ entries ∧ userDn ∈ GetAttributeValues entry attribute.

(** The loops of [mergeRolesByAttributes] over the entries found and the
    values of their member attribute. *)
Definition mergeInto (user : UyuniUser) (entries : list Entry)
    (attribute : string) (uyuniRoles : list string) : UyuniUser :=
  foldl (λ user entry,
           foldl (λ user roleDn,
                    if String.eqb roleDn (Dn user)
                    then AddRoles uyuniRoles user else user)
             user (GetAttributeValues entry attribute))
    user entries.

(** [mergeRolesByAttributes], without the log. *)
Definition applyGrant (ldap_Search : SearchRequest → string + list Entry)
    (lc : LDAPCaller) (user : UyuniUser) (g : Grant) : Outcome UyuniUser :=
  obind (searched ldap_Search lc (NewSearchRequest (g_dn g) (g_filter g)))
    (λ entries, Done (mergeInto user entries (g_attribute g) (g_roles g))).

(** The grants of the configuration, in the order in which the engine
    visits them. *)
Definition grantsOf (range : ∀ A : Type, list A → list A) (sync : LDAPSync)
    : list Grant :=
  searchConfig ← roleConfigs sync;
  (λ p, mkGrant p.1 (sc_filter searchConfig) (sc_attribute searchConfig) p.2)
    <$> range _ (map_to_list (sc_config searchConfig)).

(** Two users of the same DN that hold the same roles, each once. *)
Definition sameRoleSet (u u' : UyuniUser) : Prop :=
  Dn u = Dn u' ∧ (∀ r, r ∈ GetRoles u ↔ r ∈ GetRoles u')
  ∧ NoDup (GetRoles u) ∧ NoDup (GetRoles u').

(** Two runs end the same way, with the same role set if they return. *)
Definition agree (o o' : Outcome UyuniUser) : Prop :=
  match o, o' with
  | Done u, Done u' => sameRoleSet u u'
  | Exit, Exit | Panic, Panic => True
  | _, _ => False
  end.

(** ** The lockout guard *)

(** A reply to [user.listRoles] that lists "org_admin". *)
Definition holdsOrgAdmin (r : Reply) : bool :=
  match r with
  | Returned (VArray items) =>
      existsb (λ item, match item with
                       | VString role => String.eqb role "org_admin"
                       | _ => false
                       end) items
  | _ => false
  end.

(** No frozen uid holds "org_admin" on the destination: neither of the
    role lookups, made one after the other, lists it; a lookup that
    fails lists nothing. *)
Fixpoint noFrozenAdmin {St} (uc_Call : Call → St → Reply * St)
    (uids : list string) (st : St) : bool :=
  match uids with
  | [] => true
  | uid :: rest =>
      let r := uc_Call (user_listRoles uid) st in
      negb (holdsOrgAdmin r.1) && noFrozenAdmin uc_Call rest r.2
  end.

(** What the guard may do: write log lines and look up the roles of
    frozen uids. *)
Definition guardEvent (frozen : list string) (ev : Event) : Prop :=
  match ev with
  | EvLog _ _ => True
  | EvCall (user_listRoles uid) => uid ∈ frozen
  | _ => False
  end.

Module Lockout.
(** The frozen account has lost its administrative role. *)
Definition store : gmap string Account :=
  <["administrator" := mkAccount "root@x" "Ad" "Min" ["channel_admin"] true]>
    Example.store.
End Lockout.

(** ** What a computation emits and returns *)

(** Partial correctness: every event satisfies [P], and a result, if
    there is one, satisfies [Q]. *)
Definition ok {St A} (P : Event → Prop) (Q : A → Prop) (m : M St A) : Prop :=
  ∀ st, Forall P (events (m st)) ∧ ∀ a, out (m st) = Done a → Q a.

(** Total correctness: the computation returns, its result satisfies [Q],
    and the events selected by [π] are exactly [xs]. *)
Definition exact {St A X} (π : Event → list X) (xs : list X) (Q : A → Prop)
    (m : M St A) : Prop :=
  ∀ st, ∃ a, out (m st) = Done a ∧ Q a ∧ events (m st) ≫= π = xs.

(** ** Classification as a function of the three sets *)

(** The loop of [refreshUyuniUsersStatus] without its log: the staged
    users done, [sync.uyuniusers] and the new users queued. *)
Fixpoint classifyLoop (pending ldap uyuni newusers : list UyuniUser)
    : list UyuniUser * list UyuniUser * list UyuniUser :=
  match pending with
  | [] => (ldap, uyuni, newusers)
  | user :: rest =>
      let user' := classified user uyuni in
      classifyLoop rest (ldap ++ [user']) (overwrite user' uyuni)
        (if in_ user uyuni then newusers else newusers ++ [user'])
  end.

Definition classify (sync : LDAPSync) : LDAPSync :=
  let '(ldap, uyuni, newusers) :=
    classifyLoop (ldapusers sync) [] (uyuniusers sync) [] in
  set_uyuniusers (uyuni ++ newusers) (set_ldapusers ldap sync).

(** A line of the debug log. *)
Definition debugLog (ev : Event) : Prop := ∃ msg, ev = EvLog Debug msg.

(** A classified staged user has the data of the staged user. *)
Definition sameData (d d' : UyuniUser) : Prop :=
  Uid d' = Uid d ∧ Email d' = Email d ∧ Name d' = Name d
  ∧ Secondname d' = Secondname d ∧ roles d' = roles d.

(** ** The push step *)

(** The contract of [user.listRoles] that [ldapsync.go] relies on: a
    reply that is not an error is an array of strings. *)
Definition listRoles_typed {St} (uc_Call : Call → St → Reply * St) : Prop :=
  ∀ login st,
    match (uc_Call (user_listRoles login) st).1 with
    | Failed _ => True
    | Returned v => ∃ current, v = VArray (VString <$> current)
    end.

(** The calls of a trace that [sel] selects. *)
Definition select {X} (sel : Call → list X) (ev : Event) : list X :=
  match ev with
  | EvCall c => sel c
  | _ => []
  end.

(** The creation call of a new user. *)
Definition creationOf (u : UyuniUser) : Call :=
  user_create (Uid u) "" (Name u) (Secondname u) (Email u) 1.

(** The creation and the deletion calls of a trace. *)
Definition creations (evs : list Event) : list Call :=
  evs ≫= select (λ c, match c with
                      | user_create _ _ _ _ _ _ => [c]
                      | _ => []
                      end).

Definition deletions (evs : list Event) : list string :=
  evs ≫= select (λ c, match c with
                      | user_delete login => [login]
                      | _ => []
                      end).

Definition createdLogins (evs : list Event) : list string :=
  evs ≫= select (λ c, match c with
                      | user_create login _ _ _ _ _ => [login]
                      | _ => []
                      end).

Module Sets.
(** The three sets of the small deployment, before classification. *)
Definition before : LDAPSync :=
  let sync := set_lc (set_conn true NewLDAPCaller) (NewLDAPSync Example.cfg) in
  match out ((let* sync := refreshExistingUyuniUsers store_Call sync in
              let* sync := refreshStagedLDAPUsers Example.search (λ _ l, l) sync in
              refreshAllLDAPUsers Example.search sync) Example.store) with
  | Done sync => sync
  | _ => sync
  end.
End Sets.

(** All the calls of a trace. *)
Definition calls (evs : list Event) : list Call := evs ≫= select (λ c, [c]).

(** The roles of an account of the reference store after the removal of
    roles, and after the addition of roles. *)
Definition withRoles (a : Account) (rs : list string) : Account :=
  mkAccount (acc_email a) (acc_first_name a) (acc_last_name a) rs (acc_pam a).

Definition removeAll (rs removed : list string) : list string :=
  foldl (λ rs role, filter (λ r, r ≠ role) rs) rs removed.

Definition addAll (rs added : list string) : list string :=
  foldl (λ rs role, if bool_decide (role ∈ rs) then rs else rs ++ [role]) rs added.

Module Outdated.
(** carol, as staged and as listed by the destination. *)
Definition staged : UyuniUser :=
  {| Dn := "cn=carol,ou=Users,dc=x"; Uid := "carol"; Email := "carol@x";
     Name := "Carol"; Secondname := "Jones"; Err := None;
     roles := ["channel_admin"; "config_admin"]; new := false; outdated := false;
     accountchanged := false; roleschanged := false |}.

Definition listed : UyuniUser :=
  {| Dn := ""; Uid := "carol"; Email := "carol@x"; Name := "Carol";
     Secondname := "Jones"; Err := None; roles := ["channel_admin"];
     new := false; outdated := false; accountchanged := false;
     roleschanged := false |}.
End Outdated.

(** ** Frozen uids *)

(** The uid a call writes to, if it is a write. *)
Definition writeTarget (c : Call) : option string :=
  match c with
  | user_create login _ _ _ _ _ => Some login
  | user_setDetails login _ _ _ => Some login
  | user_usePamAuthentication login _ => Some login
  | user_delete login => Some login
  | user_addRole login _ => Some login
  | user_removeRole login _ => Some login
  | user_listUsers | user_getDetails _ | user_listRoles _ => None
  end.

(** The event is not a write to a frozen uid. *)
Definition sparesFrozen (frozen : list string) (ev : Event) : Prop :=
  match ev with
  | EvCall c => ∀ uid, writeTarget c = Some uid → uid ∉ frozen
  | _ => True
  end.

(** The uid of the user is not frozen. *)
Definition notFrozen (frozen : list string) (u : UyuniUser) : Prop :=
  Uid u ∉ frozen.

Module Remapped.
(** The base DN of all users has a remapped "uid". *)
Definition cfg : Directory :=
  {| User := ""; Password := ""; Host := "ldap.example.com"; Port := 389;
     Frozen := ["administrator"]; Groups := ∅; Roles := ∅;
     Attrmap := {[ "ou=Users,dc=x" := {[ "uid" := "login" ]} ]};
     Allusers := "ou=Users,dc=x" |}.
End Remapped.

(** ** The log, the searches and unchanged users *)

(** A line of the log of the level [Fatal]: the process ends with it. *)
Definition fatalLog (ev : Event) : Prop := ∃ msg, ev = EvLog Fatal msg.

(** A line of the log, of any level. *)
Definition logLine (ev : Event) : Prop := ∃ l msg, ev = EvLog l msg.

(** The searches of a trace. *)
Definition theSearch (ev : Event) : list SearchRequest :=
  match ev with EvSearch r => [r] | _ => [] end.

Definition searches (evs : list Event) : list SearchRequest := evs ≫= theSearch.

(** The destination user holds the data of the staged user: the same email,
    given and family name, and the same roles. *)
Definition unchanged (user u : UyuniUser) : Prop :=
  Email u = Email user ∧ Name u = Name user ∧ Secondname u = Secondname user
  ∧ ∀ r, r ∈ GetRoles user ↔ r ∈ GetRoles u.

Module Unreachable.
(** A directory server that cannot be reached. *)
Definition dial (proto addr : string) : option string :=
  Some ("dial " +:+ proto +:+ " " +:+ addr +:+ ": connection refused").
End Unreachable.

(** ** The lockout guard, when it passes *)

(** A reply to [user.listRoles] in which the guard finds no "org_admin":
    a failure, or a list of role names without it. *)
Definition listsNoOrgAdmin (r : Reply) : bool :=
  match r with
  | Failed _ => true
  | Returned (VArray items) =>
      forallb (λ item, match item with
                       | VString role => negb (String.eqb role "org_admin")
                       | _ => false
                       end) items
  | Returned _ => false
  end.

(** The role lookups of the uids, made one after the other: none of them
    finds "org_admin"; and the account store after them. *)
Fixpoint lookupsMiss {St} (uc_Call : Call → St → Reply * St)
    (uids : list string) (st : St) : bool :=
  match uids with
  | [] => true
  | uid :: rest =>
      let r := uc_Call (user_listRoles uid) st in
      listsNoOrgAdmin r.1 && lookupsMiss uc_Call rest r.2
  end.

Fixpoint afterLookups {St} (uc_Call : Call → St → Reply * St)
    (uids : list string) (st : St) : St :=
  match uids with
  | [] => st
  | uid :: rest => afterLookups uc_Call rest (uc_Call (user_listRoles uid) st).2
  end.

Module TwoFrozen.
(** Three frozen uids; the first of them is not an account of the
    destination, the second is its administrator. *)
Definition cfg : Directory :=
  {| User := ""; Password := ""; Host := "ldap.example.com"; Port := 389;
     Frozen := ["root"; "administrator"; "backup"]; Groups := ∅; Roles := ∅;
     Attrmap := ∅; Allusers := "ou=Users,dc=x" |}.
End TwoFrozen.

(** ** The listing of the destination *)

(** What the listing of the destination may do: write log lines, list the
    users, and read the details and the roles of logins that are not
    frozen. *)
Definition listingEvent (frozen : list string) (ev : Event) : Prop :=
  match ev with
  | EvLog _ _ => True
  | EvCall user_listUsers => True
  | EvCall (user_getDetails login) | EvCall (user_listRoles login) => login ∉ frozen
  | _ => False
  end.

(** The user that the listing builds from an account of the reference
    store. *)
Definition userOfAccount (login : string) (a : Account) : UyuniUser :=
  AddRoles (acc_roles a)
    (set_Secondname (acc_last_name a)
       (set_Name (acc_first_name a)
          (set_Email (acc_email a) (set_Uid login NewUyuniUser)))).

Module Down.
(** An account store that lists its users and then fails. *)
Definition uc_Call (c : Call) (st : unit) : Reply * unit :=
  match c with
  | user_listUsers => (Returned (VArray [VStruct [("login", VString "bob")]]), ())
  | _ => (Failed "503 Service Unavailable", ())
  end.
End Down.

(** ** The users that could not be created *)

(** The user after its creation: the user with the error of the call, if
    it failed. *)
Definition createdFrom (user user' : UyuniUser) : Prop :=
  ∃ err, user' = set_Err err user.

(** ** The two phases of a run *)

(** The computation does not end the run, and every event it emits
    satisfies [P]. *)
Definition steady {St A} (P : Event → Prop) (m : M St A) : Prop :=
  ∀ st, out (m st) ≠ Exit ∧ Forall P (events (m st)).

(** What the push may do: call the account store, and write log lines
    that are not fatal. *)
Definition pushEvent (ev : Event) : Prop :=
  match ev with
  | EvCall _ => True
  | EvLog l _ => l ≠ Fatal
  | EvSearch _ => False
  end.

(** What the start of the engine may do: search the directory, write log
    lines, and make calls that read the account store. *)
Definition readEvent (ev : Event) : Prop :=
  match ev with
  | EvCall c => writeTarget c = None
  | _ => True
  end.

(** ** Users that need no action *)

(** A destination user without a flag raised, as the listing of the
    destination builds it. *)
Definition settled (u : UyuniUser) : Prop :=
  IsNew u = false ∧ IsOutdated u = false.

Module InSync.
(** The staged users alice and carol as the destination lists them, and
    bob, who is in the directory but neither staged nor on the
    destination. *)
Definition alice : UyuniUser :=
  set_roles ["org_admin"; "channel_admin"]
    (set_Secondname "Liddell" (set_Name "Alice" (set_Email "alice@x"
       (set_Uid "alice" NewUyuniUser)))).

Definition carol : UyuniUser :=
  set_roles ["channel_admin"; "config_admin"]
    (set_Secondname "Jones" (set_Name "Carol" (set_Email "carol@x"
       (set_Uid "carol" NewUyuniUser)))).

Definition sync : LDAPSync :=
  {| lc := set_conn true NewLDAPCaller; cr := Example.cfg;
     ldapusers := [set_Dn "cn=alice,ou=Users,dc=x" alice;
                   set_roles ["config_admin"; "channel_admin"]
                     (set_Dn "cn=carol,ou=Users,dc=x" carol)];
     uyuniusers := [carol; alice];
     allldapusers := [alice; set_Uid "bob" NewUyuniUser; carol];
     roleConfigs := roleConfigs (NewLDAPSync Example.cfg) |}.
End InSync.

(** ** Users read from the directory *)

(** The lookup of a user by its DN: a search of the whole subtree of the
    DN, for any object. *)
Definition lookupOf (dn : string) : SearchRequest :=
  NewSearchRequest dn "(objectClass=*)".

(** The user has the DN, the uid and the email of the entry, under the
    attribute names of the configuration. *)
Definition fromEntry (sync : LDAPSync) (entry : Entry) (u : UyuniUser) : Prop :=
  Dn u = DN entry
  ∧ Uid u = GetAttributeValue entry (getAttributeNameFor sync "uid")
  ∧ Email u = GetAttributeValue entry (getAttributeNameFor sync "mail").

(** What the lookup of a DN gives in a directory that answers the search
    of a request [r] with the entries [dir r]: the user of the entry, if
    there is one entry, and else a user with nothing set. *)
Definition resolved (dir : SearchRequest → list Entry) (sync : LDAPSync)
    (dn : string) (u : UyuniUser) : Prop :=
  match dir (lookupOf dn) with
  | [entry] => fromEntry sync entry u
  | _ => u = NewUyuniUser
  end.

(** An entry found under a configured group or role DN lists the DN as a
    "member" or as a "roleOccupant". *)
Definition listedMember (dir : SearchRequest → list Entry) (cfg : Directory)
    (udn : string) : Prop :=
  ∃ gdn entry,
    (is_Some (Groups cfg !! gdn) ∨ is_Some (Roles cfg !! gdn))
    ∧ entry ∈ dir (lookupOf gdn)
    ∧ (udn ∈ GetAttributeValues entry "member"
       ∨ udn ∈ GetAttributeValues entry "roleOccupant").

(** The computation returns, and its result satisfies [Q]. *)
Definition returns {St A} (Q : A → Prop) (m : M St A) : Prop :=
  ∀ st, ∃ a, out (m st) = Done a ∧ Q a.

Module Answering.
(** The directory of the small deployment, as a directory that answers
    every search. *)
Definition dir (r : SearchRequest) : list Entry :=
  match Example.search r with
  | inr entries => entries
  | inl _ => []
  end.

Definition sync : LDAPSync :=
  set_lc (set_conn true NewLDAPCaller) (NewLDAPSync Example.cfg).
End Answering.

(** ** Searches that fail *)

(** The directory answered every search of the trace. *)
Definition answered (ldap_Search : SearchRequest → string + list Entry)
    (evs : list Event) : Prop :=
  ∀ r, EvSearch r ∈ evs → ∃ entries, ldap_Search r = inr entries.

(** A computation that does not go on after a search that failed: either
    every search was answered, or the run ended. *)
Definition failsafe {St A} (ldap_Search : SearchRequest → string + list Entry)
    (m : M St A) : Prop :=
  ∀ st, answered ldap_Search (events (m st)) ∨ out (m st) = Exit.

(** ** The order of the push *)








(** ** Staged users of the same uid *)

Module Twice.
(** carol is staged under two DNs with the same data; the destination
    lists her with another email. *)
Definition carol (dn : string) : UyuniUser :=
  set_Dn dn (set_roles ["channel_admin"]
    (set_Secondname "Jones" (set_Name "Carol" (set_Email "carol@x"
       (set_Uid "carol" NewUyuniUser))))).

Definition sync : LDAPSync :=
  {| lc := set_conn true NewLDAPCaller; cr := Example.cfg;
     ldapusers := [carol "cn=carol,ou=Users,dc=x"; carol "cn=carol,ou=Staff,dc=x"];
     uyuniusers := [set_Email "carol@old" (carol "")];
     allldapusers := [];
     roleConfigs := roleConfigs (NewLDAPSync Example.cfg) |}.
End Twice.

(** ** Accounts that the directory does not have *)

(** The event is not a write to a uid outside of [uids]. *)
Definition writesWithin (uids : list string) (ev : Event) : Prop :=
  match ev with
  | EvCall c => ∀ uid, writeTarget c = Some uid → uid ∈ uids
  | _ => True
  end.

Module Local.
(** The store of the small deployment with an account that the directory
    does not have. *)
Definition store : gmap string Account :=
  <["operator" := mkAccount "op@x" "Op" "Erator" ["org_admin"] false]> Example.store.
End Local.

(** ** Replies that the role push cannot read *)

(** The account store answers some [user.listRoles] call with a value
    that is not an array of strings: the type assertions of the role push
    fail on such a reply. *)
Definition illTypedRoles {St} (uc_Call : Call → St → Reply * St) : Prop :=
  ∃ login st,
    match (uc_Call (user_listRoles login) st).1 with
    | Failed _ => False
    | Returned v => ∀ current, v ≠ VArray (VString <$> current)
    end.

(** The computation panics only if [B] holds. *)
Definition panicsOnlyIf {St A} (B : Prop) (m : M St A) : Prop :=
  ∀ st, out (m st) = Panic → B.

Module Odd.
(** An account store that answers the listing of the roles of a user
    with a single role name, and not with an array. *)
Definition uc_Call (c : Call) (st : unit) : Reply * unit :=
  match c with
  | user_listRoles _ => (Returned (VString "org_admin"), ())
  | _ => (Returned (VInt 1), ())
  end.
End Odd.

(** ** Two entries of the directory with the same uid *)

Module Namesake.
(** carol has two entries in the directory, one next to the other users
    and one in a unit below them, with the same uid and the same data;
    both are members of the group of the system operators. The
    destination has her account, with one of the two roles of the
    group. *)
Definition carol2 : Entry :=
  Example.person "cn=carol,ou=Staff,ou=Users,dc=x" "carol" "Carol Jones" "carol@x".

Definition search (r : SearchRequest) : string + list Entry :=
  let dn := BaseDN r in
  if String.eqb dn "cn=sysop,ou=Groups,dc=x" then
    inr [ {| DN := dn;
             Attributes := [("member", [DN Example.carol; DN carol2])] |} ]
  else if String.eqb dn "ou=Users,dc=x" then inr [Example.carol; carol2]
  else if String.eqb dn (DN Example.carol) then inr [Example.carol]
  else if String.eqb dn (DN carol2) then inr [carol2]
  else inr [].

Definition store : gmap string Account :=
  {[ "administrator" := mkAccount "root@x" "Ad" "Min" ["org_admin"] true;
     "carol" := mkAccount "carol@x" "Carol" "Jones" ["channel_admin"] true ]}.

(** The three sets of this deployment, before classification. *)
Definition before : LDAPSync :=
  let sync := set_lc (set_conn true (lc (NewLDAPSync Example.cfg)))
                (NewLDAPSync Example.cfg) in
  match out ((let* sync := refreshExistingUyuniUsers store_Call sync in
              let* sync := refreshStagedLDAPUsers search (λ _ l, l) sync in
              refreshAllLDAPUsers search sync) store) with
  | Done sync => sync
  | _ => sync
  end.

Definition run := Run store_Call Example.dial search (λ _ l, l) Example.cfg store.
End Namesake.

(** * Properties *)

(** ** [strings.Split] *)

Lemma Split_cons s sep : ∃ piece pieces, Split s sep = piece :: pieces.
Proof.
  destruct s as [|c s]; simpl; [eauto|].
  destruct (Ascii.eqb c sep); [eauto|].
  destruct (Split s sep); eauto.
Qed.

(** The text before the first separator is the first piece. *)
Lemma Split_app g f sep :
  occurs sep g = false →
  Split (g +:+ String sep f) sep = g :: Split f sep.
Proof.
  induction g as [|c g IH]; simpl; intros Hg.
  - by rewrite Ascii.eqb_refl.
  - apply orb_false_iff in Hg as [Hc Hg]. rewrite Hc, (IH Hg). done.
Qed.

Lemma Split_none s sep : occurs sep s = false → Split s sep = [s].
Proof.
  induction s as [|c s IH]; simpl; intros Hs; [done|].
  apply orb_false_iff in Hs as [Hc Hs]. by rewrite Hc, (IH Hs).
Qed.

(** The pieces hold no separator, and joined by it they give the text. *)
Lemma Split_inv s sep piece pieces :
  Split s sep = piece :: pieces →
  occurs sep piece = false ∧
  match pieces with
  | [] => s = piece
  | _ :: _ => ∃ s', s = piece +:+ String sep s' ∧ Split s' sep = pieces
  end.
Proof.
  revert piece pieces. induction s as [|c s IH]; simpl; intros piece pieces H.
  - by inversion H.
  - destruct (Ascii.eqb c sep) eqn:Hc.
    + apply Ascii.eqb_eq in Hc as ->. inversion H; subst. split; [done|].
      destruct (Split_cons s sep) as (p & ps & Hp). rewrite Hp.
      exists s. by rewrite <- Hp.
    + destruct (Split s sep) as [|p ps] eqn:Hs; inversion H; subst.
      * simpl. rewrite Hc. destruct (Split_cons s sep) as (? & ? & ?). congruence.
      * destruct (IH _ _ eq_refl) as [Hp Hrest]. simpl. rewrite Hc, Hp.
        split; [done|]. destruct pieces as [|q qs]; [by subst|].
        destruct Hrest as (s' & -> & Hs'). eauto.
Qed.

(** Exactly two pieces: the text is two separator-free words around one
    separator, and conversely. *)
Lemma Split_two s sep g f :
  Split s sep = [g; f] ↔
  s = g +:+ String sep f ∧ occurs sep g = false ∧ occurs sep f = false.
Proof.
  split.
  - intros H. destruct (Split_inv _ _ _ _ H) as [Hg (s' & -> & Hs')].
    destruct (Split_inv _ _ _ _ Hs') as [Hf ->]. done.
  - intros (-> & Hg & Hf). by rewrite Split_app, Split_none.
Qed.

(** ** Running the effects *)

Section Running.
Context {St : Type}.
Implicit Types st : St.

Lemma bind_Done {A B} (m : M St A) (k : A → M St B) st a :
  out (m st) = Done a →
  bind m k st =
    mkResult (out (k a (final (m st)))) (final (k a (final (m st))))
      (events (m st) ++ events (k a (final (m st)))).
Proof. unfold bind. by intros ->. Qed.

Lemma bind_unfold {A B} (m : M St A) (k : A → M St B) st :
  bind m k st =
    match out (m st) with
    | Done a =>
        mkResult (out (k a (final (m st)))) (final (k a (final (m st))))
          (events (m st) ++ events (k a (final (m st))))
    | Exit => mkResult Exit (final (m st)) (events (m st))
    | Panic => mkResult Panic (final (m st)) (events (m st))
    end.
Proof. done. Qed.

Lemma fatal_run {A} msg st :
  fatal (A:=A) msg st = mkResult Exit st [EvLog Fatal msg].
Proof. done. Qed.

Lemma bind_step {A B} (m : M St A) (k : A → M St B) st a st' evs :
  m st = mkResult (Done a) st' evs →
  bind m k st =
    mkResult (out (k a st')) (final (k a st')) (evs ++ events (k a st')).
Proof. unfold bind. by intros ->. Qed.

Lemma bind_run {A B} (m : M St A) (k : A → M St B) st a st' evs b st'' evs' :
  m st = mkResult (Done a) st' evs →
  k a st' = mkResult b st'' evs' →
  bind m k st = mkResult b st'' (evs ++ evs').
Proof. intros Hm Hk. rewrite (bind_step _ _ _ _ _ _ Hm). by rewrite Hk. Qed.

Lemma Search_connected ldap_Search lc request st :
  lc_conn lc = true →
  Search ldap_Search lc request st =
    match ldap_Search request with
    | inl err => mkResult Exit st [EvSearch request; EvLog Fatal err]
    | inr entries => mkResult (Done entries) st [EvSearch request]
    end.
Proof. unfold Search. intros ->. unfold bind. simpl. by destruct (ldap_Search _). Qed.

Lemma Search_final ldap_Search lc request st :
  final (Search ldap_Search lc request st) = st.
Proof.
  unfold Search. destruct (lc_conn lc); [|done]. unfold bind. simpl.
  by destruct (ldap_Search _).
Qed.
End Running.

(** ** Attribute names *)

(** C7, as stated, fails: for a query rooted at a base DN that has an
    override in the AttributeMap, the engine does not use the override of
    that base DN; it reads the attribute "uid", not "login". *)
Lemma getAttributeNameFor_not_scoped_by_queried_dn :
  getAttributeNameFor Remap.sync "uid"
    ≠ resolve (Attrmap (cr Remap.sync)) "ou=Staff,dc=x" "uid"
  ∧ out (newUserFromDN Remap.search Remap.sync "ou=Staff,dc=x" ())
    = Done (set_Secondname "Doe" (set_Name "John" (set_Uid "u1"
              (set_Dn "ou=Staff,dc=x" NewUyuniUser)))).
Proof. split; [by vm_compute|by vm_compute]. Qed.

(** C7, amended: the resolution of an attribute name is scoped by the
    configured base DN of all users, whatever DN is queried: it looks that
    base DN up in the AttributeMap, returns the override of the canonical
    name if there is one, and the canonical name otherwise; it has no
    error path. *)
Theorem getAttributeNameFor_resolves_at_Allusers (sync : LDAPSync) (attr : string) :
  getAttributeNameFor sync attr
    = resolve (Attrmap (cr sync)) (Allusers (cr sync)) attr
  ∧ (∀ overrides nAttr,
       Attrmap (cr sync) !! Allusers (cr sync) = Some overrides →
       overrides !! attr = Some nAttr →
       getAttributeNameFor sync attr = nAttr)
  ∧ ((Attrmap (cr sync) !! Allusers (cr sync) = None
      ∨ ∃ overrides, Attrmap (cr sync) !! Allusers (cr sync) = Some overrides
                     ∧ overrides !! attr = None) →
     getAttributeNameFor sync attr = attr).
Proof.
  unfold getAttributeNameFor, resolve. split_and!.
  - destruct (Attrmap (cr sync) !! Allusers (cr sync)) as [m|]; [|done].
    by destruct (m !! attr).
  - by intros m n -> ->.
  - by intros [->|(m & -> & ->)].
Qed.

Lemma getAttributeNameFor_resolves_at_Allusers_witness :
  getAttributeNameFor (NewLDAPSync Remapped.cfg) "uid" = "login"
  ∧ getAttributeNameFor (NewLDAPSync Remapped.cfg) "mail" = "mail".
Proof.
  destruct (getAttributeNameFor_resolves_at_Allusers (NewLDAPSync Remapped.cfg) "uid")
    as (_ & Hoverride & _).
  destruct (getAttributeNameFor_resolves_at_Allusers (NewLDAPSync Remapped.cfg) "mail")
    as (_ & _ & Hplain).
  split.
  - apply (Hoverride {[ "uid" := "login" ]}); by vm_compute.
  - apply Hplain. right. exists {[ "uid" := "login" ]}. split; by vm_compute.
Defined.

(** ** Users built from a DN *)

Section FromDN.
Context {St : Type}.
Variable ldap_Search : SearchRequest → string + list Entry.
Variable range : ∀ A : Type, list A → list A.
Implicit Types st : St.

Lemma newUserFromDN_one sync dn entry st :
  lc_conn (lc sync) = true →
  ldap_Search (NewSearchRequest dn "(objectClass=*)") = inr [entry] →
  newUserFromDN ldap_Search sync dn st =
    mkResult
      (Done
         (let user :=
            set_Email (GetAttributeValue entry (getAttributeNameFor sync "mail"))
              (set_Uid (GetAttributeValue entry (getAttributeNameFor sync "uid"))
                 (set_Dn (DN entry) NewUyuniUser)) in
          match Split (GetAttributeValue entry "cn") " " with
          | [cn0; cn1] => set_Secondname cn1 (set_Name cn0 user)
          | _ =>
              set_Secondname (GetAttributeValue entry (getAttributeNameFor sync "sn"))
                (set_Name
                   (getAttributes entry [getAttributeNameFor sync "name";
                                         getAttributeNameFor sync "givenName"])
                   user)
          end))
      st [EvSearch (NewSearchRequest dn "(objectClass=*)")].
Proof.
  intros Hconn Hsearch. unfold newUserFromDN.
  rewrite (bind_Done _ _ _ [entry]); rewrite Search_connected, Hsearch; try done.
  simpl. destruct (Split _ _) as [|? [|? [|? ?]]]; done.
Qed.

Lemma newUserFromDN_not_one sync dn entries st :
  lc_conn (lc sync) = true →
  ldap_Search (NewSearchRequest dn "(objectClass=*)") = inr entries →
  length entries ≠ 1 →
  newUserFromDN ldap_Search sync dn st =
    mkResult (Done NewUyuniUser) st
      [EvSearch (NewSearchRequest dn "(objectClass=*)");
       EvLog Error
         (String.concat "" ["DN '"; dn; "' matches more or less than one distinct user"])].
Proof.
  intros Hconn Hsearch Hlen. unfold newUserFromDN.
  rewrite (bind_Done _ _ _ entries); rewrite Search_connected, Hsearch; try done.
  simpl. by destruct entries as [|? [|? ?]].
Qed.

(** C9: for an entry matched exactly once, the "cn" value is split on a
    single space; two tokens are the given and the family name;
    otherwise the given name is the first non-empty of the mapped
    "name" and the mapped "givenName", and the family name the mapped
    "sn". *)
Theorem newUserFromDN_names sync dn entry st :
  lc_conn (lc sync) = true →
  ldap_Search (NewSearchRequest dn "(objectClass=*)") = inr [entry] →
  ∃ user,
    out (newUserFromDN ldap_Search sync dn st) = Done user
    ∧ (∀ given family,
         Split (GetAttributeValue entry "cn") " " = [given; family] →
         Name user = given ∧ Secondname user = family)
    ∧ (∀ given family,
         GetAttributeValue entry "cn" = given +:+ " " +:+ family →
         occurs " " given = false → occurs " " family = false →
         Name user = given ∧ Secondname user = family)
    ∧ (length (Split (GetAttributeValue entry "cn") " ") ≠ 2 →
       Name user =
         (let name := GetAttributeValue entry (getAttributeNameFor sync "name") in
          if decide (name = "")
          then GetAttributeValue entry (getAttributeNameFor sync "givenName")
          else name)
       ∧ Secondname user
         = GetAttributeValue entry (getAttributeNameFor sync "sn")).
Proof.
  intros Hconn Hsearch. rewrite (newUserFromDN_one _ _ entry) by done.
  eexists; split; [done|]. simpl. split_and!.
  - by intros g f ->.
  - intros g f Hcn Hg Hf.
    by rewrite (proj2 (Split_two (GetAttributeValue entry "cn") " " g f)).
  - intros Hlen. destruct (Split _ _) as [|? [|? [|? ?]]]; try done; simpl.
    all: split; [|done].
    all: destruct (String.eqb_spec
                     (GetAttributeValue entry (getAttributeNameFor sync "name")) "")
           as [->|Hne]; [rewrite decide_True by done|rewrite decide_False by done];
           [|done].
    all: by destruct (String.eqb_spec
                        (GetAttributeValue entry (getAttributeNameFor sync "givenName")) "")
           as [->|?].
Qed.

(** C8, amended: when the whole-subtree search of [newUserFromDN]
    returns no entry or more than one, the function logs an error and
    returns a user whose fields are all empty, the distinguished name
    too; the run goes on, and the staged set skips the user, its uid
    being empty. *)
Theorem newUserFromDN_placeholder sync dn entries users st :
  lc_conn (lc sync) = true →
  ldap_Search (NewSearchRequest dn "(objectClass=*)") = inr entries →
  length entries ≠ 1 →
  (∃ msg,
     newUserFromDN ldap_Search sync dn st =
       mkResult (Done NewUyuniUser) st
         [EvSearch (NewSearchRequest dn "(objectClass=*)"); EvLog Error msg])
  ∧ Dn NewUyuniUser = "" ∧ Uid NewUyuniUser = ""
  ∧ out (stagedUserOf ldap_Search range sync users dn st) = Done users.
Proof.
  intros Hconn Hsearch Hlen.
  pose proof (newUserFromDN_not_one sync dn entries st Hconn Hsearch Hlen) as Hrun.
  split; [eauto|]. split_and!; [done..|].
  unfold stagedUserOf.
  rewrite (bind_Done _ _ _ NewUyuniUser) by by rewrite Hrun.
  done.
Qed.
End FromDN.

(** C8, as stated, fails: a DN that matches two entries, as one that
    matches none, yields a user whose distinguished name is empty as
    well. *)
Lemma newUserFromDN_placeholder_has_no_dn :
  (∃ user,
     out (newUserFromDN Remap.search Remap.sync "cn=team,ou=Users,dc=x" ())
       = Done user
     ∧ ¬ only_distinguishedName_set "cn=team,ou=Users,dc=x" user)
  ∧ (∃ user,
       out (newUserFromDN Remap.search Remap.sync "cn=ghost,ou=Users,dc=x" ())
         = Done user
       ∧ ¬ only_distinguishedName_set "cn=ghost,ou=Users,dc=x" user).
Proof.
  split; (eexists; split; [by vm_compute|]); intros [Hdn _]; by vm_compute in Hdn.
Qed.

Lemma newUserFromDN_names_witness :
  ∃ user,
    out (newUserFromDN Example.search
           (set_lc (set_conn true NewLDAPCaller) (NewLDAPSync Example.cfg))
           "cn=alice,ou=Users,dc=x" ()) = Done user
    ∧ Name user = "Alice" ∧ Secondname user = "Liddell".
Proof.
  destruct (newUserFromDN_names Example.search
              (set_lc (set_conn true NewLDAPCaller) (NewLDAPSync Example.cfg))
              "cn=alice,ou=Users,dc=x" Example.alice () eq_refl eq_refl)
    as (user & Hout & _ & Hwords & _).
  exists user. split; [done|]. by apply Hwords.
Defined.

Lemma newUserFromDN_placeholder_witness :
  out (stagedUserOf Remap.search (λ _ l, l) Remap.sync
         [] "cn=team,ou=Users,dc=x" ()) = Done [].
Proof.
  refine (proj2 (proj2 (proj2
    (newUserFromDN_placeholder Remap.search (λ _ l, l) Remap.sync
       "cn=team,ou=Users,dc=x" Remap.team [] () eq_refl eq_refl _)))).
  simpl. lia.
Defined.

(** ** Comparison and classification *)

Lemma in_firstOf user users : in_ user users = true ↔ is_Some (firstOf (Uid user) users).
Proof.
  induction users as [|u rest IH]; simpl.
  - split; [done|]. by intros [? ?].
  - destruct (String.eqb (Uid u) (Uid user)); [|done]. split; eauto.
Qed.

Lemma in_elem user users :
  in_ user users = true ↔ Uid user ∈ Uid <$> users.
Proof.
  induction users as [|u rest IH]; simpl.
  - split; [done|]. by intros ?%elem_of_nil.
  - rewrite elem_of_cons, <- IH.
    destruct (String.eqb_spec (Uid u) (Uid user)) as [Heq|Hne].
    + split; [by left|done].
    + split; [by right|]. by intros [?|?].
Qed.

Lemma in_false_elem user users :
  in_ user users = false ↔ Uid user ∉ Uid <$> users.
Proof. rewrite <- in_elem. by destruct (in_ user users). Qed.

Lemma firstOf_Some uid users u :
  firstOf uid users = Some u → u ∈ users ∧ Uid u = uid.
Proof.
  induction users as [|x rest IH]; simpl; [done|].
  destruct (String.eqb_spec (Uid x) uid) as [Heq|Hne].
  - intros [= ->]. split; [left|done].
  - intros [? ?]%IH. split; [by right|done].
Qed.

Section Classification.
Context {St : Type}.
Implicit Types st : St.

Lemma compareWith_run user u st :
  ∃ evs,
    compareWith user u st = mkResult (Done (flagged user u, same user u)) st evs
    ∧ Forall (λ ev, ∃ msg, ev = EvLog Debug msg) evs.
Proof.
  unfold compareWith, flagged, same, sameAccount.
  destruct (String.eqb (Email u) (Email user)) eqn:He;
    [destruct (String.eqb (Name u) (Name user)) eqn:Hn;
     [destruct (String.eqb (Secondname u) (Secondname user)) eqn:Hs;
      [destruct (CompareRoles user u) eqn:Hr|]|]|];
    unfold bind; cbn -[String.concat]; rewrite ?He, ?Hn, ?Hs, ?Hr;
    cbn -[String.concat]; eexists; (split; [reflexivity|]); repeat constructor; eauto.
Qed.

Lemma sameAsIn_run user users st :
  ∃ evs,
    sameAsIn user users st =
      mkResult
        (Done match firstOf (Uid user) users with
              | Some u => (flagged user u, (same user u, None))
              | None =>
                  (user, (false, Some ("User UID " +:+ Uid user +:+ " was not found")))
              end)
        st evs
    ∧ Forall (λ ev, ∃ msg, ev = EvLog Debug msg) evs.
Proof.
  induction users as [|u rest IH]; simpl.
  - eexists. split; [reflexivity|]. repeat constructor; eauto.
  - destruct (String.eqb (Uid u) (Uid user)); [|done].
    destruct (compareWith_run user u st) as (evs & Hrun & Hevs).
    exists (evs ++ []). rewrite (bind_Done _ _ _ _ ltac:(by rewrite Hrun)).
    rewrite Hrun. simpl. split; [done|]. by rewrite app_nil_r.
Qed.

Lemma refreshStatusOf_run user uyuni newusers st :
  ∃ evs,
    refreshStatusOf user uyuni newusers st =
      mkResult
        (Done (classified user uyuni, overwrite (classified user uyuni) uyuni,
               if in_ user uyuni then newusers
               else newusers ++ [classified user uyuni]))
        st evs
    ∧ Forall (λ ev, ∃ msg, ev = EvLog Debug msg) evs.
Proof.
  unfold refreshStatusOf, classified.
  pose proof (in_firstOf user uyuni) as Hin.
  destruct (in_ user uyuni) eqn:Hu; cbn [negb IsNew new set_new].
  - destruct (proj1 Hin eq_refl) as [u Hfirst].
    destruct (sameAsIn_run (set_new false user) uyuni st) as (evs & Hrun & Hevs).
    cbn [Uid set_new] in Hrun. rewrite Hfirst in Hrun |- *.
    eexists. split.
    + eapply bind_run; [eapply bind_run; [exact Hrun|reflexivity]|reflexivity].
    + by rewrite !app_nil_r.
  - destruct (firstOf (Uid user) uyuni) eqn:Hfirst.
    + destruct Hin as [_ Hin]. by specialize (Hin ltac:(eauto)).
    + exists []. split; [done|constructor].
Qed.

(** C10: when classification compares a staged user found in the
    destination-derived set, the comparison does not take its
    user-not-found branch: it returns a verdict and no error, and the
    outdated flag of the user is assigned from that verdict. *)
Theorem sameAsIn_finds_non_new_user user uyuni newusers st :
  in_ user uyuni = true →
  ∃ user' isSame evs,
    sameAsIn (set_new (negb (in_ user uyuni)) user) uyuni st
      = mkResult (Done (user', (isSame, None))) st evs
    ∧ ∃ uyuni' evs',
        refreshStatusOf user uyuni newusers st
          = mkResult (Done (set_outdated (negb isSame) user', uyuni', newusers))
              st evs'
        ∧ outdated (set_outdated (negb isSame) user') = negb isSame.
Proof.
  intros Hin. destruct (proj1 (in_firstOf user uyuni) Hin) as [u Hfirst].
  destruct (sameAsIn_run (set_new (negb (in_ user uyuni)) user) uyuni st)
    as (evs & Hrun & _).
  destruct (refreshStatusOf_run user uyuni newusers st) as (evs' & Hrun' & _).
  rewrite Hin in *. simpl in Hrun. rewrite Hfirst in Hrun.
  unfold classified in Hrun'. rewrite Hfirst in Hrun'.
  do 3 eexists. split; [exact Hrun|]. do 2 eexists. split; [exact Hrun'|done].
Qed.
End Classification.

Lemma sameAsIn_finds_non_new_user_witness :
  ∃ user' isSame evs,
    sameAsIn (set_new false (set_Uid "carol" NewUyuniUser))
      [set_Uid "bob" NewUyuniUser; set_Email "carol@x" (set_Uid "carol" NewUyuniUser)] ()
    = mkResult (Done (user', (isSame, None))) () evs.
Proof.
  destruct (sameAsIn_finds_non_new_user (set_Uid "carol" NewUyuniUser)
              [set_Uid "bob" NewUyuniUser;
               set_Email "carol@x" (set_Uid "carol" NewUyuniUser)] [] () eq_refl)
    as (user' & isSame & evs & Hrun & _).
  by exists user', isSame, evs.
Defined.

(** ** Role resolution *)

Lemma AddRoles_fields rs u :
  Dn (AddRoles rs u) = Dn u ∧ Uid (AddRoles rs u) = Uid u
  ∧ Email (AddRoles rs u) = Email u ∧ Name (AddRoles rs u) = Name u
  ∧ Secondname (AddRoles rs u) = Secondname u ∧ Err (AddRoles rs u) = Err u
  ∧ new (AddRoles rs u) = new u ∧ outdated (AddRoles rs u) = outdated u.
Proof.
  revert u. induction rs as [|r rs IH]; intros u; simpl; [done|].
  destruct (IH (if bool_decide (r ∈ roles u) then u else set_roles (roles u ++ [r]) u))
    as (-> & -> & -> & -> & -> & -> & -> & ->).
  by case_bool_decide.
Qed.

Lemma AddRoles_elem rs u r :
  r ∈ GetRoles (AddRoles rs u) ↔ r ∈ GetRoles u ∨ r ∈ rs.
Proof.
  unfold GetRoles. revert u. induction rs as [|x rs IH]; intros u; simpl.
  - rewrite elem_of_nil. naive_solver.
  - rewrite IH, elem_of_cons. case_bool_decide as Hx; simpl.
    + naive_solver.
    + rewrite elem_of_app, list_elem_of_singleton. naive_solver.
Qed.

Lemma AddRoles_NoDup rs u : NoDup (GetRoles u) → NoDup (GetRoles (AddRoles rs u)).
Proof.
  unfold GetRoles. revert u. induction rs as [|x rs IH]; intros u Hu; simpl; [done|].
  apply IH. case_bool_decide as Hx; simpl; [done|].
  apply NoDup_app. split_and!; [done| |apply NoDup_singleton].
  intros y Hy ->%list_elem_of_singleton. done.
Qed.

Lemma pure_as_ret {St A} (a : A) : pure_as (St:=St) (ret a) (Done a).
Proof. done. Qed.

Lemma pure_as_bind {St A B} (m : M St A) (k : A → M St B) o o' :
  pure_as m o → (∀ a, pure_as (k a) (o' a)) → pure_as (bind m k) (obind o o').
Proof.
  intros Hm Hk st. destruct (Hm st) as [Ho Hf]. unfold bind. rewrite Ho.
  destruct o as [a| |]; simpl; [|done..]. rewrite Hf. apply Hk.
Qed.

Lemma ofoldM_app {A B} (f : B → A → Outcome B) l1 l2 b :
  ofoldM f (l1 ++ l2) b = obind (ofoldM f l1 b) (ofoldM f l2).
Proof.
  revert b. induction l1 as [|x l1 IH]; intros b; simpl; [done|].
  destruct (f b x); simpl; [apply IH|done..].
Qed.

Section RoleResolution.
Variable ldap_Search : SearchRequest → string + list Entry.

Lemma Search_pure {St} lc request :
  pure_as (St:=St) (Search ldap_Search lc request)
    (searched ldap_Search lc request).
Proof.
  intros st. split; [|apply Search_final].
  unfold Search, searched. destruct (lc_conn lc); [|done].
  unfold bind. simpl. by destruct (ldap_Search request).
Qed.

Lemma mergeRolesByAttributes_pure {St} sync dn user filter attribute uyuniRoles :
  pure_as (St:=St)
    (mergeRolesByAttributes ldap_Search sync dn user filter attribute uyuniRoles)
    (applyGrant ldap_Search (lc sync) user
       (mkGrant dn filter attribute uyuniRoles)).
Proof.
  unfold mergeRolesByAttributes, applyGrant.
  apply pure_as_bind; [apply Search_pure|]. intros entries. apply pure_as_ret.
Qed.

Lemma updateLDAPUserRoles_pure {St} range sync user :
  pure_as (St:=St) (updateLDAPUserRoles ldap_Search range sync user)
    (ofoldM (applyGrant ldap_Search (lc sync)) (grantsOf range sync) user).
Proof.
  unfold updateLDAPUserRoles, grantsOf. generalize (roleConfigs sync) as scs.
  intros scs. revert user. induction scs as [|sc scs IH]; intros user; [done|].
  cbn [foldM mbind list_bind]. rewrite ofoldM_app.
  apply pure_as_bind; [|apply IH].
  generalize (range _ (map_to_list (sc_config sc))) as ps. clear.
  intros ps. revert user. induction ps as [|[dn rs] ps IH]; intros user; [done|].
  cbn [foldM fmap list_fmap ofoldM]. apply pure_as_bind; [|apply IH].
  apply mergeRolesByAttributes_pure.
Qed.

(** What one grant does to the user: the distinguished name stays, the
    roles of the grant join the role set if the user is a member, and
    no role is held twice. *)
Lemma mergeInto_spec user entries attribute uyuniRoles :
  let user' := mergeInto user entries attribute uyuniRoles in
  Dn user' = Dn user
  ∧ (∀ r, r ∈ GetRoles user' ↔
          r ∈ GetRoles user
          ∨ (memberOf (Dn user) entries attribute ∧ r ∈ uyuniRoles))
  ∧ (NoDup (GetRoles user) → NoDup (GetRoles user')).
Proof.
  unfold mergeInto, memberOf. revert user.
  induction entries as [|entry entries IH]; intros user; simpl.
  - split_and!; [done| |done]. intros r. split; [by left|].
    intros [?|[(? & []%elem_of_nil & _) _]]. done.
  - set (inner := foldl _ user (GetAttributeValues entry attribute)).
    assert (Dn inner = Dn user
            ∧ (∀ r, r ∈ GetRoles inner ↔
                    r ∈ GetRoles user
                    ∨ (Dn user ∈ GetAttributeValues entry attribute ∧ r ∈ uyuniRoles))
            ∧ (NoDup (GetRoles user) → NoDup (GetRoles inner)))
      as (Hdn & Hroles & Hnodup).
    { subst inner. generalize (GetAttributeValues entry attribute) as vs.
      intros vs. revert user. induction vs as [|v vs IHv]; intros user; simpl.
      - split_and!; [done| |done]. intros r. rewrite elem_of_nil. naive_solver.
      - destruct (String.eqb_spec v (Dn user)) as [->|Hne].
        + destruct (IHv (AddRoles uyuniRoles user)) as (Hd & Hr & Hn).
          destruct (AddRoles_fields uyuniRoles user) as (Hdn & _).
          rewrite Hdn in Hd, Hr. split_and!; [done| |].
          * intros r. rewrite Hr, AddRoles_elem, elem_of_cons. naive_solver.
          * intros ?. by apply Hn, AddRoles_NoDup.
        + destruct (IHv user) as (Hd & Hr & Hn). split_and!; [done| |done].
          intros r. rewrite Hr, elem_of_cons. naive_solver. }
    destruct (IH inner) as (Hd & Hr & Hn). rewrite Hdn in Hd, Hr.
    split_and!; [done| |by intros ?; apply Hn, Hnodup].
    intros r. rewrite Hr, Hroles. split.
    + intros [[?|[? ?]]|[(e & ? & ?) ?]]; [by left|right..].
      * split; [|done]. exists entry. split; [left|done].
      * split; [|done]. exists e. split; [by right|done].
    + intros [?|[(e & [->|?]%elem_of_cons & ?) ?]]; [by left; left| |].
      * left. right. done.
      * right. split; [|done]. by exists e.
Qed.
End RoleResolution.

Section RoleOrder.
Variable ldap_Search : SearchRequest → string + list Entry.
Variable lc : LDAPCaller.

Lemma sameRoleSet_trans u1 u2 u3 :
  sameRoleSet u1 u2 → sameRoleSet u2 u3 → sameRoleSet u1 u3.
Proof.
  intros (Hd & Hr & Hn & _) (Hd' & Hr' & _ & Hn').
  split_and!; [congruence| |done..]. intros r. by rewrite Hr.
Qed.

Lemma agree_trans o1 o2 o3 : agree o1 o2 → agree o2 o3 → agree o1 o3.
Proof.
  destruct o1, o2, o3; simpl; try done. apply sameRoleSet_trans.
Qed.

Lemma mergeInto_sameRoleSet u u' entries attribute rs :
  sameRoleSet u u' →
  sameRoleSet (mergeInto u entries attribute rs) (mergeInto u' entries attribute rs).
Proof.
  intros (Hd & Hr & Hn & Hn').
  destruct (mergeInto_spec u entries attribute rs) as (Hd1 & Hr1 & Hn1).
  destruct (mergeInto_spec u' entries attribute rs) as (Hd2 & Hr2 & Hn2).
  split_and!; [congruence| |auto..].
  intros r. rewrite Hr1, Hr2, Hr, Hd. done.
Qed.

Lemma applyGrant_agree g u u' :
  sameRoleSet u u' →
  agree (applyGrant ldap_Search lc u g) (applyGrant ldap_Search lc u' g).
Proof.
  intros H. unfold applyGrant. destruct (searched _ _ _); simpl; [|done..].
  by apply mergeInto_sameRoleSet.
Qed.

Lemma ofoldM_agree gs u u' :
  sameRoleSet u u' →
  agree (ofoldM (applyGrant ldap_Search lc) gs u)
    (ofoldM (applyGrant ldap_Search lc) gs u').
Proof.
  revert u u'. induction gs as [|g gs IH]; intros u u' H; simpl; [done|].
  pose proof (applyGrant_agree g u u' H) as Hg.
  destruct (applyGrant _ _ u g), (applyGrant _ _ u' g); simpl in *; try done.
  by apply IH.
Qed.

Lemma mergeInto_swap u u' es1 a1 rs1 es2 a2 rs2 :
  sameRoleSet u u' →
  sameRoleSet (mergeInto (mergeInto u es1 a1 rs1) es2 a2 rs2)
    (mergeInto (mergeInto u' es2 a2 rs2) es1 a1 rs1).
Proof.
  intros (Hd & Hr & Hn & Hn').
  destruct (mergeInto_spec u es1 a1 rs1) as (Hd1 & Hr1 & Hn1).
  destruct (mergeInto_spec (mergeInto u es1 a1 rs1) es2 a2 rs2) as (Hd2 & Hr2 & Hn2).
  destruct (mergeInto_spec u' es2 a2 rs2) as (Hd3 & Hr3 & Hn3).
  destruct (mergeInto_spec (mergeInto u' es2 a2 rs2) es1 a1 rs1) as (Hd4 & Hr4 & Hn4).
  split_and!; [congruence| |auto..].
  intros r. rewrite Hr2, Hr1, Hr4, Hr3, Hd1, Hd3, Hr, Hd. tauto.
Qed.

Lemma applyGrant_swap g1 g2 u u' :
  sameRoleSet u u' →
  agree (obind (applyGrant ldap_Search lc u g1) (λ v, applyGrant ldap_Search lc v g2))
    (obind (applyGrant ldap_Search lc u' g2) (λ v, applyGrant ldap_Search lc v g1)).
Proof.
  intros H. unfold applyGrant, searched. destruct (lc_conn lc); [|done].
  destruct (ldap_Search (NewSearchRequest (g_dn g1) (g_filter g1))) as [?|es1],
    (ldap_Search (NewSearchRequest (g_dn g2) (g_filter g2))) as [?|es2];
    simpl; try done.
  by apply mergeInto_swap.
Qed.

(** The order in which the grants are visited does not change the
    outcome, nor the role set. *)
Lemma ofoldM_Permutation gs gs' :
  gs ≡ₚ gs' →
  ∀ u u', sameRoleSet u u' →
    agree (ofoldM (applyGrant ldap_Search lc) gs u)
      (ofoldM (applyGrant ldap_Search lc) gs' u').
Proof.
  induction 1 as [|g gs gs' _ IH|g1 g2 gs|gs gs' gs'' _ IH1 _ IH2];
    intros u u' H.
  - done.
  - simpl. pose proof (applyGrant_agree g u u' H) as Hg.
    destruct (applyGrant _ _ u g), (applyGrant _ _ u' g); simpl in *; try done.
    by apply IH.
  - pose proof (applyGrant_swap g2 g1 u u' H) as Hsw. simpl.
    destruct (applyGrant _ _ u g2) as [v| |], (applyGrant _ _ u' g1) as [v'| |];
      simpl in *; try done.
    + destruct (applyGrant _ _ v g1), (applyGrant _ _ v' g2); simpl in *; try done.
      by apply ofoldM_agree.
    + by destruct (applyGrant _ _ v g1).
    + by destruct (applyGrant _ _ v g1).
    + by destruct (applyGrant _ _ v' g2).
    + by destruct (applyGrant _ _ v' g2).
  - apply agree_trans with (ofoldM (applyGrant ldap_Search lc) gs' u).
    + apply IH1. destruct H as (? & ? & ? & ?). by split_and!.
    + by apply IH2.
Qed.

(** The roles after all the grants: those held before, and those of
    every grant whose directory object has the user as a member. *)
Lemma ofoldM_roles gs u u' :
  ofoldM (applyGrant ldap_Search lc) gs u = Done u' →
  Dn u' = Dn u
  ∧ ∀ r, r ∈ GetRoles u' ↔
         r ∈ GetRoles u
         ∨ ∃ g entries,
             g ∈ gs
             ∧ ldap_Search (NewSearchRequest (g_dn g) (g_filter g)) = inr entries
             ∧ memberOf (Dn u) entries (g_attribute g) ∧ r ∈ g_roles g.
Proof.
  revert u. induction gs as [|g gs IH]; intros u; simpl.
  - intros [= ->]. split; [done|]. intros r. split; [by left|].
    intros [?|(? & ? & []%elem_of_nil & _)]. done.
  - unfold applyGrant at 1, searched. destruct (lc_conn lc); [|done].
    destruct (ldap_Search (NewSearchRequest (g_dn g) (g_filter g)))
      as [?|es] eqn:Hs; simpl; [done|].
    intros [Hd Hr]%IH.
    destruct (mergeInto_spec u es (g_attribute g) (g_roles g)) as (Hd1 & Hr1 & _).
    rewrite Hd1 in Hd, Hr. split; [done|]. intros r. rewrite Hr, Hr1. split.
    + intros [[?|[? ?]]|(g' & es' & ? & ? & ? & ?)]; [by left|right..].
      * exists g, es. split_and!; [left|done..].
      * exists g', es'. split_and!; [by right|done..].
    + intros [?|(g' & es' & [->|?]%elem_of_cons & Hs' & ? & ?)]; [by left; left| |].
      * left. right. rewrite Hs in Hs'. by injection Hs' as <-.
      * right. exists g', es'. done.
Qed.
End RoleOrder.

Lemma grantsOf_Permutation range1 range2 sync1 sync2 :
  (∀ A (l : list A), range1 A l ≡ₚ l) →
  (∀ A (l : list A), range2 A l ≡ₚ l) →
  roleConfigs sync1 ≡ₚ roleConfigs sync2 →
  grantsOf range1 sync1 ≡ₚ grantsOf range2 sync2.
Proof.
  intros H1 H2 Hcfg. unfold grantsOf. rewrite <- Hcfg. clear Hcfg.
  induction (roleConfigs sync1) as [|sc scs IH]; [done|].
  cbn [mbind list_bind]. apply Permutation_app; [|exact IH].
  by rewrite H1, H2.
Qed.

Lemma elem_of_grantsOf range sync g :
  (∀ A (l : list A), range A l ≡ₚ l) →
  g ∈ grantsOf range sync ↔
  ∃ sc, sc ∈ roleConfigs sync
        ∧ sc_config sc !! g_dn g = Some (g_roles g)
        ∧ g_filter g = sc_filter sc ∧ g_attribute g = sc_attribute sc.
Proof.
  intros Hrange. unfold grantsOf. rewrite list_elem_of_bind. split.
  - intros (sc & (p & -> & Hp)%list_elem_of_fmap & Hsc).
    rewrite Hrange in Hp. destruct p as [dn rs].
    apply elem_of_map_to_list in Hp. exists sc. done.
  - intros (sc & Hsc & Hlook & Hf & Ha). exists sc. split; [|done].
    apply list_elem_of_fmap. exists (g_dn g, g_roles g). split.
    + destruct g; simpl in *. by subst.
    + rewrite Hrange. by apply elem_of_map_to_list.
Qed.

(** C6: role resolution is a commutative and idempotent union over the
    mapping entries of the role sources: whatever the order in which the
    sources and their entries are visited, the run ends the same way and
    the user holds the same roles, each exactly once, namely those held
    before and those of every entry whose directory object has the user
    as a member. *)
Theorem updateLDAPUserRoles_commutative_idempotent {St}
    ldap_Search range1 range2 sync1 sync2 user (st1 st2 : St) :
  (∀ A (l : list A), range1 A l ≡ₚ l) →
  (∀ A (l : list A), range2 A l ≡ₚ l) →
  lc sync1 = lc sync2 →
  roleConfigs sync1 ≡ₚ roleConfigs sync2 →
  NoDup (GetRoles user) →
  match out (updateLDAPUserRoles ldap_Search range1 sync1 user st1),
        out (updateLDAPUserRoles ldap_Search range2 sync2 user st2) with
  | Done u1, Done u2 =>
      GetRoles u1 ≡ₚ GetRoles u2
      ∧ NoDup (GetRoles u1) ∧ NoDup (GetRoles u2)
      ∧ ∀ r, r ∈ GetRoles u1 ↔
             r ∈ GetRoles user
             ∨ ∃ sc dn rs entries,
                 sc ∈ roleConfigs sync1 ∧ sc_config sc !! dn = Some rs
                 ∧ ldap_Search (NewSearchRequest dn (sc_filter sc)) = inr entries
                 ∧ memberOf (Dn user) entries (sc_attribute sc) ∧ r ∈ rs
  | Exit, Exit | Panic, Panic => True
  | _, _ => False
  end.
Proof.
  intros H1 H2 Hlc Hcfg Hnodup.
  destruct (updateLDAPUserRoles_pure ldap_Search range1 sync1 user st1) as [-> _].
  destruct (updateLDAPUserRoles_pure ldap_Search range2 sync2 user st2) as [-> _].
  rewrite <- Hlc.
  pose proof (ofoldM_Permutation ldap_Search (lc sync1) _ _
                (grantsOf_Permutation _ _ _ _ H1 H2 Hcfg) user user) as Hagree.
  specialize (Hagree ltac:(by split_and!)).
  destruct (ofoldM _ (grantsOf range1 sync1) user) as [u1| |] eqn:Hu1,
    (ofoldM _ (grantsOf range2 sync2) user) as [u2| |]; simpl in Hagree; try done.
  destruct Hagree as (_ & Hr & Hn1 & Hn2).
  split_and!; [by apply NoDup_Permutation|done..|].
  destruct (ofoldM_roles _ _ _ _ _ Hu1) as [_ Hroles].
  intros r. rewrite Hroles. split.
  - intros [?|(g & es & (sc & ? & ? & Hf & Ha)%elem_of_grantsOf & Hs & ? & ?)];
      [by left| |done].
    right. exists sc, (g_dn g), (g_roles g), es. rewrite <- Hf, <- Ha. done.
  - intros [?|(sc & dn & rs & es & ? & ? & ? & ? & ?)]; [by left|].
    right. exists (mkGrant dn (sc_filter sc) (sc_attribute sc) rs), es.
    split_and!; try done. apply elem_of_grantsOf; [done|]. by exists sc.
Qed.

Lemma updateLDAPUserRoles_commutative_idempotent_witness :
  let connected := set_lc (set_conn true NewLDAPCaller) (NewLDAPSync Example.cfg) in
  let alice := set_Dn "cn=alice,ou=Users,dc=x" NewUyuniUser in
  match out (updateLDAPUserRoles Example.search (λ _ l, l) connected alice ()),
        out (updateLDAPUserRoles Example.search (λ _ l, reverse l)
               (mkLDAPSync (lc connected) (cr connected) [] [] []
                  (reverse (roleConfigs connected)))
               alice ()) with
  | Done u1, Done u2 =>
      GetRoles u1 ≡ₚ GetRoles u2 ∧ NoDup (GetRoles u1) ∧ NoDup (GetRoles u2)
  | _, _ => False
  end.
Proof.
  intros connected alice.
  pose proof (updateLDAPUserRoles_commutative_idempotent (St:=unit)
    Example.search (λ _ l, l) (λ _ l, reverse l) connected
    (mkLDAPSync (lc connected) (cr connected) [] [] []
       (reverse (roleConfigs connected)))
    alice () ()
    (λ _ _, reflexivity _) (λ _ l, reverse_Permutation l) eq_refl
    (Permutation_swap _ _ []) (NoDup_nil_2 : NoDup (GetRoles alice))) as H.
  revert H. vm_compute. intros (? & ? & ? & _). done.
Defined.

(** ** The lockout guard *)

Section Guard.
Context {St : Type}.
Variable uc_Call : Call → St → Reply * St.
Variable ldap_Dial : string → string → option string.
Variable ldap_Search : SearchRequest → string + list Entry.
Variable range : ∀ A : Type, list A → list A.
Implicit Types st : St.

Lemma hasOrgAdmin_run items st :
  ∃ o,
    hasOrgAdmin items st = mkResult o st []
    ∧ (o = Done true → holdsOrgAdmin (Returned (VArray items)) = true).
Proof.
  induction items as [|item items (o & Hrun & Ho)]; simpl.
  - by eexists.
  - destruct item as [|role| | |]; try (by eexists).
    unfold bind; simpl. destruct (String.eqb role "org_admin"); [by eexists|].
    exists o. by rewrite Hrun.
Qed.

Lemma findFrozenAdmin_none frozen uids st :
  uids ⊆ frozen →
  noFrozenAdmin uc_Call uids st = true →
  out (findFrozenAdmin uc_Call uids st) ≠ Done true
  ∧ Forall (guardEvent frozen) (events (findFrozenAdmin uc_Call uids st)).
Proof.
  revert st. induction uids as [|uid uids IH]; intros st Hsub;
    cbn [findFrozenAdmin noFrozenAdmin]; [done|].
  intros [Hnot Hrest]%andb_true_iff.
  assert (uid ∈ frozen) as Huid by (apply Hsub; left).
  assert (uids ⊆ frozen) as Hsub' by (intros ? ?; apply Hsub; by right).
  destruct (IH (uc_Call (user_listRoles uid) st).2 Hsub' Hrest) as [Hout Hevs].
  rewrite bind_unfold. cbn [uc out final events].
  destruct (uc_Call (user_listRoles uid) st) as [[err|v] st'] eqn:Hcall;
    cbn [fst snd] in *.
  - rewrite bind_unfold. cbn [logf emit out final events].
    split; [done|]. constructor; [done|]. by constructor.
  - destruct v as [| | |items|]; try (cbn; split; [done|by repeat constructor]).
    rewrite bind_unfold. cbn [asArray ret out final events].
    destruct (hasOrgAdmin_run items st') as (o & Hrun & Ho).
    rewrite bind_unfold, Hrun. cbn [out final events].
    destruct o as [[|]| |]; cbn [ret out final events app].
    + rewrite Ho in Hnot by done. done.
    + split; [done|]. by constructor.
    + split; [done|by repeat constructor].
    + split; [done|by repeat constructor].
Qed.

Lemma verifyIgnoredUsers_aborts sync st :
  noFrozenAdmin uc_Call (Frozen (cr sync)) st = true →
  (∀ a, out (verifyIgnoredUsers uc_Call sync st) ≠ Done a)
  ∧ Forall (guardEvent (Frozen (cr sync)))
      (events (verifyIgnoredUsers uc_Call sync st)).
Proof.
  intros H. destruct (findFrozenAdmin_none (Frozen (cr sync)) _ st
                        (reflexivity _) H) as [Hout Hevs].
  unfold verifyIgnoredUsers. rewrite bind_unfold.
  destruct (out (findFrozenAdmin uc_Call (Frozen (cr sync)) st)) as [[|]| |];
    [done| |done..].
  cbn [negb]. rewrite fatal_run. cbn [out events].
  split; [done|]. apply Forall_app. split; [done|by repeat constructor].
Qed.

(** C1: if no frozen uid holds the role "org_admin" on the destination,
    also when every role lookup fails, the run aborts, and all it has
    done is to write log lines and to look up the roles of frozen uids:
    no directory search (the staged set is not computed) and no create,
    update or delete call. *)
Theorem lockout_guard_aborts_before_any_write cfg st :
  noFrozenAdmin uc_Call (Frozen cfg) st = true →
  let r := Run uc_Call ldap_Dial ldap_Search range cfg st in
  (∀ failed, out r ≠ Done failed)
  ∧ Forall (guardEvent (Frozen cfg)) (events r).
Proof.
  intros Hguard. cbn zeta. unfold Run, Start.
  set (sync := NewLDAPSync cfg).
  assert (∀ lc', (∀ a, out (verifyIgnoredUsers uc_Call (set_lc lc' sync) st) ≠ Done a)
                 ∧ Forall (guardEvent (Frozen cfg))
                     (events (verifyIgnoredUsers uc_Call (set_lc lc' sync) st)))
    as Hverify by (intros lc'; by apply verifyIgnoredUsers_aborts).
  rewrite bind_unfold, bind_unfold. unfold Connect.
  destruct (lc_conn (lc sync)).
  - cbn [ret out final events]. rewrite bind_unfold.
    destruct (Hverify (lc sync)) as [Hout Hevs].
    destruct (out (verifyIgnoredUsers _ _ st)); [by destruct (Hout a)|done..].
  - destruct (ldap_Dial _ _).
    + rewrite fatal_run. cbn. split; [done|by repeat constructor].
    + cbn [ret out final events]. rewrite bind_unfold.
      destruct (Hverify (set_conn true (lc sync))) as [Hout Hevs].
      destruct (out (verifyIgnoredUsers _ _ st)); [by destruct (Hout a)|done..].
Qed.
End Guard.

Lemma lockout_guard_aborts_before_any_write_witness :
  let r := Run store_Call Example.dial Example.search (λ _ l, l) Example.cfg
             Lockout.store in
  (∀ failed, out r ≠ Done failed)
  ∧ Forall (guardEvent (Frozen Example.cfg)) (events r).
Proof.
  apply (lockout_guard_aborts_before_any_write store_Call Example.dial
           Example.search (λ _ l, l) Example.cfg Lockout.store).
  by vm_compute.
Defined.

(** ** What a computation emits and returns *)

Section Judgements.
Context {St : Type}.
Implicit Types st : St.

Lemma ok_ret {A} P (Q : A → Prop) a : Q a → ok (St:=St) P Q (ret a).
Proof. intros H st. split; [constructor|]. by intros ? [= <-]. Qed.

Lemma ok_bind {A B} P (Q : A → Prop) (R : B → Prop) m k :
  ok (St:=St) P Q m → (∀ a, Q a → ok (St:=St) P R (k a)) → ok (St:=St) P R (bind m k).
Proof.
  intros Hm Hk st. destruct (Hm st) as [Hevs Hout]. rewrite bind_unfold.
  destruct (out (m st)) as [a| |]; cbn [out events]; [|done..].
  destruct (Hk a (Hout a eq_refl) (final (m st))) as [Hevs' Hout'].
  split; [by apply Forall_app|done].
Qed.

Lemma ok_emit P (Q : unit → Prop) ev : P ev → Q () → ok (St:=St) P Q (emit ev).
Proof. intros ? ? st. split; [by repeat constructor|]. by intros [] _. Qed.

Lemma ok_logf P (Q : unit → Prop) l parts :
  (∀ msg, P (EvLog l msg)) → Q () → ok (St:=St) P Q (logf l parts).
Proof. intros ? ?. by apply ok_emit. Qed.

Lemma ok_fatal {A} P (Q : A → Prop) msg : P (EvLog Fatal msg) → ok (St:=St) P Q (fatal msg).
Proof. intros ? st. rewrite fatal_run. split; [by repeat constructor|done]. Qed.

Lemma ok_panic {A} P (Q : A → Prop) : ok (St:=St) P Q (panic (A:=A)).
Proof. intros st. split; [constructor|done]. Qed.

Lemma ok_uc P uc_Call c : P (EvCall c) → ok (St:=St) P (λ _, True) (uc uc_Call c).
Proof. intros ? st. split; [by repeat constructor|done]. Qed.

Lemma ok_asString P v : ok (St:=St) P (λ _, True) (asString (S:=St) v).
Proof. destruct v; (apply ok_panic || by apply ok_ret). Qed.

Lemma ok_asArray P v : ok (St:=St) P (λ _, True) (asArray (S:=St) v).
Proof. destruct v; (apply ok_panic || by apply ok_ret). Qed.

Lemma ok_asMap P v : ok (St:=St) P (λ _, True) (asMap (S:=St) v).
Proof. destruct v; (apply ok_panic || by apply ok_ret). Qed.

Lemma ok_forM_ {A} P (l : list A) f :
  (∀ x, x ∈ l → ok (St:=St) P (λ _, True) (f x)) → ok (St:=St) P (λ _, True) (forM_ l f).
Proof.
  induction l as [|x l IH]; intros Hf; cbn [forM_]; [by apply ok_ret|].
  eapply ok_bind; [apply Hf; left|]. intros _ _. apply IH.
  intros y Hy. apply Hf. by right.
Qed.

Lemma ok_foldM {A B} P (I : B → Prop) (f : B → A → M St B) l b :
  I b → (∀ b x, I b → x ∈ l → ok (St:=St) P I (f b x)) → ok (St:=St) P I (foldM f l b).
Proof.
  revert b. induction l as [|x l IH]; intros b Hb Hf; cbn [foldM];
    [by apply ok_ret|].
  eapply ok_bind; [apply Hf; [done|left]|]. intros b' Hb'. apply IH; [done|].
  intros b'' y ? Hy. apply Hf; [done|by right].
Qed.

Lemma exact_ret {A X} (π : Event → list X) (Q : A → Prop) a :
  Q a → exact (St:=St) π [] Q (ret a).
Proof. intros H st. by exists a. Qed.

Lemma exact_bind {A B X} (π : Event → list X) xs ys
    (Q : A → Prop) (R : B → Prop) m k :
  exact (St:=St) π xs Q m → (∀ a, Q a → exact (St:=St) π ys R (k a)) → exact (St:=St) π (xs ++ ys) R (bind m k).
Proof.
  intros Hm Hk st. destruct (Hm st) as (a & Hout & Ha & Hevs).
  destruct (Hk a Ha (final (m st))) as (b & Hout' & Hb & Hevs').
  exists b. rewrite bind_unfold, Hout. cbn [out events].
  split_and!; [done..|]. by rewrite bind_app, Hevs, Hevs'.
Qed.

Lemma exact_bind_l {A B X} (π : Event → list X) ys
    (Q : A → Prop) (R : B → Prop) m k :
  exact (St:=St) π [] Q m → (∀ a, Q a → exact (St:=St) π ys R (k a)) → exact (St:=St) π ys R (bind m k).
Proof. intros Hm Hk. by apply (exact_bind π [] ys Q). Qed.

Lemma exact_bind_r {A B X} (π : Event → list X) xs
    (Q : A → Prop) (R : B → Prop) m k :
  exact (St:=St) π xs Q m → (∀ a, Q a → exact (St:=St) π [] R (k a)) → exact (St:=St) π xs R (bind m k).
Proof. intros Hm Hk. rewrite <- (app_nil_r xs). by apply (exact_bind π xs [] Q). Qed.

Lemma exact_weaken {A X} (π : Event → list X) xs xs' (Q Q' : A → Prop) m :
  exact (St:=St) π xs Q m → xs = xs' → (∀ a, Q a → Q' a) → exact (St:=St) π xs' Q' m.
Proof. intros Hm <- HQ st. destruct (Hm st) as (a & ? & ? & ?). exists a. eauto. Qed.

Lemma exact_emit {X} (π : Event → list X) (Q : unit → Prop) ev :
  Q () → exact (St:=St) π (π ev) Q (emit ev).
Proof.
  intros H st. exists (). split_and!; [done..|].
  cbn. by rewrite app_nil_r.
Qed.

Lemma exact_logf {X} (π : Event → list X) (Q : unit → Prop) l parts :
  (∀ msg, π (EvLog l msg) = []) → Q () → exact (St:=St) π [] Q (logf l parts).
Proof.
  intros Hπ H. eapply exact_weaken; [by apply (exact_emit π Q)|apply Hπ|done].
Qed.

Lemma exact_uc {X} (π : Event → list X) uc_Call c :
  exact (St:=St) π (π (EvCall c)) (λ _, True) (uc uc_Call c).
Proof.
  intros st. eexists. split_and!; [done..|]. cbn. by rewrite app_nil_r.
Qed.

Lemma exact_forM_ {A X} (π : Event → list X) (g : A → list X) (l : list A) f :
  (∀ x, x ∈ l → exact (St:=St) π (g x) (λ _, True) (f x)) →
  exact (St:=St) π (l ≫= g) (λ _, True) (forM_ l f).
Proof.
  induction l as [|x l IH]; intros Hf; cbn [forM_ mbind list_bind];
    [by apply exact_ret|].
  eapply exact_bind; [apply Hf; left|]. intros _ _. apply IH.
  intros y Hy. apply Hf. by right.
Qed.

(** A fold whose invariant may speak of the elements visited so far. *)
Lemma exact_foldM {A B X} (π : Event → list X) (g : A → list X)
    (I : list A → B → Prop) (f : B → A → M St B) l b :
  I [] b →
  (∀ pre x b, I pre b → exact (St:=St) π (g x) (I (pre ++ [x])) (f b x)) →
  exact (St:=St) π (l ≫= g) (I l) (foldM f l b).
Proof.
  intros Hb Hf.
  assert (∀ pre b, I pre b →
            exact π (l ≫= g) (I (pre ++ l)) (foldM f l b)) as Hgen.
  { clear b Hb. induction l as [|x l IH]; intros pre b Hb;
      cbn [foldM mbind list_bind].
    - rewrite app_nil_r. by apply exact_ret.
    - eapply exact_bind; [by apply Hf|]. intros b' Hb'.
      rewrite (cons_middle x pre l), app_assoc. by apply IH. }
  by apply (Hgen [] b).
Qed.
End Judgements.

(** ** Classification as a function of the three sets *)

Lemma refreshUyuniUsersStatus_run {St} sync (st : St) :
  ∃ evs,
    refreshUyuniUsersStatus sync st = mkResult (Done (classify sync)) st evs
    ∧ Forall debugLog evs.
Proof.
  unfold refreshUyuniUsersStatus, classify.
  assert (∀ pending ldap uyuni newusers,
            ∃ evs,
              foldM (λ '(ldap, uyuni, newusers) user,
                       let* '(user, uyuni, newusers) :=
                         refreshStatusOf user uyuni newusers in
                       ret (ldap ++ [user], uyuni, newusers))
                pending (ldap, uyuni, newusers) st
              = mkResult (Done (classifyLoop pending ldap uyuni newusers)) st evs
              ∧ Forall debugLog evs) as Hloop.
  { induction pending as [|user pending IH]; intros ldap uyuni newusers;
      cbn [foldM classifyLoop].
    - by exists [].
    - destruct (refreshStatusOf_run user uyuni newusers st) as (evs1 & Hrun1 & Hevs1).
      destruct (IH (ldap ++ [classified user uyuni])
                  (overwrite (classified user uyuni) uyuni)
                  (if in_ user uyuni then newusers
                   else newusers ++ [classified user uyuni]))
        as (evs2 & Hrun2 & Hevs2).
      eexists. split.
      + eapply bind_run; [|exact Hrun2].
        eapply bind_run; [exact Hrun1|reflexivity].
      + rewrite app_nil_r. by apply Forall_app. }
  destruct (Hloop (ldapusers sync) [] (uyuniusers sync) []) as (evs & Hrun & Hevs).
  eexists. split.
  - eapply bind_run; [exact Hrun|].
    by destruct (classifyLoop _ _ _ _) as [[ldap uyuni] newusers].
  - by rewrite app_nil_r.
Qed.

(** An overwritten destination user keeps its uid and its [new] flag; it
    takes the [outdated] flag and the roles of the staged user, each role
    once. *)
Lemma overwritten_fields user u :
  Uid (overwritten user u) = Uid u
  ∧ new (overwritten user u) = new u
  ∧ outdated (overwritten user u) = outdated user
  ∧ (∀ r, r ∈ GetRoles (overwritten user u) ↔ r ∈ GetRoles user)
  ∧ NoDup (GetRoles (overwritten user u)).
Proof.
  unfold overwritten.
  set (v := FlushRoles _).
  destruct (AddRoles_fields (GetRoles user) v) as (_ & -> & _ & _ & _ & _ & -> & ->).
  split_and!; [done..| |].
  - intros r. rewrite AddRoles_elem. cbn. rewrite elem_of_nil. naive_solver.
  - apply AddRoles_NoDup. cbn. constructor.
Qed.

(** The in-place overwrite keeps the uid and the [new] flag of every
    destination user. *)
Lemma overwrite_Uid user uyuni : Uid <$> overwrite user uyuni = Uid <$> uyuni.
Proof.
  unfold overwrite. rewrite <- list_fmap_compose. apply list_fmap_ext.
  intros _ u _. simpl. destruct (String.eqb (Uid u) (Uid user)); [|done].
  by destruct (overwritten_fields user u) as (-> & _).
Qed.

Lemma overwrite_new user uyuni : new <$> overwrite user uyuni = new <$> uyuni.
Proof.
  unfold overwrite. rewrite <- list_fmap_compose. apply list_fmap_ext.
  intros _ u _. simpl. destruct (String.eqb (Uid u) (Uid user)); [|done].
  by destruct (overwritten_fields user u) as (_ & -> & _).
Qed.

Lemma in_ext user user' l l' :
  Uid user = Uid user' → Uid <$> l = Uid <$> l' → in_ user l = in_ user' l'.
Proof.
  intros Hu. revert l'. induction l as [|u l IH]; intros [|u' l']; try done.
  cbn. intros [= Hh Ht]. rewrite Hh, Hu. by rewrite (IH l' Ht).
Qed.

Lemma flagged_fields user u :
  Uid (flagged user u) = Uid user ∧ new (flagged user u) = new user
  ∧ Email (flagged user u) = Email user ∧ Name (flagged user u) = Name user
  ∧ Secondname (flagged user u) = Secondname user
  ∧ roles (flagged user u) = roles user.
Proof.
  unfold flagged. destruct (sameAccount user u); simpl;
    by match goal with |- context [same ?a u] => destruct (same a u) end.
Qed.

Lemma classified_fields user uyuni :
  Uid (classified user uyuni) = Uid user
  ∧ new (classified user uyuni) = negb (in_ user uyuni)
  ∧ Email (classified user uyuni) = Email user
  ∧ Name (classified user uyuni) = Name user
  ∧ Secondname (classified user uyuni) = Secondname user
  ∧ roles (classified user uyuni) = roles user.
Proof.
  unfold classified. pose proof (in_firstOf user uyuni) as Hin.
  destruct (firstOf (Uid user) uyuni) as [u|].
  - rewrite (proj2 Hin) by eauto.
    destruct (flagged_fields (set_new false user) u) as (? & ? & ? & ? & ? & ?).
    by split_and!.
  - destruct (in_ user uyuni); [|done]. by destruct (proj1 Hin eq_refl).
Qed.

(** The result of the loop: the uids and the [new] flags of the
    destination users stay, and the staged users that the destination
    does not have are queued, marked new, in their order. *)
Lemma classifyLoop_spec pending ldap uyuni newusers :
  let '(ldap', uyuni', newusers') := classifyLoop pending ldap uyuni newusers in
  Uid <$> uyuni' = Uid <$> uyuni
  ∧ new <$> uyuni' = new <$> uyuni
  ∧ newusers' = newusers
                ++ (set_new true <$> filter (λ d, in_ d uyuni = false) pending)
  ∧ ∃ processed,
      ldap' = ldap ++ processed
      ∧ Forall2 sameData pending processed
      ∧ ∀ i d, pending !! i = Some d → in_ d uyuni = false →
               processed !! i = Some (set_new true d).
Proof.
  revert ldap uyuni newusers.
  induction pending as [|user pending IH]; intros ldap uyuni newusers; cbn [classifyLoop].
  - rewrite !app_nil_r. split_and!; try done. exists []. by rewrite app_nil_r.
  - specialize (IH (ldap ++ [classified user uyuni])
                  (overwrite (classified user uyuni) uyuni)
                  (if in_ user uyuni then newusers
                   else newusers ++ [classified user uyuni])).
    destruct (classifyLoop _ _ _ _) as [[ldap' uyuni'] newusers'].
    destruct IH as (Huid & Hnew & Hq & processed & Hl & Hpu & Hmark).
    rewrite overwrite_Uid in Huid. rewrite overwrite_new in Hnew.
    assert (∀ d, in_ d (overwrite (classified user uyuni) uyuni) = in_ d uyuni)
      as Hin by (intros d; apply in_ext; [done|apply overwrite_Uid]).
    destruct (classified_fields user uyuni) as (Hcu & Hcn & Hce & Hcm & Hcs & Hcr).
    assert (in_ user uyuni = false → classified user uyuni = set_new true user)
      as Hnewuser.
    { intros Hu. unfold classified. pose proof (in_firstOf user uyuni) as Hf.
      destruct (firstOf (Uid user) uyuni); [|done].
      rewrite (proj2 Hf) in Hu by eauto. done. }
    split_and!; [done..| |].
    + rewrite Hq, filter_cons. rewrite (list_filter_iff _ (λ d, in_ d uyuni = false))
        by (intros d; by rewrite Hin).
      destruct (in_ user uyuni) eqn:Hu.
      * by rewrite decide_False by done.
      * rewrite decide_True by done. rewrite <- app_assoc. cbn.
        by rewrite Hnewuser.
    + exists (classified user uyuni :: processed). split_and!.
      * by rewrite Hl, <- app_assoc.
      * by constructor.
      * intros [|i] d Hd Hnotin; cbn in *.
        -- injection Hd as ->. by rewrite Hnewuser.
        -- apply Hmark; [done|]. by rewrite Hin.
Qed.

Lemma in_app user l l' : in_ user (l ++ l') = in_ user l || in_ user l'.
Proof.
  induction l as [|u l IH]; [done|]. cbn.
  by destruct (String.eqb (Uid u) (Uid user)).
Qed.

Lemma sameData_Uid pending processed :
  Forall2 sameData pending processed → Uid <$> processed = Uid <$> pending.
Proof. induction 1 as [|d d' ? ? (Hu & _)]; [done|]. cbn. by f_equal. Qed.

(** Classification, in terms of the three sets it starts from. *)
Lemma classify_spec sync :
  ∃ uyuni',
    uyuniusers (classify sync)
    = uyuni' ++ (set_new true <$>
                 filter (λ d, in_ d (uyuniusers sync) = false) (ldapusers sync))
    ∧ Uid <$> uyuni' = Uid <$> uyuniusers sync
    ∧ new <$> uyuni' = new <$> uyuniusers sync
    ∧ Forall2 sameData (ldapusers sync) (ldapusers (classify sync))
    ∧ (∀ i d, ldapusers sync !! i = Some d → in_ d (uyuniusers sync) = false →
              ldapusers (classify sync) !! i = Some (set_new true d))
    ∧ allldapusers (classify sync) = allldapusers sync
    ∧ cr (classify sync) = cr sync.
Proof.
  unfold classify.
  pose proof (classifyLoop_spec (ldapusers sync) [] (uyuniusers sync) []) as H.
  destruct (classifyLoop _ _ _ _) as [[ldap' uyuni'] newusers'].
  destruct H as (Huid & Hnew & -> & processed & -> & Hsame & Hmark).
  exists uyuni'. by split_and!.
Qed.

(** ** The push step *)

Lemma bind_nil {A B} (l : list A) : l ≫= (λ _, @nil B) = [].
Proof. induction l; [done|]. by cbn. Qed.

Lemma bind_singleton {A B} (f : A → B) (l : list A) : l ≫= (λ x, [f x]) = f <$> l.
Proof. induction l as [|x l IH]; [done|]. cbn. by rewrite IH. Qed.

Lemma updateFromLDAPUser_fields sync u :
  Uid (updateFromLDAPUser sync u) = Uid u ∧ new (updateFromLDAPUser sync u) = new u.
Proof.
  unfold updateFromLDAPUser. generalize (ldapusers sync) as l. intros l.
  revert u. induction l as [|d l IH]; intros u; cbn [foldl]; [done|].
  destruct (String.eqb (Uid d) (Uid u)); [|apply IH].
  match goal with |- context [foldl ?f ?b l] =>
    destruct (IH b) as [-> ->]; clear IH end.
  generalize (GetRoles d) as rs. intros rs.
  assert (∀ v, Uid (foldl (λ uyuniUser role, AddRoles [role] uyuniUser) v rs) = Uid v
               ∧ new (foldl (λ uyuniUser role, AddRoles [role] uyuniUser) v rs) = new v)
    as Hfold.
  { induction rs as [|r rs IHr]; intros v; cbn [foldl]; [done|].
    destruct (IHr (AddRoles [r] v)) as [-> ->].
    by destruct (AddRoles_fields [r] v) as (_ & -> & _ & _ & _ & _ & -> & _). }
  by destruct (Hfold (FlushRoles (set_Email (Email d) (set_Secondname (Secondname d)
                        (set_Name (Name d) u))))) as [-> ->].
Qed.

Lemma writeBack_Uid news users :
  Uid <$> news = Uid <$> filter (λ user, IsNew user = true) users →
  Uid <$> writeBack news users = Uid <$> users.
Proof.
  revert news. induction users as [|u users IH]; intros news; [done|].
  cbn [writeBack]. rewrite filter_cons.
  destruct (decide (IsNew u = true)) as [Hu|Hu].
  - rewrite Hu. destruct news as [|n news]; [done|].
    cbn. intros [= Hn Hrest]. by rewrite Hn, (IH news Hrest).
  - apply not_true_is_false in Hu. rewrite Hu. intros H. cbn.
    by rewrite (IH news H).
Qed.

Section Push.
Context {St X : Type}.
Variable uc_Call : Call → St → Reply * St.
Variable sel : Call → list X.
Hypothesis typed : listRoles_typed uc_Call.
Hypothesis sel_listRoles : ∀ login, sel (user_listRoles login) = [].
Hypothesis sel_addRole : ∀ login role, sel (user_addRole login role) = [].
Hypothesis sel_removeRole : ∀ login role, sel (user_removeRole login role) = [].
Hypothesis sel_setDetails : ∀ login f l e, sel (user_setDetails login f l e) = [].
Hypothesis sel_usePam : ∀ login v, sel (user_usePamAuthentication login v) = [].

Lemma listRoles_exact login :
  exact (select sel) []
    (λ r, match r with
          | Failed _ => True
          | Returned v => ∃ current, v = VArray (VString <$> current)
          end)
    (uc uc_Call (user_listRoles login)).
Proof using typed sel_listRoles.
  intros st. eexists. split_and!; [done|apply typed|].
  cbn. by rewrite sel_listRoles.
Qed.

Lemma uc_quiet c : sel c = [] → exact (select sel) [] (λ _, True) (uc uc_Call c).
Proof. intros Hc. eapply exact_weaken; [apply exact_uc|by cbn; rewrite Hc|done]. Qed.

Lemma logf_quiet l parts : exact (St:=St) (select sel) [] (λ _, True) (logf l parts).
Proof. by apply exact_logf. Qed.

Lemma logged_exact (c : Call) (onFail : string → M St unit) (onOk : M St unit) :
  sel c = [] →
  (∀ err, exact (select sel) [] (λ _, True) (onFail err)) →
  exact (select sel) [] (λ _, True) onOk →
  exact (select sel) [] (λ _, True)
    (let* r := uc uc_Call c in
     match r with
     | Failed err => onFail err
     | Returned _ => onOk
     end).
Proof.
  intros Hc Hfail Hok. eapply exact_bind_l; [by apply uc_quiet|].
  intros [err|v] _; [apply Hfail|apply Hok].
Qed.

Lemma pushUserRolesToUyuni_exact u :
  exact (select sel) [] (λ _, True) (pushUserRolesToUyuni uc_Call u).
Proof using typed sel_listRoles sel_addRole sel_removeRole.
  unfold pushUserRolesToUyuni. eapply exact_bind_l; [apply listRoles_exact|].
  intros [err|v] Hv; [apply logf_quiet|]. destruct Hv as [current ->].
  eapply exact_bind_l; [by apply (exact_ret _ (λ items, items = VString <$> current))|].
  intros items ->. eapply exact_bind_l.
  - eapply exact_weaken; [apply (exact_forM_ _ (λ _, []))|apply bind_nil|done].
    intros item (role & -> & _)%list_elem_of_fmap. cbn [asString].
    eapply exact_bind_l; [by apply (exact_ret _ (λ r, r = role))|].
    intros ? ->. apply logged_exact; [done|intros; apply logf_quiet|apply logf_quiet].
  - intros _ _.
    eapply exact_weaken; [apply (exact_forM_ _ (λ _, []))|apply bind_nil|done].
    intros role _.
    apply logged_exact; [done|intros; apply logf_quiet|apply logf_quiet].
Qed.

Lemma pushUserAccountDataToUyuni_exact u :
  exact (select sel) [] (λ _, True) (pushUserAccountDataToUyuni uc_Call u).
Proof using sel_setDetails sel_usePam.
  unfold pushUserAccountDataToUyuni.
  apply logged_exact; [done|intros; apply logf_quiet|].
  apply logged_exact; [done|intros; apply logf_quiet|by apply exact_ret].
Qed.

Lemma deleteUser_exact u :
  exact (select sel) (sel (user_delete (Uid u))) (λ _, True) (deleteUser uc_Call u).
Proof.
  unfold deleteUser. eapply exact_bind_r; [apply exact_uc|].
  intros [err|v] _; [apply logf_quiet|by apply exact_ret].
Qed.

Lemma createUser_exact u :
  exact (select sel) (sel (creationOf u))
    (λ u', Uid u' = Uid u ∧ new u' = new u) (createUser uc_Call u).
Proof using typed sel_listRoles sel_addRole sel_removeRole.
  unfold createUser. eapply exact_bind_l; [apply logf_quiet|]. intros _ _.
  eapply exact_bind_r; [apply exact_uc|].
  intros r _. destruct (negb (IsValid _)).
  - eapply exact_bind_l; [apply logf_quiet|]. intros _ _. by apply exact_ret.
  - eapply exact_bind_l; [apply pushUserRolesToUyuni_exact|]. intros _ _.
    by apply exact_ret.
Qed.

Lemma createUsers_exact newUsers :
  exact (select sel) (newUsers ≫= λ u, sel (creationOf u))
    (λ p, Uid <$> p.1 = Uid <$> newUsers)
    (createUsers uc_Call newUsers).
Proof using typed sel_listRoles sel_addRole sel_removeRole.
  unfold createUsers.
  apply (exact_foldM _ (λ u, sel (creationOf u))
           (λ pre (p : list UyuniUser * list UyuniUser), Uid <$> p.1 = Uid <$> pre));
    [done|].
  intros pre u [users failed] Hpre. cbn [fst] in Hpre.
  eapply exact_bind_r; [apply createUser_exact|].
  intros u' [Hu' _].
  destruct (negb (IsValid u')); apply exact_ret; cbn [fst];
    by rewrite !fmap_app, Hpre; cbn; rewrite Hu'.
Qed.

(** The calls of a push that [sel] selects: those of the creations of the
    new users, then those of the deletions of the deleted users. *)
Lemma SyncUsers_exact sync :
  exact (select sel)
    (((GetNewUsers sync).2 ≫= λ u, sel (creationOf u))
     ++ (GetDeletedUsers sync ≫= λ u, sel (user_delete (Uid u))))
    (λ _, True) (SyncUsers uc_Call sync).
Proof using All.
  unfold SyncUsers. eapply exact_bind_l; [apply logf_quiet|].
  intros _ _. unfold GetNewUsers. cbv beta iota zeta. cbn [snd].
  set (users' := (λ user, if IsNew user then updateFromLDAPUser sync user else user)
                   <$> uyuniusers sync).
  set (newUsers := filter (λ user, IsNew user = true) users').
  assert (Uid <$> users' = Uid <$> uyuniusers sync) as Husers.
  { subst users'. rewrite <- list_fmap_compose. apply list_fmap_ext.
    intros _ u _. cbn. destruct (IsNew u); [|done].
    by destruct (updateFromLDAPUser_fields sync u) as [-> _]. }
  eapply exact_bind with (Q := λ p, Uid <$> p.1 = Uid <$> newUsers).
  - case_bool_decide as Hlen.
    + eapply exact_bind_l; [apply logf_quiet|]. intros _ _. apply createUsers_exact.
    + destruct newUsers; [by apply exact_ret|]. cbn in Hlen. lia.
  - intros [created failed] Hcreated. cbn [fst] in Hcreated.
    cbn [uyuniusers set_uyuniusers].
    set (sync' := set_uyuniusers (writeBack created users') _).
    assert (GetDeletedUsers sync' = GetDeletedUsers sync) as Hdel.
    { unfold GetDeletedUsers. subst sync'. cbn. apply list_filter_iff.
      intros u. rewrite (in_ext u u (writeBack created users') (uyuniusers sync));
        [done..|]. rewrite writeBack_Uid; done. }
    rewrite Hdel. eapply (exact_bind_l _ _ (λ _, True)).
    + case_bool_decide; [|by apply exact_ret].
      eapply exact_bind_l; [apply logf_quiet|]. intros _ _.
      eapply exact_weaken; [apply (exact_forM_ _ (λ _, []))|apply bind_nil|done].
      intros u _. eapply exact_bind_l; [apply logf_quiet|]. intros _ _.
      eapply exact_bind_l; [apply pushUserRolesToUyuni_exact|]. intros _ _.
      apply pushUserAccountDataToUyuni_exact.
    + intros _ _. eapply (exact_bind_r _ _ (λ _, True)).
      * case_bool_decide as Hlen.
        -- eapply exact_bind_l; [apply logf_quiet|]. intros _ _.
           apply exact_forM_. intros u _.
           eapply exact_bind_l; [apply logf_quiet|]. intros _ _.
           apply deleteUser_exact.
        -- destruct (GetDeletedUsers sync); [by apply exact_ret|]. cbn in Hlen. lia.
      * intros _ _. eapply exact_bind_l; [apply logf_quiet|]. intros _ _.
        eapply exact_bind_l; [apply logf_quiet|]. intros _ _. by apply exact_ret.
Qed.
End Push.

Lemma filter_none {A} (P : A → Prop) `{∀ x, Decision (P x)} (l : list A) :
  (∀ x, x ∈ l → ¬ P x) → filter P l = [].
Proof.
  induction l as [|x l IH]; intros Hl; [done|]. rewrite filter_cons.
  rewrite decide_False by (apply Hl; left). apply IH. intros y Hy. apply Hl.
  by right.
Qed.

Lemma filter_all {A} (P : A → Prop) `{∀ x, Decision (P x)} (l : list A) :
  (∀ x, x ∈ l → P x) → filter P l = l.
Proof.
  induction l as [|x l IH]; intros Hl; [done|]. rewrite filter_cons.
  rewrite decide_True by (apply Hl; left). f_equal. apply IH. intros y Hy.
  apply Hl. by right.
Qed.

Lemma count_NoDup (l : list string) x :
  NoDup l → x ∈ l → length (filter (λ y, y = x) l) = 1.
Proof.
  induction 1 as [|y l Hy Hl IH]; [by intros ?%elem_of_nil|].
  rewrite filter_cons. intros [->|Hx]%elem_of_cons.
  - rewrite decide_True by done. cbn. f_equal. rewrite filter_none; [done|].
    by intros z Hz ->.
  - rewrite decide_False by (intros ->; done). by apply IH.
Qed.

(** With distinct uids in the staged set, the refresh of a new user from
    the staged users takes the data of the staged user of its uid. *)
Lemma updateFromLDAPUser_unique sync u d :
  NoDup (Uid <$> ldapusers sync) →
  d ∈ ldapusers sync →
  Uid d = Uid u →
  creationOf (updateFromLDAPUser sync u) = creationOf d.
Proof.
  unfold updateFromLDAPUser. generalize (ldapusers sync) as l. intros l.
  set (f := λ uyuniUser ldapUser, if String.eqb (Uid ldapUser) (Uid uyuniUser) then _
                                   else uyuniUser).
  assert (∀ l v, Uid v ∉ Uid <$> l → foldl f v l = v) as Hskip.
  { clear. intros l. induction l as [|x l IH]; intros v Hv; [done|].
    cbn [foldl]. unfold f at 2.
    destruct (String.eqb_spec (Uid x) (Uid v)) as [Heq|Hne].
    - destruct Hv. rewrite <- Heq. left.
    - apply IH. intros ?. apply Hv. by right. }
  assert (∀ v x, Uid x = Uid v → creationOf (f v x) = creationOf x
                                ∧ Uid (f v x) = Uid v) as Hhit.
  { clear. intros v x Heq. unfold f. rewrite Heq, String.eqb_refl.
    generalize (GetRoles x) as rs. intros rs.
    set (v0 := FlushRoles _).
    assert (creationOf v0 = creationOf x ∧ Uid v0 = Uid v) as Hv0
      by (unfold creationOf; cbn; by rewrite Heq).
    revert Hv0. generalize v0 as w. clear v0.
    induction rs as [|r rs IH]; intros w Hw; cbn [foldl]; [done|].
    apply IH. unfold creationOf in *.
    destruct (AddRoles_fields [r] w) as (_ & -> & -> & -> & -> & _). done. }
  revert u. induction l as [|x l IH]; intros u Hnodup Hd Hu;
    [by apply elem_of_nil in Hd|].
  cbn in Hnodup. apply NoDup_cons in Hnodup as [Hx Hl]. cbn [foldl].
  apply elem_of_cons in Hd as [->|Hd].
  - destruct (Hhit u x Hu) as [Hc Huid]. rewrite Hskip; [done|].
    by rewrite Huid, <- Hu.
  - assert (Uid x ≠ Uid u) as Hne.
    { intros Heq. apply Hx. rewrite Heq, <- Hu. by apply list_elem_of_fmap_2. }
    unfold f at 2. rewrite (proj2 (String.eqb_neq _ _) Hne). by apply IH.
Qed.

(** After classification the new users are the staged users that the
    destination does not have, each refreshed from the staged set. *)
Lemma GetNewUsers_classify sync :
  Forall (λ u, IsNew u = false) (uyuniusers sync) →
  (GetNewUsers (classify sync)).2
  = updateFromLDAPUser (classify sync)
      <$> (set_new true <$>
           filter (λ d, in_ d (uyuniusers sync) = false) (ldapusers sync)).
Proof.
  intros Hdest. destruct (classify_spec sync) as (uyuni' & Heq & _ & Hnew & _).
  unfold GetNewUsers. cbn [snd]. rewrite Heq, fmap_app, filter_app.
  assert (Forall (λ u, IsNew u = false) uyuni') as Hold.
  { assert (Forall (λ b, b = false) (new <$> uyuni')) as H
      by (rewrite Hnew; by apply Forall_fmap).
    by apply Forall_fmap in H. }
  rewrite filter_none.
  2:{ intros u (v & -> & Hv)%list_elem_of_fmap.
      rewrite Forall_forall in Hold. rewrite (Hold v Hv). by rewrite (Hold v Hv). }
  rewrite filter_all.
  2:{ intros u (v & -> & (d & -> & _)%list_elem_of_fmap)%list_elem_of_fmap.
      unfold IsNew. cbn.
      by destruct (updateFromLDAPUser_fields (classify sync) (set_new true d))
        as [_ ->]. }
  cbn [app]. apply list_fmap_ext.
  intros _ u (d & -> & _)%list_elem_of_lookup_2%list_elem_of_fmap. done.
Qed.

(** After classification the deleted users are those of the full set
    whose uid the destination has and the staged set has not. *)
Lemma GetDeletedUsers_classify sync :
  GetDeletedUsers (classify sync)
  = filter (λ u, in_ u (ldapusers sync) = false ∧ in_ u (uyuniusers sync) = true)
      (allldapusers sync).
Proof.
  destruct (classify_spec sync) as (uyuni' & Heq & Huid & _ & Hsame & _ & Hall & _).
  unfold GetDeletedUsers. rewrite Hall, Heq. apply list_filter_iff. intros u.
  rewrite (in_ext u u (ldapusers (classify sync)) (ldapusers sync))
    by (done || by apply sameData_Uid).
  rewrite in_app, (in_ext u u uyuni' (uyuniusers sync)) by done.
  destruct (in_ u (ldapusers sync)) eqn:Hstaged; cbn; [naive_solver|].
  destruct (in_ u (uyuniusers sync)); cbn; [naive_solver|].
  split; [|naive_solver]. intros Hnews%Is_true_true. apply in_elem in Hnews.
  apply in_false_elem in Hstaged. destruct Hstaged.
  apply list_elem_of_fmap in Hnews as (v & -> & (d & -> & Hd)%list_elem_of_fmap).
  apply list_elem_of_filter in Hd as [_ Hd]. cbn. by apply list_elem_of_fmap_2.
Qed.

(** The users that [refreshExistingUyuniUsers] lists are not flagged
    new: classification starts from such a destination-derived set. *)
Lemma refreshExistingUyuniUsers_not_new {St} (uc_Call : Call → St → Reply * St) sync :
  ok (λ _, True) (λ s, Forall (λ u, IsNew u = false) (uyuniusers s))
    (refreshExistingUyuniUsers uc_Call sync).
Proof.
  unfold refreshExistingUyuniUsers.
  eapply ok_bind; [by apply ok_uc|]. intros [err|v] _; [by apply ok_fatal|].
  eapply ok_bind; [apply ok_asArray|]. intros items _.
  eapply ok_bind; [|intros users Husers; apply ok_ret; exact Husers].
  apply (ok_foldM _ (Forall (λ u, IsNew u = false))); [constructor|].
  intros users usrdata Husers _. unfold existingUserOf.
  eapply ok_bind; [apply ok_asMap|]. intros fields _.
  eapply ok_bind; [apply ok_asString|]. intros uid _.
  destruct (Contains _ _); [by apply ok_ret|].
  eapply ok_bind; [by apply ok_uc|]. intros [err|v'] _; [by apply ok_fatal|].
  eapply ok_bind; [apply ok_asMap|]. intros userDetails _.
  eapply ok_bind; [apply ok_asString|]. intros email _.
  eapply ok_bind; [apply ok_asString|]. intros first_name _.
  eapply ok_bind; [apply ok_asString|]. intros last_name _.
  eapply ok_bind; [by apply ok_uc|]. intros [err|v''] _; [by apply ok_fatal|].
  eapply ok_bind; [apply ok_asArray|]. intros roleItfs _.
  eapply ok_bind.
  - apply (ok_foldM _ (λ user, IsNew user = false)); [done|].
    intros user roleItf Huser _. eapply ok_bind; [apply ok_asString|].
    intros role _. apply ok_ret. unfold IsNew in *.
    by destruct (AddRoles_fields [role] user) as (_ & _ & _ & _ & _ & _ & -> & _).
  - intros user Huser. apply ok_ret. apply Forall_app. split; [done|].
    by repeat constructor.
Qed.

Section PushOfClassified.
Context {St : Type}.
Variable uc_Call : Call → St → Reply * St.
Hypothesis typed : listRoles_typed uc_Call.
Implicit Types st : St.

(** C3: a staged user whose uid matches no user of the destination-derived
    set is marked new by classification, and the push issues one creation
    call for each such user, in their order; with distinct uids in the
    staged set there is exactly one creation call of the uid of the user,
    with the data of the user. *)
Theorem new_users_marked_and_created sync st st' :
  Forall (λ u, IsNew u = false) (uyuniusers sync) →
  let news := filter (λ d, in_ d (uyuniusers sync) = false) (ldapusers sync) in
  let r := SyncUsers uc_Call (classify sync) st' in
  (∃ evs, refreshUyuniUsersStatus sync st = mkResult (Done (classify sync)) st evs)
  ∧ (∀ i d, ldapusers sync !! i = Some d → in_ d (uyuniusers sync) = false →
            ∃ d', ldapusers (classify sync) !! i = Some d'
                  ∧ IsNew d' = true ∧ sameData d d')
  ∧ (∃ res, out r = Done res)
  ∧ createdLogins (events r) = Uid <$> news
  ∧ (NoDup (Uid <$> ldapusers sync) →
     creations (events r) = creationOf <$> news
     ∧ ∀ d, d ∈ news →
            length (filter (λ login, login = Uid d) (createdLogins (events r))) = 1).
Proof using typed.
  intros Hdest news r.
  destruct (refreshUyuniUsersStatus_run sync st) as (evs & Hrun & _).
  destruct (classify_spec sync) as (uyuni' & _ & _ & _ & Hsame & Hmark & _).
  pose proof (GetNewUsers_classify sync Hdest) as Hnews. fold news in Hnews.
  assert (createdLogins (events r) = Uid <$> news) as Hlogins.
  { destruct (SyncUsers_exact uc_Call
                (λ c, match c with user_create login _ _ _ _ _ => [login] | _ => [] end)
                typed ltac:(done) ltac:(done) ltac:(done) ltac:(done) ltac:(done)
                (classify sync) st') as (res & _ & _ & Hevs).
    unfold createdLogins. fold r in Hevs. rewrite Hevs, Hnews, bind_nil, app_nil_r.
    cbn. rewrite bind_singleton, <- !list_fmap_compose. apply list_fmap_ext.
    intros _ d _. cbn.
    by destruct (updateFromLDAPUser_fields (classify sync) (set_new true d)) as [-> _]. }
  split_and!; [by eexists| |..|done|].
  - intros i d Hd Hnotin. exists (set_new true d). split_and!; [by apply Hmark|done..].
  - destruct (SyncUsers_exact uc_Call (λ _, @nil unit) typed
                ltac:(done) ltac:(done) ltac:(done) ltac:(done) ltac:(done)
                (classify sync) st') as (res & Hout & _). by exists res.
  - intros Hnodup. split.
    + destruct (SyncUsers_exact uc_Call
                  (λ c, match c with user_create _ _ _ _ _ _ => [c] | _ => [] end)
                  typed ltac:(done) ltac:(done) ltac:(done) ltac:(done) ltac:(done)
                  (classify sync) st') as (res & _ & _ & Hevs).
      unfold creations. fold r in Hevs. rewrite Hevs, Hnews, bind_nil, app_nil_r.
      cbn. rewrite bind_singleton, <- !list_fmap_compose. apply list_fmap_ext.
      intros i d Hd%list_elem_of_lookup_2. cbn.
      apply list_elem_of_filter in Hd as [_ Hd].
      apply list_elem_of_lookup in Hd as [j Hj].
      destruct (Forall2_lookup_l _ _ _ _ _ Hsame Hj) as (d' & Hd' & Hdata).
      rewrite (updateFromLDAPUser_unique (classify sync) (set_new true d) d').
      * unfold creationOf. by destruct Hdata as (-> & -> & -> & -> & _).
      * by rewrite (sameData_Uid _ _ Hsame).
      * by eapply list_elem_of_lookup_2.
      * by destruct Hdata as (-> & _).
    + intros d Hd. rewrite Hlogins. apply count_NoDup.
      * eapply sublist_NoDup; [exact Hnodup|].
        apply fmap_sublist, sublist_filter.
      * by apply list_elem_of_fmap_2.
Qed.

(** C5: a user of the full directory set whose uid the destination-derived
    set has and the staged set has not is classified as deleted, and the
    push issues one deletion call for each such user, in their order;
    with distinct uids in the full set there is exactly one deletion call
    of the uid of the user. *)
Theorem dropped_users_classified_and_deleted sync st st' :
  let r := SyncUsers uc_Call (classify sync) st' in
  (∃ evs, refreshUyuniUsersStatus sync st = mkResult (Done (classify sync)) st evs)
  ∧ (∀ u, u ∈ allldapusers sync →
          in_ u (uyuniusers sync) = true → in_ u (ldapusers sync) = false →
          u ∈ GetDeletedUsers (classify sync))
  ∧ (∃ res, out r = Done res)
  ∧ deletions (events r) = Uid <$> GetDeletedUsers (classify sync)
  ∧ (NoDup (Uid <$> allldapusers sync) →
     ∀ u, u ∈ GetDeletedUsers (classify sync) →
          length (filter (λ login, login = Uid u) (deletions (events r))) = 1).
Proof using typed.
  intros r. destruct (refreshUyuniUsersStatus_run sync st) as (evs & Hrun & _).
  pose proof (GetDeletedUsers_classify sync) as Hdel.
  assert (deletions (events r) = Uid <$> GetDeletedUsers (classify sync)) as Hcalls.
  { destruct (SyncUsers_exact uc_Call
                (λ c, match c with user_delete login => [login] | _ => [] end)
                typed ltac:(done) ltac:(done) ltac:(done) ltac:(done) ltac:(done)
                (classify sync) st') as (res & _ & _ & Hevs).
    unfold deletions. fold r in Hevs. unfold creationOf in Hevs.
    rewrite Hevs, bind_nil. cbn. by rewrite bind_singleton. }
  split_and!; [by eexists| | |done|].
  - intros u Hu Hdest Hstaged. rewrite Hdel. by apply list_elem_of_filter.
  - destruct (SyncUsers_exact uc_Call (λ _, @nil unit) typed
                ltac:(done) ltac:(done) ltac:(done) ltac:(done) ltac:(done)
                (classify sync) st') as (res & Hout & _). by exists res.
  - intros Hnodup u Hu. rewrite Hcalls. apply count_NoDup.
    + eapply sublist_NoDup; [exact Hnodup|].
      rewrite Hdel. apply fmap_sublist, sublist_filter.
    + by apply list_elem_of_fmap_2.
Qed.
End PushOfClassified.

Lemma store_Call_listRoles_typed : listRoles_typed store_Call.
Proof.
  intros login st. unfold store_Call. destruct (st !! login) as [a|]; cbn; eauto.
Qed.

Lemma new_users_marked_and_created_witness :
  createdLogins (events (SyncUsers store_Call (classify Sets.before) Example.store))
  = ["alice"].
Proof.
  destruct (new_users_marked_and_created store_Call store_Call_listRoles_typed
              Sets.before Example.store Example.store)
    as (_ & _ & _ & Hlogins & _).
  - vm_compute. repeat constructor.
  - rewrite Hlogins. by vm_compute.
Defined.

Lemma dropped_users_classified_and_deleted_witness :
  deletions (events (SyncUsers store_Call (classify Sets.before) Example.store))
  = ["bob"].
Proof.
  destruct (dropped_users_classified_and_deleted store_Call
              store_Call_listRoles_typed Sets.before Example.store Example.store)
    as (_ & _ & _ & Hcalls & _).
  rewrite Hcalls. by vm_compute.
Defined.

(** ** Outdated users *)

Lemma overwrite_lookup user uyuni j v :
  uyuni !! j = Some v →
  overwrite user uyuni !! j
  = Some (if String.eqb (Uid v) (Uid user) then overwritten user v else v).
Proof. intros Hv. unfold overwrite. by rewrite list_lookup_fmap, Hv. Qed.

Lemma firstOf_overwrite_other uid user uyuni :
  Uid user ≠ uid → firstOf uid (overwrite user uyuni) = firstOf uid uyuni.
Proof.
  intros Hne. unfold overwrite. induction uyuni as [|x uyuni IH]; [done|]. cbn.
  destruct (String.eqb_spec (Uid x) (Uid user)) as [Heq|Hx].
  - destruct (overwritten_fields user x) as (-> & _).
    rewrite !(proj2 (String.eqb_neq _ _)) by congruence. apply IH.
  - by rewrite IH.
Qed.


(** Destination users of a uid that no staged user has are left alone. *)
Lemma classifyLoop_untouched pending ldap uyuni newusers j v :
  uyuni !! j = Some v →
  Uid v ∉ Uid <$> pending →
  (classifyLoop pending ldap uyuni newusers).1.2 !! j = Some v.
Proof.
  revert ldap uyuni newusers. induction pending as [|x pending IH];
    intros ldap uyuni newusers Hv Hnot; cbn [classifyLoop]; [done|].
  apply IH.
  - rewrite (overwrite_lookup _ _ _ _ Hv).
    destruct (classified_fields x uyuni) as (-> & _).
    rewrite (proj2 (String.eqb_neq _ _)); [done|].
    intros Heq. apply Hnot. rewrite Heq. left.
  - intros ?. apply Hnot. by right.
Qed.





(** ** The role push *)

Section RolePush.
Context {St : Type}.
Variable uc_Call : Call → St → Reply * St.
Implicit Types st : St.

Lemma logged_call c (onFail : string → M St unit) (onOk : M St unit) :
  (∀ err, exact (select (λ c, [c])) [] (λ _, True) (onFail err)) →
  exact (select (λ c, [c])) [] (λ _, True) onOk →
  exact (select (λ c, [c])) [c] (λ _, True)
    (let* r := uc uc_Call c in
     match r with
     | Failed err => onFail err
     | Returned _ => onOk
     end).
Proof.
  intros Hfail Hok. eapply exact_bind_r; [apply exact_uc|].
  intros [err|v] _; [apply Hfail|apply Hok].
Qed.

(** The calls of a role push whose listing of the current roles
    succeeds: the listing, the removal of every role listed, the addition
    of every role of the user. *)
Lemma pushUserRolesToUyuni_calls u st st1 current :
  uc_Call (user_listRoles (Uid u)) st
  = (Returned (VArray (VString <$> current)), st1) →
  out (pushUserRolesToUyuni uc_Call u st) = Done ()
  ∧ calls (events (pushUserRolesToUyuni uc_Call u st))
    = user_listRoles (Uid u)
      :: (user_removeRole (Uid u) <$> current)
      ++ (user_addRole (Uid u) <$> GetRoles u).
Proof.
  intros Hcall. unfold pushUserRolesToUyuni. rewrite bind_unfold.
  cbn [uc out final events]. rewrite Hcall. cbn [fst snd].
  match goal with |- context [out (?k st1)] =>
    assert (exact (select (λ c, [c]))
              ((user_removeRole (Uid u) <$> current)
               ++ (user_addRole (Uid u) <$> GetRoles u))
              (λ _, True) k) as Hk
  end.
  { eapply exact_bind_l;
      [by apply (exact_ret _ (λ items, items = VString <$> current))|].
    intros items ->. eapply exact_bind.
    - eapply exact_weaken;
        [apply (exact_forM_ _ (λ item, match item with
                                       | VString role => [user_removeRole (Uid u) role]
                                       | _ => []
                                       end))| |done].
      + intros item (role & -> & _)%list_elem_of_fmap. cbn [asString].
        eapply exact_bind_l; [by apply (exact_ret _ (λ r, r = role))|].
        intros ? ->. apply logged_call; intros; by apply exact_logf.
      + clear. induction current as [|r current IH]; [done|]. cbn. by rewrite IH.
    - intros _ _.
      eapply exact_weaken;
        [apply (exact_forM_ _ (λ role, [user_addRole (Uid u) role]))
        |apply bind_singleton|done].
      intros role _. apply logged_call; intros; by apply exact_logf. }
  destruct (Hk st1) as ([] & Hout & _ & Hevs). rewrite Hout. split; [done|].
  unfold calls in *. rewrite bind_app, Hevs. done.
Qed.
End RolePush.

Lemma removeAll_elem rs removed r :
  r ∈ removeAll rs removed ↔ r ∈ rs ∧ r ∉ removed.
Proof.
  unfold removeAll. revert rs. induction removed as [|x removed IH]; intros rs; cbn.
  - rewrite elem_of_nil. naive_solver.
  - rewrite IH, list_elem_of_filter, elem_of_cons. naive_solver.
Qed.

Lemma removeAll_self rs : removeAll rs rs = [].
Proof.
  destruct (removeAll rs rs) as [|r l] eqn:H; [done|].
  assert (r ∈ removeAll rs rs) as Hr by (rewrite H; left).
  apply removeAll_elem in Hr as [? ?]. done.
Qed.

Lemma addAll_spec rs added :
  (∀ r, r ∈ addAll rs added ↔ r ∈ rs ∨ r ∈ added)
  ∧ (NoDup rs → NoDup (addAll rs added)).
Proof.
  unfold addAll. revert rs. induction added as [|x added IH]; intros rs; cbn.
  - split; [|done]. intros r. rewrite elem_of_nil. naive_solver.
  - destruct (IH (if bool_decide (x ∈ rs) then rs else rs ++ [x])) as [Hin Hnd].
    split.
    + intros r. rewrite Hin, elem_of_cons. case_bool_decide; [naive_solver|].
      rewrite elem_of_app, list_elem_of_singleton. naive_solver.
    + intros Hrs. apply Hnd. case_bool_decide; [done|].
      apply NoDup_app. split_and!; [done| |apply NoDup_singleton].
      by intros y Hy ->%list_elem_of_singleton.
Qed.

(** A role push on the reference store: the account of the user is left
    with the roles of the user, each once, whatever roles it had; its
    other data and the other accounts stay. *)
Lemma pushUserRolesToUyuni_store u (store : gmap string Account) a :
  store !! Uid u = Some a →
  ∃ evs,
    pushUserRolesToUyuni store_Call u store
    = mkResult (Done ()) (<[Uid u := withRoles a (addAll [] (GetRoles u))]> store) evs.
Proof.
  intros Ha. unfold pushUserRolesToUyuni.
  assert (∀ removed (st : gmap string Account) b,
            st !! Uid u = Some b →
            ∃ evs,
              forM_ (VString <$> removed)
                (λ item,
                   let* role := asString item in
                   let* r := uc store_Call (user_removeRole (Uid u) role) in
                   match r with
                   | Failed err => logf Error ["Cannot remove role '"; role; "': "; err]
                   | Returned _ => logf Debug ["Removed role '"; role; "'"]
                   end) st
              = mkResult (Done ())
                  (<[Uid u := withRoles b (removeAll (acc_roles b) removed)]> st) evs)
    as Hremove.
  { induction removed as [|x removed IH]; intros st b Hb.
    - exists []. cbn. unfold ret. f_equal. symmetry. apply insert_id.
      rewrite Hb. by destruct b.
    - cbn [fmap list_fmap forM_].
      set (b' := withRoles b (filter (λ r, r ≠ x) (acc_roles b))).
      destruct (IH (<[Uid u := b']> st) b' (lookup_insert_eq _ _ _)) as (evs & Hrest).
      eexists. eapply bind_run; [|rewrite Hrest; f_equal; by rewrite insert_insert_eq].
      eapply bind_run; [reflexivity|]. eapply bind_run.
      + unfold uc, store_Call. by rewrite Hb.
      + cbn [fst snd]. reflexivity. }
  assert (∀ added (st : gmap string Account) b,
            st !! Uid u = Some b →
            ∃ evs,
              forM_ added
                (λ role,
                   let* r := uc store_Call (user_addRole (Uid u) role) in
                   match r with
                   | Failed err => logf Error ["Cannot add role '"; role; "': "; err]
                   | Returned _ => logf Debug ["Added role '"; role; "'"]
                   end) st
              = mkResult (Done ())
                  (<[Uid u := withRoles b (addAll (acc_roles b) added)]> st) evs)
    as Hadd.
  { induction added as [|x added IH]; intros st b Hb.
    - exists []. cbn. unfold ret. f_equal. symmetry. apply insert_id.
      rewrite Hb. by destruct b.
    - cbn [forM_].
      set (b' := withRoles b (if bool_decide (x ∈ acc_roles b) then acc_roles b
                              else acc_roles b ++ [x])).
      destruct (IH (<[Uid u := b']> st) b' (lookup_insert_eq _ _ _)) as (evs & Hrest).
      eexists. eapply bind_run; [|rewrite Hrest; f_equal; by rewrite insert_insert_eq].
      eapply bind_run.
      + unfold uc, store_Call. by rewrite Hb.
      + cbn [fst snd]. reflexivity. }
  destruct (Hremove (acc_roles a) store a Ha) as (evs1 & Hrun1).
  rewrite removeAll_self in Hrun1.
  destruct (Hadd (GetRoles u) (<[Uid u := withRoles a []]> store) (withRoles a [])
              (lookup_insert_eq _ _ _)) as (evs2 & Hrun2).
  eexists. eapply bind_run.
  - unfold uc, store_Call. by rewrite Ha.
  - cbn [fst snd]. eapply bind_run; [reflexivity|].
    eapply bind_run; [exact Hrun1|]. rewrite Hrun2. f_equal.
    by rewrite insert_insert_eq.
Qed.


Section OutdatedRoles.
Context {St : Type}.
Variable uc_Call : Call → St → Reply * St.
Implicit Types st : St.

End OutdatedRoles.


(** ** Frozen uids *)

Lemma writeBack_Forall (Q : UyuniUser → Prop) news users :
  Forall Q news → Forall Q users → Forall Q (writeBack news users).
Proof.
  intros Hnews Husers. revert news Hnews.
  induction Husers as [|u users Hu Husers IH]; intros news Hnews; [done|].
  cbn [writeBack]. destruct (IsNew u).
  - destruct Hnews as [|n news Hn Hnews]; [by constructor|].
    constructor; [done|by apply IH].
  - constructor; [done|by apply IH].
Qed.

Section Frozen.
Context {St : Type}.
Variable uc_Call : Call → St → Reply * St.
Variable ldap_Dial : string → string → option string.
Variable ldap_Search : SearchRequest → string + list Entry.
Variable range : ∀ A : Type, list A → list A.
Variable frozen : list string.

Abbreviation P := (sparesFrozen frozen).

Lemma ok_read c : writeTarget c = None → ok P (λ _, True) (uc uc_Call c).
Proof. intros Hc. apply ok_uc. cbn. intros uid. by rewrite Hc. Qed.

Lemma ok_write c uid :
  writeTarget c = Some uid → uid ∉ frozen → ok P (λ _, True) (uc uc_Call c).
Proof. intros Hc Huid. apply ok_uc. cbn. intros uid'. rewrite Hc. by intros [= <-]. Qed.

Lemma ok_log l parts : ok (St:=St) P (λ _, True) (logf l parts).
Proof. by apply ok_logf. Qed.

Lemma ok_Search lc request :
  ok (St:=St) P (λ _, True) (Search ldap_Search lc request).
Proof.
  unfold Search. destruct (lc_conn lc); [|apply ok_panic].
  eapply (ok_bind _ (λ _, True)); [by apply ok_emit|]. intros _ _.
  destruct (ldap_Search request); [by apply ok_fatal|by apply ok_ret].
Qed.

Lemma ok_logged c (onFail : string → M St unit) (onOk : M St unit) :
  ok P (λ _, True) (uc uc_Call c) →
  (∀ err, ok P (λ _, True) (onFail err)) →
  ok P (λ _, True) onOk →
  ok P (λ _, True)
    (let* r := uc uc_Call c in
     match r with
     | Failed err => onFail err
     | Returned _ => onOk
     end).
Proof.
  intros Hc Hfail Hok. eapply ok_bind; [exact Hc|].
  intros [err|v] _; [apply Hfail|apply Hok].
Qed.

Lemma ok_pushUserRolesToUyuni u :
  notFrozen frozen u → ok P (λ _, True) (pushUserRolesToUyuni uc_Call u).
Proof.
  intros Hu. unfold pushUserRolesToUyuni. eapply ok_bind; [by apply ok_read|].
  intros [err|v] _; [apply ok_log|].
  eapply ok_bind; [apply ok_asArray|]. intros items _.
  eapply ok_bind.
  - apply ok_forM_. intros item _. eapply ok_bind; [apply ok_asString|].
    intros role _. apply ok_logged; [by eapply ok_write|intros; apply ok_log..].
  - intros _ _. apply ok_forM_. intros role _.
    apply ok_logged; [by eapply ok_write|intros; apply ok_log..].
Qed.

Lemma ok_pushUserAccountDataToUyuni u :
  notFrozen frozen u → ok P (λ _, True) (pushUserAccountDataToUyuni uc_Call u).
Proof.
  intros Hu. unfold pushUserAccountDataToUyuni.
  apply ok_logged; [by eapply ok_write|intros; apply ok_log|].
  apply ok_logged; [by eapply ok_write|intros; apply ok_log|by apply ok_ret].
Qed.

Lemma ok_deleteUser u :
  notFrozen frozen u → ok P (λ _, True) (deleteUser uc_Call u).
Proof.
  intros Hu. unfold deleteUser. eapply ok_bind; [by eapply ok_write|].
  intros [err|v] _; [apply ok_log|by apply ok_ret].
Qed.

Lemma ok_createUser u :
  notFrozen frozen u → ok P (notFrozen frozen) (createUser uc_Call u).
Proof.
  intros Hu. unfold createUser. eapply ok_bind; [apply ok_log|]. intros _ _.
  eapply ok_bind; [by eapply ok_write|]. intros r _.
  destruct (negb (IsValid _)).
  - eapply ok_bind; [apply ok_log|]. intros _ _. by apply ok_ret.
  - eapply ok_bind; [by apply ok_pushUserRolesToUyuni|]. intros _ _.
    by apply ok_ret.
Qed.

Lemma ok_createUsers newUsers :
  Forall (notFrozen frozen) newUsers →
  ok P (λ p, Forall (notFrozen frozen) p.1) (createUsers uc_Call newUsers).
Proof.
  intros Hnew. unfold createUsers.
  apply (ok_foldM _ (λ p : list UyuniUser * list UyuniUser,
                       Forall (notFrozen frozen) p.1)); [by constructor|].
  intros [users failed] u Husers Hu. cbn [fst] in Husers.
  eapply ok_bind.
  - apply ok_createUser. rewrite Forall_forall in Hnew. by apply Hnew.
  - intros u' Hu'. destruct (negb (IsValid u')); apply ok_ret; cbn [fst];
      apply Forall_app; by repeat constructor.
Qed.

(** The push writes to uids of [sync.uyuniusers] only. *)
Lemma ok_SyncUsers sync :
  Forall (notFrozen frozen) (uyuniusers sync) →
  ok P (λ _, True) (SyncUsers uc_Call sync).
Proof.
  intros Husers. unfold SyncUsers. eapply ok_bind; [apply ok_log|]. intros _ _.
  unfold GetNewUsers. cbv beta iota zeta.
  set (users' := (λ user, if IsNew user then updateFromLDAPUser sync user else user)
                   <$> uyuniusers sync).
  set (newUsers := filter (λ user, IsNew user = true) users').
  assert (Forall (notFrozen frozen) users') as Husers'.
  { subst users'. apply Forall_fmap. eapply Forall_impl; [exact Husers|].
    intros u Hu. unfold notFrozen. cbn. destruct (IsNew u); [|done].
    by destruct (updateFromLDAPUser_fields sync u) as [-> _]. }
  assert (Forall (notFrozen frozen) newUsers) as Hnew.
  { apply Forall_forall. intros u [_ Hu]%list_elem_of_filter.
    rewrite Forall_forall in Husers'. by apply Husers'. }
  eapply ok_bind with (Q := λ p, Forall (notFrozen frozen) p.1).
  - case_bool_decide.
    + eapply ok_bind; [apply ok_log|]. intros _ _. by apply ok_createUsers.
    + by apply ok_ret.
  - intros [created failed] Hcreated. cbn [fst] in Hcreated.
    cbn [uyuniusers set_uyuniusers].
    set (sync' := set_uyuniusers (writeBack created users') _).
    assert (Forall (notFrozen frozen) (uyuniusers sync')) as Hsync'
      by by apply writeBack_Forall.
    eapply ok_bind with (Q := λ _, True).
    + case_bool_decide; [|by apply ok_ret].
      eapply ok_bind; [apply ok_log|]. intros _ _.
      apply ok_forM_. intros u Hu%list_elem_of_filter.
      assert (notFrozen frozen u) as Hnf
        by (rewrite Forall_forall in Hsync'; apply Hsync', Hu).
      eapply ok_bind; [apply ok_log|]. intros _ _.
      eapply ok_bind; [by apply ok_pushUserRolesToUyuni|]. intros _ _.
      by apply ok_pushUserAccountDataToUyuni.
    + intros _ _. eapply ok_bind with (Q := λ _, True).
      * case_bool_decide; [|by apply ok_ret].
        eapply ok_bind; [apply ok_log|]. intros _ _.
        apply ok_forM_. intros u [Hu _]%list_elem_of_filter.
        apply andb_prop_elim in Hu as [_ Hin]. apply Is_true_true in Hin.
        apply in_elem in Hin.
        apply list_elem_of_fmap in Hin as (v & Huid & Hv).
        assert (notFrozen frozen u) as Hnf.
        { rewrite Forall_forall in Hsync'. unfold notFrozen. rewrite Huid.
          by apply Hsync'. }
        eapply ok_bind; [apply ok_log|]. intros _ _. by apply ok_deleteUser.
      * intros _ _. eapply ok_bind; [apply ok_log|]. intros _ _.
        eapply ok_bind; [apply ok_log|]. intros _ _. by apply ok_ret.
Qed.
End Frozen.

Lemma mergeInto_Uid user entries attribute uyuniRoles :
  Uid (mergeInto user entries attribute uyuniRoles) = Uid user.
Proof.
  unfold mergeInto. revert user. induction entries as [|entry entries IH];
    intros user; cbn [foldl]; [done|].
  rewrite IH. generalize (GetAttributeValues entry attribute) as vs. intros vs.
  revert user. induction vs as [|v vs IHv]; intros user; cbn [foldl]; [done|].
  rewrite IHv. destruct (String.eqb v (Dn user)); [|done].
  by destruct (AddRoles_fields uyuniRoles user) as (_ & -> & _).
Qed.

Section FrozenRun.
Context {St : Type}.
Variable uc_Call : Call → St → Reply * St.
Variable ldap_Dial : string → string → option string.
Variable ldap_Search : SearchRequest → string + list Entry.
Variable range : ∀ A : Type, list A → list A.
Variable frozen : list string.

Abbreviation P := (sparesFrozen frozen).
Abbreviation nf := (notFrozen frozen).

Lemma ok_Connect lc : ok (St:=St) P (λ _, True) (Connect ldap_Dial lc).
Proof.
  unfold Connect. destruct (lc_conn lc); [by apply ok_ret|].
  destruct (ldap_Dial _ _); [by apply ok_fatal|by apply ok_ret].
Qed.

Lemma ok_hasOrgAdmin items : ok (St:=St) P (λ _, True) (hasOrgAdmin items).
Proof.
  induction items as [|item items IH]; cbn [hasOrgAdmin]; [by apply ok_ret|].
  eapply ok_bind; [apply ok_asString|]. intros role _.
  destruct (String.eqb role "org_admin"); [by apply ok_ret|apply IH].
Qed.

Lemma ok_findFrozenAdmin uids : ok P (λ _, True) (findFrozenAdmin uc_Call uids).
Proof.
  induction uids as [|uid uids IH]; cbn [findFrozenAdmin]; [by apply ok_ret|].
  eapply ok_bind; [by apply (ok_read uc_Call)|]. intros [err|v] _.
  - eapply ok_bind; [apply ok_log|]. intros _ _. apply IH.
  - eapply ok_bind; [apply ok_asArray|]. intros items _.
    eapply ok_bind; [apply ok_hasOrgAdmin|]. intros [|] _; [by apply ok_ret|apply IH].
Qed.

Lemma ok_verifyIgnoredUsers sync : ok P (λ _, True) (verifyIgnoredUsers uc_Call sync).
Proof.
  unfold verifyIgnoredUsers. eapply ok_bind; [apply ok_findFrozenAdmin|].
  intros [|] _; cbn [negb]; [by apply ok_ret|by apply ok_fatal].
Qed.

Lemma ok_existingUserOf sync users usrdata :
  Frozen (cr sync) = frozen →
  Forall nf users →
  ok P (Forall nf) (existingUserOf uc_Call sync users usrdata).
Proof.
  intros Hfrozen Husers. unfold existingUserOf.
  eapply ok_bind; [apply ok_asMap|]. intros fields _.
  eapply ok_bind; [apply ok_asString|]. intros uid _.
  unfold Contains. rewrite Hfrozen. case_bool_decide as Huid; [by apply ok_ret|].
  eapply ok_bind; [by apply (ok_read uc_Call)|]. intros [err|v] _; [by apply ok_fatal|].
  eapply ok_bind; [apply ok_asMap|]. intros userDetails _.
  eapply ok_bind; [apply ok_asString|]. intros email _.
  eapply ok_bind; [apply ok_asString|]. intros first_name _.
  eapply ok_bind; [apply ok_asString|]. intros last_name _.
  eapply ok_bind; [by apply (ok_read uc_Call)|].
  intros [err|v'] _; [by apply ok_fatal|].
  eapply ok_bind; [apply ok_asArray|]. intros items _.
  eapply ok_bind.
  - apply (ok_foldM _ (λ user, Uid user = uid)); [done|].
    intros user roleItf Huser _. eapply ok_bind; [apply ok_asString|].
    intros role _. apply ok_ret.
    by destruct (AddRoles_fields [role] user) as (_ & -> & _).
  - intros user Huser. apply ok_ret. apply Forall_app. split; [done|].
    repeat constructor. unfold notFrozen. by rewrite Huser.
Qed.

Lemma ok_refreshExistingUyuniUsers sync :
  Frozen (cr sync) = frozen →
  ok P (λ s, Forall nf (uyuniusers s) ∧ cr s = cr sync ∧ lc s = lc sync)
    (refreshExistingUyuniUsers uc_Call sync).
Proof.
  intros Hfrozen. unfold refreshExistingUyuniUsers.
  eapply ok_bind; [by apply (ok_read uc_Call)|]. intros [err|v] _; [by apply ok_fatal|].
  eapply ok_bind; [apply ok_asArray|]. intros items _.
  eapply ok_bind.
  - apply (ok_foldM _ (Forall nf)); [constructor|].
    intros users usrdata Husers _. by apply ok_existingUserOf.
  - intros users Husers. by apply ok_ret.
Qed.

Lemma ok_newUserFromDN sync dn :
  ok (St:=St) P (λ _, True) (newUserFromDN ldap_Search sync dn).
Proof.
  unfold newUserFromDN. eapply ok_bind; [apply ok_Search|].
  intros [|entry [|? ?]] _.
  - eapply ok_bind; [apply ok_log|]. intros _ _. by apply ok_ret.
  - destruct (Split _ _) as [|? [|? [|? ?]]]; by apply ok_ret.
  - eapply ok_bind; [apply ok_log|]. intros _ _. by apply ok_ret.
Qed.

Lemma ok_updateLDAPUserRoles sync user :
  ok (St:=St) P (λ user', Uid user' = Uid user)
    (updateLDAPUserRoles ldap_Search range sync user).
Proof.
  unfold updateLDAPUserRoles.
  apply (ok_foldM _ (λ user', Uid user' = Uid user)); [done|].
  intros user1 searchConfig Huser1 _.
  apply (ok_foldM _ (λ user', Uid user' = Uid user)); [done|].
  intros user2 [dn uyuniRoles] Huser2 _. unfold mergeRolesByAttributes.
  eapply ok_bind; [apply ok_Search|]. intros entries _. apply ok_ret.
  by rewrite <- Huser2, <- (mergeInto_Uid user2 entries (sc_attribute searchConfig)
                              uyuniRoles).
Qed.

Lemma ok_stagedDNs sync : ok (St:=St) P (λ _, True) (stagedDNs ldap_Search range sync).
Proof.
  unfold stagedDNs. apply (ok_foldM _ (λ _, True)); [done|].
  intros udns roleset _ _. apply (ok_foldM _ (λ _, True)); [done|].
  intros udns' [gdn ?] _ _. eapply ok_bind; [apply ok_Search|].
  intros entries _. by apply ok_ret.
Qed.

Lemma ok_stagedUserOf sync users udn :
  Frozen (cr sync) = frozen →
  Forall nf users →
  ok (St:=St) P (Forall nf) (stagedUserOf ldap_Search range sync users udn).
Proof.
  intros Hfrozen Husers. unfold stagedUserOf.
  eapply ok_bind; [apply ok_newUserFromDN|]. intros user _.
  unfold Contains. rewrite Hfrozen.
  destruct (negb (String.eqb (Uid user) "")); cbn [andb]; [|by apply ok_ret].
  case_bool_decide as Huid; cbn [negb]; [by apply ok_ret|].
  eapply ok_bind; [apply ok_updateLDAPUserRoles|]. intros user' Huser'.
  apply ok_ret. apply Forall_app. split; [done|]. repeat constructor.
  unfold notFrozen. by rewrite Huser'.
Qed.

Lemma ok_refreshStagedLDAPUsers sync :
  Frozen (cr sync) = frozen →
  ok (St:=St) P
    (λ s, Forall nf (ldapusers s) ∧ uyuniusers s = uyuniusers sync
          ∧ cr s = cr sync ∧ lc s = lc sync)
    (refreshStagedLDAPUsers ldap_Search range sync).
Proof.
  intros Hfrozen. unfold refreshStagedLDAPUsers.
  eapply ok_bind; [apply ok_stagedDNs|]. intros udns _.
  eapply ok_bind.
  - apply (ok_foldM _ (Forall nf)); [constructor|].
    intros users udn Husers _. by apply ok_stagedUserOf.
  - intros users Husers. by apply ok_ret.
Qed.

Lemma ok_refreshAllLDAPUsers sync :
  ok (St:=St) P
    (λ s, ldapusers s = ldapusers sync ∧ uyuniusers s = uyuniusers sync
          ∧ cr s = cr sync ∧ lc s = lc sync)
    (refreshAllLDAPUsers ldap_Search sync).
Proof.
  unfold refreshAllLDAPUsers. eapply ok_bind; [apply ok_Search|]. intros entries _.
  eapply ok_bind.
  - apply (ok_foldM _ (λ _, True)); [done|]. intros users entry _ _.
    eapply ok_bind; [apply ok_newUserFromDN|]. intros user _. by apply ok_ret.
  - intros users _. by apply ok_ret.
Qed.

Lemma classify_notFrozen sync :
  Forall nf (ldapusers sync) → Forall nf (uyuniusers sync) →
  Forall nf (ldapusers (classify sync)) ∧ Forall nf (uyuniusers (classify sync)).
Proof.
  intros Hstaged Hdest.
  destruct (classify_spec sync) as (uyuni' & Heq & Huid & _ & Hsame & _).
  assert (∀ l l', Uid <$> l' = Uid <$> l → Forall nf l → Forall nf l') as Hsameuid.
  { intros l l' Hl Hnf. apply Forall_forall. intros u Hu.
    rewrite Forall_forall in Hnf.
    assert (Uid u ∈ Uid <$> l) as (v & Hv & Hvl)%list_elem_of_fmap
      by (rewrite <- Hl; by apply list_elem_of_fmap_2).
    unfold notFrozen. rewrite Hv. by apply Hnf. }
  split.
  - eapply Hsameuid; [|exact Hstaged]. by apply sameData_Uid.
  - rewrite Heq. apply Forall_app. split.
    + eapply Hsameuid; [exact Huid|exact Hdest].
    + apply Forall_forall.
      intros u (d & -> & [_ Hd]%list_elem_of_filter)%list_elem_of_fmap.
      rewrite Forall_forall in Hstaged. exact (Hstaged d Hd).
Qed.

Lemma ok_refreshUyuniUsersStatus sync :
  Forall nf (ldapusers sync) → Forall nf (uyuniusers sync) →
  ok (St:=St) P (λ s, Forall nf (ldapusers s) ∧ Forall nf (uyuniusers s))
    (refreshUyuniUsersStatus sync).
Proof.
  intros Hstaged Hdest st.
  destruct (refreshUyuniUsersStatus_run sync st) as (evs & -> & Hevs).
  cbn [out events]. split.
  - eapply Forall_impl; [exact Hevs|]. by intros ev [msg ->].
  - intros s [= <-]. by apply classify_notFrozen.
Qed.

Lemma ok_Start sync :
  Frozen (cr sync) = frozen →
  ok P (λ s, Forall nf (ldapusers s) ∧ Forall nf (uyuniusers s))
    (Start uc_Call ldap_Dial ldap_Search range sync).
Proof.
  intros Hfrozen. unfold Start.
  eapply ok_bind; [apply ok_Connect|]. intros lc' _.
  eapply ok_bind; [apply ok_verifyIgnoredUsers|]. intros _ _.
  eapply ok_bind; [by apply ok_refreshExistingUyuniUsers|].
  intros s1 (Hdest1 & Hcr1 & _). cbn in Hcr1.
  eapply ok_bind; [apply ok_refreshStagedLDAPUsers; by rewrite Hcr1|].
  intros s2 (Hstaged2 & Hdest2 & _).
  eapply ok_bind; [apply ok_refreshAllLDAPUsers|].
  intros s3 (Hstaged3 & Hdest3 & _).
  apply ok_refreshUyuniUsersStatus; [by rewrite Hstaged3|].
  by rewrite Hdest3, Hdest2.
Qed.

Lemma ok_Run cfg :
  Frozen cfg = frozen →
  ok P (λ _, True) (Run uc_Call ldap_Dial ldap_Search range cfg).
Proof.
  intros Hfrozen. unfold Run. eapply ok_bind; [by apply ok_Start|].
  intros s [_ Hdest]. eapply ok_bind; [by apply ok_SyncUsers|].
  intros [s' failed] _. eapply (ok_bind _ (λ _, True)).
  - unfold Finish, Disconnect. eapply (ok_bind _ (λ _, True)).
    + by destruct (lc_conn (lc s')); apply ok_ret.
    + intros ? _. by apply ok_ret.
  - intros _ _. by apply ok_ret.
Qed.
End FrozenRun.

(** C2: in any run, whatever the directory and the destination hold, no
    create, setDetails, usePamAuthentication, delete, addRole or
    removeRole call targets a frozen uid; and when the engine has
    started, neither the staged set nor the destination-derived set holds
    a frozen uid, and no user classified as deleted has one. *)
Theorem frozen_uids_never_written {St} (uc_Call : Call → St → Reply * St)
    ldap_Dial ldap_Search range cfg (st : St) :
  Forall (sparesFrozen (Frozen cfg))
    (events (Run uc_Call ldap_Dial ldap_Search range cfg st))
  ∧ ∀ sync,
      out (Start uc_Call ldap_Dial ldap_Search range (NewLDAPSync cfg) st)
      = Done sync →
      ∀ u, u ∈ ldapusers sync ∨ u ∈ uyuniusers sync ∨ u ∈ GetDeletedUsers sync →
           Uid u ∉ Frozen cfg.
Proof.
  split.
  - by apply (ok_Run uc_Call ldap_Dial ldap_Search range (Frozen cfg) cfg).
  - intros sync Hsync.
    destruct (ok_Start uc_Call ldap_Dial ldap_Search range (Frozen cfg)
                (NewLDAPSync cfg) eq_refl st) as [_ Hpost].
    destruct (Hpost sync Hsync) as [Hstaged Hdest].
    rewrite Forall_forall in Hstaged, Hdest.
    intros u [Hu|[Hu|Hu]]; [by apply Hstaged|by apply Hdest|].
    apply list_elem_of_filter in Hu as [Hu _].
    apply andb_prop_elim in Hu as [_ Hin]. apply Is_true_true in Hin.
    apply in_elem in Hin. apply list_elem_of_fmap in Hin as (v & -> & Hv).
    by apply Hdest.
Qed.

Lemma frozen_uids_never_written_witness :
  Forall (sparesFrozen ["administrator"]) (events Example.run).
Proof.
  exact (proj1 (frozen_uids_never_written store_Call Example.dial Example.search
                  (λ _ l, l) Example.cfg Example.store)).
Defined.

(** * Further properties of the engine *)

(** ** The account data of a user: [pushUserAccountDataToUyuni] *)

Section AccountPush.
Context {St : Type}.
Variable uc_Call : Call → St → Reply * St.

(** X1: [pushUserAccountDataToUyuni] always returns and never ends the
    run. It calls user.setDetails with the given name as first name and
    the family name as last name; when that call fails it stops there,
    and only when it succeeds it goes on to switch the account to PAM
    authentication (value 1). *)
Theorem pushUserAccountDataToUyuni_stops_at_failure user st :
  let c1 := user_setDetails (Uid user) (Name user) (Secondname user) (Email user) in
  let c2 := user_usePamAuthentication (Uid user) 1 in
  let r := pushUserAccountDataToUyuni uc_Call user st in
  out r = Done ()
  ∧ Forall (λ ev, ¬ fatalLog ev) (events r)
  ∧ match (uc_Call c1 st).1 with
    | Failed _ => calls (events r) = [c1] ∧ final r = (uc_Call c1 st).2
    | Returned _ =>
        calls (events r) = [c1; c2]
        ∧ final r = (uc_Call c2 (uc_Call c1 st).2).2
    end.
Proof.
  intros c1 c2 r. subst r. unfold pushUserAccountDataToUyuni.
  rewrite bind_unfold. cbn [uc out final events]. fold c1.
  destruct (uc_Call c1 st) as [[err|v] st1]; cbn [fst snd out final events].
  - split; [done|]. split; [|done]. repeat constructor; intros [msg [=]].
  - rewrite bind_unfold. cbn [uc out final events]. fold c2.
    destruct (uc_Call c2 st1) as [[err|v'] st2]; cbn [fst snd out final events].
    + split; [done|]. split; [|done]. repeat constructor; intros [msg [=]].
    + split; [done|]. split; [|done]. repeat constructor; intros [msg [=]].
Qed.

(** X2: when the roles of the user cannot be listed, [pushUserRolesToUyuni]
    gives up for that user: it logs the error and returns, and neither
    removes nor adds a role. *)
Theorem pushUserRolesToUyuni_needs_the_listing u st err st1 :
  uc_Call (user_listRoles (Uid u)) st = (Failed err, st1) →
  ∃ msg,
    pushUserRolesToUyuni uc_Call u st
    = mkResult (Done ()) st1 [EvCall (user_listRoles (Uid u)); EvLog Error msg].
Proof.
  intros Hlist. unfold pushUserRolesToUyuni. rewrite bind_unfold.
  cbn [uc out final events]. rewrite Hlist. cbn [fst snd]. by eexists.
Qed.
End AccountPush.

Lemma pushUserRolesToUyuni_needs_the_listing_witness :
  ∃ msg,
    pushUserRolesToUyuni store_Call (set_Uid "alice" NewUyuniUser) Example.store
    = mkResult (Done ()) Example.store
        [EvCall (user_listRoles "alice"); EvLog Error msg].
Proof.
  apply (pushUserRolesToUyuni_needs_the_listing store_Call
           (set_Uid "alice" NewUyuniUser) Example.store "no such user: alice").
  vm_compute. reflexivity.
Defined.

(** ** The connection to the directory: [NewLDAPSync], [Connect], [Start] *)

(** X3: the engine built by [NewLDAPSync] dials the host and the port of
    the configuration over tcp; when the dial fails, [Start] ends the run
    with the error as its only log line: no call reaches the account store
    and the directory is not searched. *)
Theorem failed_dial_ends_the_run {St} (uc_Call : Call → St → Reply * St)
    ldap_Dial ldap_Search range cfg err st :
  ldap_Dial "tcp" (Host cfg +:+ ":" +:+ pretty (Port cfg)) = Some err →
  Start uc_Call ldap_Dial ldap_Search range (NewLDAPSync cfg) st
  = mkResult Exit st [EvLog Fatal err].
Proof.
  intros Hdial. unfold Start. rewrite bind_unfold. unfold Connect.
  cbn [NewLDAPSync lc SetPassword SetUser SetPort SetHost NewLDAPCaller
       lc_conn lc_proto lc_host lc_port].
  rewrite Hdial, fatal_run. done.
Qed.

Lemma failed_dial_ends_the_run_witness :
  ∃ err,
    Start store_Call Unreachable.dial Example.search (λ _ l, l)
      (NewLDAPSync Example.cfg) Example.store
    = mkResult Exit Example.store [EvLog Fatal err].
Proof.
  eexists.
  apply (failed_dial_ends_the_run store_Call Unreachable.dial Example.search
           (λ _ l, l) Example.cfg).
  reflexivity.
Defined.

(** ** Comparison: [sameAsIn] *)

Lemma sameAccount_spec user u :
  sameAccount user u = true ↔
  Email u = Email user ∧ Name u = Name user ∧ Secondname u = Secondname user.
Proof.
  unfold sameAccount. rewrite !andb_true_iff, !String.eqb_eq. naive_solver.
Qed.

Lemma CompareRoles_spec a b :
  CompareRoles a b = true ↔ ∀ r, r ∈ GetRoles a ↔ r ∈ GetRoles b.
Proof.
  unfold CompareRoles. rewrite andb_true_iff, !bool_decide_eq_true.
  split; [intros [Hab Hba] r; split; [apply Hab|apply Hba]|].
  intros H. split; intros r; by rewrite H.
Qed.

Lemma same_unchanged user u : same user u = true ↔ unchanged user u.
Proof.
  unfold same, unchanged. rewrite andb_true_iff, sameAccount_spec, CompareRoles_spec.
  naive_solver.
Qed.

(** X4: the verdict and the diagnostic flags of [sameAsIn]. The user is
    compared with the first user of its uid. The verdict is "same" exactly
    when email, given name, family name and the role set agree;
    [accountchanged] is raised exactly when one of the three account
    fields differs; [roleschanged] is raised whenever the verdict is "not
    same", also when only an account field differs. Nothing else of the
    user changes, the account store is not touched, and a user without a
    counterpart comes back as it was, with an error. *)
Theorem sameAsIn_verdict_and_flags {St} user users (st : St) :
  let r := sameAsIn user users st in
  final r = st ∧ Forall debugLog (events r) ∧
  match firstOf (Uid user) users with
  | None => ∃ msg, out r = Done (user, (false, Some msg))
  | Some u =>
      ∃ user' isSame,
        out r = Done (user', (isSame, None))
        ∧ (isSame = true ↔ unchanged user u)
        ∧ (accountchanged user' = true ↔
           accountchanged user = true
           ∨ ¬ (Email u = Email user ∧ Name u = Name user
                ∧ Secondname u = Secondname user))
        ∧ (roleschanged user' = true ↔ roleschanged user = true ∨ isSame = false)
        ∧ sameData user user' ∧ Dn user' = Dn user
        ∧ new user' = new user ∧ outdated user' = outdated user
  end.
Proof.
  intros r. subst r. destruct (sameAsIn_run user users st) as (evs & -> & Hevs).
  cbn [out final events]. split; [done|]. split; [exact Hevs|].
  destruct (firstOf (Uid user) users) as [u|]; [|by eexists].
  exists (flagged user u), (same user u). split; [done|].
  split; [apply same_unchanged|].
  pose proof (sameAccount_spec user u) as Hacc.
  unfold flagged, same, sameData.
  destruct (sameAccount user u) eqn:Ha.
  - rewrite Ha. cbn [andb].
    destruct (CompareRoles user u); cbn; split_and!; naive_solver.
  - change (sameAccount (set_accountchanged true user) u) with (sameAccount user u).
    rewrite Ha. cbn. split_and!; naive_solver.
Qed.

(** ** The data of a new user: [updateFromLDAPUser] *)

Lemma foldl_AddRoles rs u : foldl (λ u role, AddRoles [role] u) u rs = AddRoles rs u.
Proof. revert u. induction rs as [|r rs IH]; intros u; [done|]. cbn. by rewrite IH. Qed.

(** X5: [updateFromLDAPUser] copies email, given name, family name and
    role set of the staged user of the same uid into the user, the last
    one if several staged users have that uid; uid, DN, flags and error of
    the user stay. Without a staged user of that uid the user is left as
    it is. *)
Theorem updateFromLDAPUser_takes_the_last sync u :
  let u' := updateFromLDAPUser sync u in
  Uid u' = Uid u ∧ Dn u' = Dn u ∧ new u' = new u ∧ outdated u' = outdated u
  ∧ Err u' = Err u
  ∧ match last (filter (λ d, Uid d = Uid u) (ldapusers sync)) with
    | None => u' = u
    | Some d =>
        Email u' = Email d ∧ Name u' = Name d ∧ Secondname u' = Secondname d
        ∧ (∀ r, r ∈ GetRoles u' ↔ r ∈ GetRoles d) ∧ NoDup (GetRoles u')
    end.
Proof.
  unfold updateFromLDAPUser. generalize (ldapusers sync) as l.
  induction l as [|d l IH] using rev_ind; [done|].
  cbv zeta in *. rewrite foldl_app, filter_app, filter_cons, filter_nil.
  cbn [foldl]. destruct IH as (Huid & Hdn & Hnew & Hout & Herr & IH).
  set (u0 := foldl _ u l) in *. rewrite Huid.
  destruct (String.eqb_spec (Uid d) (Uid u)) as [Hd|Hd].
  - rewrite decide_True by done. rewrite last_snoc, foldl_AddRoles.
    set (base := FlushRoles _).
    destruct (AddRoles_fields (GetRoles d) base)
      as (-> & -> & -> & -> & -> & -> & -> & ->).
    split_and!; try done.
    + intros r. rewrite AddRoles_elem. cbn. set_solver.
    + apply AddRoles_NoDup. cbn. constructor.
  - rewrite decide_False by done. rewrite app_nil_r. done.
Qed.

(** ** The lockout guard, when it passes: [verifyIgnoredUsers] *)

Lemma bind_ret_l {St A B} (a : A) (k : A → M St B) st : bind (ret a) k st = k a st.
Proof. rewrite bind_unfold. cbn. by destruct (k a st). Qed.


Section GuardPasses.
Context {St : Type}.
Variable uc_Call : Call → St → Reply * St.
Implicit Types st : St.

Lemma hasOrgAdmin_found rs more st :
  hasOrgAdmin ((VString <$> rs) ++ VString "org_admin" :: more) st
  = mkResult (Done true) st [].
Proof.
  induction rs as [|r rs IH]; cbn [fmap list_fmap app hasOrgAdmin asString].
  - by rewrite bind_ret_l.
  - rewrite bind_ret_l. by destruct (String.eqb r "org_admin").
Qed.

Lemma hasOrgAdmin_missed items st :
  listsNoOrgAdmin (Returned (VArray items)) = true →
  hasOrgAdmin items st = mkResult (Done false) st [].
Proof.
  cbn [listsNoOrgAdmin].
  induction items as [|item items IH]; cbn [forallb hasOrgAdmin]; [done|].
  intros [Hitem Hrest]%andb_true_iff. destruct item as [|role| | |]; try done.
  cbn [asString]. rewrite bind_ret_l.
  destruct (String.eqb role "org_admin"); [done|by apply IH].
Qed.

Lemma findFrozenAdmin_found pre uid post rs more st :
  lookupsMiss uc_Call pre st = true →
  (uc_Call (user_listRoles uid) (afterLookups uc_Call pre st)).1
  = Returned (VArray ((VString <$> rs) ++ VString "org_admin" :: more)) →
  ∃ evs,
    findFrozenAdmin uc_Call (pre ++ uid :: post) st
    = mkResult (Done true)
        (uc_Call (user_listRoles uid) (afterLookups uc_Call pre st)).2 evs
    ∧ calls evs = user_listRoles <$> (pre ++ [uid])
    ∧ Forall (λ ev, ¬ fatalLog ev) evs.
Proof.
  revert st. induction pre as [|uid' pre IH]; intros st;
    cbn [app lookupsMiss afterLookups findFrozenAdmin].
  - intros _ Hreply. rewrite bind_unfold. cbn [uc out final events].
    rewrite Hreply. cbn [asArray]. rewrite bind_ret_l, bind_unfold, hasOrgAdmin_found.
    cbn. eexists. split_and!; [done..|]. repeat constructor. by intros [? [=]].
  - intros [Hmiss Hrest]%andb_true_iff Hreply.
    destruct (IH _ Hrest Hreply) as (evs & Hrun & Hcalls & Hevs).
    rewrite bind_unfold. cbn [uc out final events].
    destruct (uc_Call (user_listRoles uid') st) as [[err|v] st'];
      cbn [fst snd] in *.
    + rewrite bind_unfold. cbn [logf emit out final events]. rewrite Hrun.
      cbn [out final events app]. eexists. split; [done|].
      split; [cbn; by rewrite <- Hcalls|].
      constructor; [by intros [? [=]]|]. constructor; [by intros [? [=]]|done].
    + destruct v as [| | |items|]; try done.
      cbn [asArray]. rewrite bind_ret_l, bind_unfold.
      rewrite (hasOrgAdmin_missed items st' Hmiss). cbn [out final events].
      rewrite Hrun. cbn [out final events app]. eexists. split; [done|].
      split; [cbn; by rewrite <- Hcalls|].
      constructor; [by intros [? [=]]|done].
Qed.

(** X6: the lockout guard passes at the first frozen uid whose roles list
    "org_admin". The frozen uids before it, whose lookup fails or lists
    other roles, are passed over; the frozen uids after it are not looked
    up, and what follows "org_admin" in the listing is not read. The
    guard returns and logs nothing fatal. *)
Theorem guard_passes_at_the_first_admin sync pre uid post rs more st :
  Frozen (cr sync) = pre ++ uid :: post →
  lookupsMiss uc_Call pre st = true →
  (uc_Call (user_listRoles uid) (afterLookups uc_Call pre st)).1
  = Returned (VArray ((VString <$> rs) ++ VString "org_admin" :: more)) →
  let r := verifyIgnoredUsers uc_Call sync st in
  out r = Done ()
  ∧ final r = (uc_Call (user_listRoles uid) (afterLookups uc_Call pre st)).2
  ∧ calls (events r) = user_listRoles <$> (pre ++ [uid])
  ∧ Forall (λ ev, ¬ fatalLog ev) (events r).
Proof.
  intros Hfrozen Hmiss Hreply r. subst r. unfold verifyIgnoredUsers.
  rewrite Hfrozen.
  destruct (findFrozenAdmin_found pre uid post rs more st Hmiss Hreply)
    as (evs & Hrun & Hcalls & Hevs).
  rewrite bind_unfold, Hrun. cbn [out final events negb ret].
  rewrite app_nil_r. done.
Qed.
End GuardPasses.

Lemma guard_passes_at_the_first_admin_witness :
  let r := verifyIgnoredUsers store_Call (NewLDAPSync TwoFrozen.cfg) Example.store in
  out r = Done ()
  ∧ final r = Example.store
  ∧ calls (events r) = [user_listRoles "root"; user_listRoles "administrator"]
  ∧ Forall (λ ev, ¬ fatalLog ev) (events r).
Proof.
  apply (guard_passes_at_the_first_admin store_Call (NewLDAPSync TwoFrozen.cfg)
           ["root"] "administrator" ["backup"] [] [] Example.store).
  - reflexivity.
  - vm_compute. reflexivity.
  - vm_compute. reflexivity.
Defined.

(** ** The listing of the destination: [refreshExistingUyuniUsers] *)

Section Listing.
Context {St : Type}.
Variable uc_Call : Call → St → Reply * St.
Implicit Types st : St.

Lemma foldM_AddRoles rs user st :
  foldM (λ user roleItf, let* role := asString roleItf in ret (AddRoles [role] user))
    (VString <$> rs) user st
  = mkResult (Done (AddRoles rs user)) st [].
Proof.
  revert user. induction rs as [|r rs IH]; intros user; [done|].
  cbn [fmap list_fmap foldM asString].
  erewrite bind_run; [|by rewrite bind_ret_l|apply IH]. done.
Qed.

Lemma existingUserOf_run sync users fields uid details email first_name last_name
    rs st st1 st2 :
  index fields "login" = VString uid →
  uid ∉ Frozen (cr sync) →
  uc_Call (user_getDetails uid) st = (Returned (VStruct details), st1) →
  index details "email" = VString email →
  index details "first_name" = VString first_name →
  index details "last_name" = VString last_name →
  uc_Call (user_listRoles uid) st1 = (Returned (VArray (VString <$> rs)), st2) →
  existingUserOf uc_Call sync users (VStruct fields) st
  = mkResult
      (Done (users ++ [AddRoles rs
                         (set_Secondname last_name
                            (set_Name first_name
                               (set_Email email (set_Uid uid NewUyuniUser))))]))
      st2 [EvCall (user_getDetails uid); EvCall (user_listRoles uid)].
Proof.
  intros Hlogin Hfrozen Hdetails Hemail Hfirst Hlast Hroles.
  unfold existingUserOf. cbn [asMap]. rewrite bind_ret_l, Hlogin.
  cbn [asString]. rewrite bind_ret_l. unfold Contains.
  rewrite bool_decide_eq_false_2 by done.
  cbn [Uid set_Uid set_Email set_Name set_Secondname NewUyuniUser].
  rewrite bind_unfold. cbn [uc out final events]. rewrite Hdetails.
  cbn [fst snd asMap]. rewrite bind_ret_l, Hemail. cbn [asString].
  rewrite bind_ret_l, Hfirst. cbn [asString]. rewrite bind_ret_l, Hlast.
  cbn [asString]. rewrite bind_ret_l.
  cbn [Uid set_Uid set_Email set_Name set_Secondname NewUyuniUser].
  rewrite bind_unfold. cbn [uc out final events]. rewrite Hroles.
  cbn [fst snd asArray]. rewrite bind_ret_l, bind_unfold, foldM_AddRoles.
  done.
Qed.

(** X7: what the listing of the destination reads of an account that is
    not frozen: the login becomes the uid, "email" the email,
    "first_name" the given name and "last_name" the family name, and the
    roles listed become the role set, each once. The user has no DN and
    no flag raised; the two lookups are the only events. *)
Theorem existingUserOf_reads_the_account sync users fields uid details
    email first_name last_name rs st st1 st2 :
  index fields "login" = VString uid →
  uid ∉ Frozen (cr sync) →
  uc_Call (user_getDetails uid) st = (Returned (VStruct details), st1) →
  index details "email" = VString email →
  index details "first_name" = VString first_name →
  index details "last_name" = VString last_name →
  uc_Call (user_listRoles uid) st1 = (Returned (VArray (VString <$> rs)), st2) →
  ∃ user,
    existingUserOf uc_Call sync users (VStruct fields) st
    = mkResult (Done (users ++ [user])) st2
        [EvCall (user_getDetails uid); EvCall (user_listRoles uid)]
    ∧ Uid user = uid ∧ Email user = email
    ∧ Name user = first_name ∧ Secondname user = last_name
    ∧ (∀ r, r ∈ GetRoles user ↔ r ∈ rs) ∧ NoDup (GetRoles user)
    ∧ Dn user = "" ∧ IsNew user = false ∧ IsOutdated user = false
    ∧ IsValid user = true.
Proof.
  intros Hlogin Hfrozen Hdetails Hemail Hfirst Hlast Hroles.
  eexists. split; [by eapply existingUserOf_run|].
  set (base := set_Secondname _ _).
  destruct (AddRoles_fields rs base) as (Hdn & Huid & He & Hn & Hs & Herr & Hnew & Hout).
  unfold IsNew, IsOutdated, IsValid.
  rewrite Hdn, Huid, He, Hn, Hs, Herr, Hnew, Hout.
  split_and!; try done.
  - intros r. rewrite AddRoles_elem. cbn. set_solver.
  - apply AddRoles_NoDup. constructor.
Qed.

(** X8: the listing of the destination ends the run when a call fails:
    the call that lists the users, or, for a login that is not frozen,
    the call for its details or the one for its roles. Nothing follows
    the failed call but the fatal log line with its error. *)
Theorem listing_failures_are_fatal sync st :
  (∀ err st1,
     uc_Call user_listUsers st = (Failed err, st1) →
     refreshExistingUyuniUsers uc_Call sync st
     = mkResult Exit st1 [EvCall user_listUsers; EvLog Fatal err])
  ∧ (∀ users fields uid err st1,
       index fields "login" = VString uid →
       uid ∉ Frozen (cr sync) →
       uc_Call (user_getDetails uid) st = (Failed err, st1) →
       existingUserOf uc_Call sync users (VStruct fields) st
       = mkResult Exit st1 [EvCall (user_getDetails uid); EvLog Fatal err])
  ∧ (∀ users fields uid details email first_name last_name err st1 st2,
       index fields "login" = VString uid →
       uid ∉ Frozen (cr sync) →
       uc_Call (user_getDetails uid) st = (Returned (VStruct details), st1) →
       index details "email" = VString email →
       index details "first_name" = VString first_name →
       index details "last_name" = VString last_name →
       uc_Call (user_listRoles uid) st1 = (Failed err, st2) →
       existingUserOf uc_Call sync users (VStruct fields) st
       = mkResult Exit st2
           [EvCall (user_getDetails uid); EvCall (user_listRoles uid);
            EvLog Fatal err]).
Proof.
  split_and!.
  - intros err st1 Hlist. unfold refreshExistingUyuniUsers.
    rewrite bind_unfold. cbn [uc out final events]. rewrite Hlist.
    cbn [fst snd]. by rewrite fatal_run.
  - intros users fields uid err st1 Hlogin Hfrozen Hdetails.
    unfold existingUserOf. cbn [asMap]. rewrite bind_ret_l, Hlogin.
    cbn [asString]. rewrite bind_ret_l. unfold Contains.
    rewrite bool_decide_eq_false_2 by done.
    cbn [Uid set_Uid NewUyuniUser].
    rewrite bind_unfold. cbn [uc out final events]. rewrite Hdetails.
    cbn [fst snd]. by rewrite fatal_run.
  - intros users fields uid details email first_name last_name err st1 st2
      Hlogin Hfrozen Hdetails Hemail Hfirst Hlast Hroles.
    unfold existingUserOf. cbn [asMap]. rewrite bind_ret_l, Hlogin.
    cbn [asString]. rewrite bind_ret_l. unfold Contains.
    rewrite bool_decide_eq_false_2 by done.
    cbn [Uid set_Uid set_Email set_Name set_Secondname NewUyuniUser].
    rewrite bind_unfold. cbn [uc out final events]. rewrite Hdetails.
    cbn [fst snd asMap]. rewrite bind_ret_l, Hemail. cbn [asString].
    rewrite bind_ret_l, Hfirst. cbn [asString]. rewrite bind_ret_l, Hlast.
    cbn [asString]. rewrite bind_ret_l.
    cbn [Uid set_Uid set_Email set_Name set_Secondname NewUyuniUser].
    rewrite bind_unfold. cbn [uc out final events]. rewrite Hroles.
    cbn [fst snd]. by rewrite fatal_run.
Qed.

Lemma listing_existingUserOf sync users usrdata :
  ok (listingEvent (Frozen (cr sync))) (λ _, True)
    (existingUserOf uc_Call sync users usrdata).
Proof.
  unfold existingUserOf.
  eapply ok_bind; [apply ok_asMap|]. intros fields _.
  eapply ok_bind; [apply ok_asString|]. intros uid _.
  unfold Contains. case_bool_decide as Huid; [by apply ok_ret|].
  cbn [Uid set_Uid set_Email set_Name set_Secondname NewUyuniUser].
  eapply ok_bind; [by apply ok_uc|]. intros [err|v] _; [by apply ok_fatal|].
  eapply ok_bind; [apply ok_asMap|]. intros userDetails _.
  eapply ok_bind; [apply ok_asString|]. intros email _.
  eapply ok_bind; [apply ok_asString|]. intros first_name _.
  eapply ok_bind; [apply ok_asString|]. intros last_name _.
  eapply ok_bind; [by apply ok_uc|].
  intros [err|v'] _; [by apply ok_fatal|].
  eapply ok_bind; [apply ok_asArray|]. intros items _.
  eapply ok_bind.
  - apply (ok_foldM _ (λ _, True)); [done|].
    intros user roleItf _ _. eapply ok_bind; [apply ok_asString|].
    intros role _. by apply ok_ret.
  - intros user _. by apply ok_ret.
Qed.

Lemma listing_refreshExistingUyuniUsers sync :
  ok (listingEvent (Frozen (cr sync))) (λ _, True)
    (refreshExistingUyuniUsers uc_Call sync).
Proof.
  unfold refreshExistingUyuniUsers.
  eapply ok_bind; [by apply ok_uc|]. intros [err|v] _; [by apply ok_fatal|].
  eapply ok_bind; [apply ok_asArray|]. intros items _.
  eapply ok_bind.
  - apply (ok_foldM _ (λ _, True)); [done|].
    intros users usrdata _ _. apply (listing_existingUserOf (set_uyuniusers [] sync)).
  - intros users _. by apply ok_ret.
Qed.

(** X9: the listing of the destination leaves frozen logins alone: all
    it does is to list the users and to read the details and the roles of
    logins that are not frozen. It makes no write and no directory
    search. *)
Theorem listing_never_reads_a_frozen_login sync st :
  Forall (listingEvent (Frozen (cr sync)))
    (events (refreshExistingUyuniUsers uc_Call sync st)).
Proof. apply listing_refreshExistingUyuniUsers. Qed.
End Listing.

Lemma existingUserOf_reads_the_account_witness :
  ∃ user,
    existingUserOf store_Call (NewLDAPSync Example.cfg) []
      (VStruct [("login", VString "bob")]) Example.store
    = mkResult (Done [user]) Example.store
        [EvCall (user_getDetails "bob"); EvCall (user_listRoles "bob")]
    ∧ Uid user = "bob" ∧ Email user = "bob@x"
    ∧ Name user = "Bob" ∧ Secondname user = "Builder".
Proof.
  destruct (existingUserOf_reads_the_account store_Call (NewLDAPSync Example.cfg)
              [] [("login", VString "bob")] "bob"
              [("first_name", VString "Bob"); ("last_name", VString "Builder");
               ("email", VString "bob@x")]
              "bob@x" "Bob" "Builder" ["channel_admin"]
              Example.store Example.store Example.store)
    as (user & Hrun & Huid & Hemail & Hname & Hsecond & _).
  - reflexivity.
  - apply (bool_decide_unpack _). vm_compute. exact I.
  - vm_compute. reflexivity.
  - reflexivity.
  - reflexivity.
  - reflexivity.
  - vm_compute. reflexivity.
  - exists user. by split_and!.
Defined.

Lemma listing_failures_are_fatal_witness :
  existingUserOf Down.uc_Call (NewLDAPSync Example.cfg) []
    (VStruct [("login", VString "bob")]) ()
  = mkResult Exit ()
      [EvCall (user_getDetails "bob"); EvLog Fatal "503 Service Unavailable"].
Proof.
  apply (proj1 (proj2 (listing_failures_are_fatal Down.uc_Call
                          (NewLDAPSync Example.cfg) ()))).
  - reflexivity.
  - apply (bool_decide_unpack _). vm_compute. exact I.
  - reflexivity.
Defined.

(** *** The listing of the reference store *)

Lemma existingUserOf_frozen {St} (uc_Call : Call → St → Reply * St)
    sync users fields uid st :
  index fields "login" = VString uid →
  uid ∈ Frozen (cr sync) →
  existingUserOf uc_Call sync users (VStruct fields) st = mkResult (Done users) st [].
Proof.
  intros Hlogin Hfrozen. unfold existingUserOf. cbn [asMap].
  rewrite bind_ret_l, Hlogin. cbn [asString]. rewrite bind_ret_l. unfold Contains.
  by rewrite bool_decide_eq_true_2.
Qed.

Lemma foldM_existingUserOf_store sync (store : gmap string Account) l users :
  (∀ p, p ∈ l → store !! p.1 = Some p.2) →
  ∃ evs,
    foldM (existingUserOf store_Call sync)
      ((λ p, VStruct [("login", VString p.1)]) <$> l) users store
    = mkResult
        (Done (users ++ (uncurry userOfAccount
                           <$> filter (λ p, p.1 ∉ Frozen (cr sync)) l)))
        store evs.
Proof.
  revert users. induction l as [|[login a] l IH]; intros users Hl.
  - cbn. rewrite app_nil_r. by eexists.
  - assert (store !! login = Some a) as Ha by (apply (Hl (login, a)); left).
    assert (∀ p, p ∈ l → store !! p.1 = Some p.2) as Hl'
      by (intros p Hp; apply Hl; by right).
    cbn [fmap list_fmap foldM fst]. rewrite filter_cons. cbn [fst].
    destruct (decide (login ∉ Frozen (cr sync))) as [Hfrozen|Hfrozen].
    + destruct (IH (users ++ [userOfAccount login a]) Hl') as (evs & Hrun).
      assert (existingUserOf store_Call sync users
                (VStruct [("login", VString login)]) store
              = mkResult (Done (users ++ [userOfAccount login a])) store
                  [EvCall (user_getDetails login); EvCall (user_listRoles login)])
        as Hone.
      { eapply existingUserOf_run
          with (details := [("first_name", VString (acc_first_name a));
                            ("last_name", VString (acc_last_name a));
                            ("email", VString (acc_email a))]);
          [done|done| |done|done|done|].
        - cbn [store_Call]. by rewrite Ha.
        - cbn [store_Call]. by rewrite Ha. }
      eexists. erewrite bind_run; [|exact Hone|exact Hrun].
      rewrite fmap_cons, <- (assoc_L (++)). done.
    + apply dec_stable in Hfrozen.
      destruct (IH users Hl') as (evs & Hrun).
      eexists. erewrite bind_run; [|by eapply existingUserOf_frozen|exact Hrun].
      done.
Qed.

Lemma userOfAccount_Uid login a : Uid (userOfAccount login a) = login.
Proof.
  unfold userOfAccount. by destruct (AddRoles_fields (acc_roles a)
    (set_Secondname (acc_last_name a) (set_Name (acc_first_name a)
       (set_Email (acc_email a) (set_Uid login NewUyuniUser))))) as (_ & -> & _).
Qed.

(** X10: on the reference store, the listing of the destination reads
    back what the store holds: one user for each account that is not
    frozen, with the login as uid (so that no two users have the same
    uid), and with the email, the names and the roles of the account. The
    store is left as it was, and the users that the engine held before
    are dropped. *)
Theorem listing_reads_back_the_store sync (store : gmap string Account) :
  ∃ evs users,
    refreshExistingUyuniUsers store_Call sync store
    = mkResult (Done (set_uyuniusers users sync)) store evs
    ∧ NoDup (Uid <$> users)
    ∧ (∀ login, login ∈ Uid <$> users ↔
                  is_Some (store !! login) ∧ login ∉ Frozen (cr sync))
    ∧ ∀ u, u ∈ users →
           ∃ a, store !! Uid u = Some a
                ∧ Email u = acc_email a ∧ Name u = acc_first_name a
                ∧ Secondname u = acc_last_name a
                ∧ (∀ r, r ∈ GetRoles u ↔ r ∈ acc_roles a)
                ∧ NoDup (GetRoles u).
Proof.
  destruct (foldM_existingUserOf_store (set_uyuniusers [] sync) store
              (map_to_list store) [])
    as (evs & Hrun).
  { intros [login a] Hp. by apply elem_of_map_to_list. }
  cbn [cr set_uyuniusers app] in Hrun.
  set (kept := filter (λ p, p.1 ∉ Frozen (cr sync)) (map_to_list store)) in *.
  assert (Uid <$> (uncurry userOfAccount <$> kept) = kept.*1) as Huids.
  { rewrite <- list_fmap_compose. apply list_fmap_ext.
    intros _ [login a] _. apply userOfAccount_Uid. }
  eexists _, (uncurry userOfAccount <$> kept). split_and!.
  - unfold refreshExistingUyuniUsers. rewrite bind_unfold.
    cbn [uc store_Call out final events fst snd asArray].
    rewrite bind_ret_l, bind_unfold.
    cbn [uyuniusers set_uyuniusers]. rewrite Hrun. cbn [out final events ret].
    reflexivity.
  - rewrite Huids.
    apply (sublist_NoDup _ ((map_to_list store).*1));
      [apply NoDup_fst_map_to_list|apply fmap_sublist, sublist_filter].
  - intros login. rewrite Huids, list_elem_of_fmap. split.
    + intros ([login' a] & -> & [Hfrozen Hin]%list_elem_of_filter).
      apply elem_of_map_to_list in Hin. cbn in *. by rewrite Hin.
    + intros [[a Ha] Hfrozen]. exists (login, a). split; [done|].
      apply list_elem_of_filter. split; [done|]. by apply elem_of_map_to_list.
  - intros u ([login a] & -> & [Hfrozen Hin]%list_elem_of_filter)%list_elem_of_fmap.
    apply elem_of_map_to_list in Hin. exists a. cbn [uncurry].
    rewrite userOfAccount_Uid. split; [done|]. unfold userOfAccount.
    set (base := set_Secondname _ _).
    destruct (AddRoles_fields (acc_roles a) base) as (_ & _ & -> & -> & -> & _).
    split_and!; try done.
    + intros r. rewrite AddRoles_elem. cbn. set_solver.
    + apply AddRoles_NoDup. constructor.
Qed.

(** ** The creation of the new users: [SyncUsers] *)

Section Creation.
Context {St : Type}.
Variable uc_Call : Call → St → Reply * St.
Implicit Types st : St.

(** X11: the creation of a new user. The account is created with an
    empty password and with PAM authentication; when the creation fails,
    the error is kept in the user and no role is pushed for it, and when
    it succeeds, the roles of the user are pushed and nothing else: the
    creation never ends the run by itself. *)
Theorem createUser_pushes_roles_after_success u st :
  let reply := uc_Call (user_create (Uid u) "" (Name u) (Secondname u) (Email u) 1) st in
  let r := createUser uc_Call u st in
  match reply.1 with
  | Failed err =>
      out r = Done (set_Err (Some err) u) ∧ final r = reply.2
      ∧ calls (events r)
        = [user_create (Uid u) "" (Name u) (Secondname u) (Email u) 1]
  | Returned _ =>
      let p := pushUserRolesToUyuni uc_Call (set_Err None u) reply.2 in
      out r = match out p with
              | Done _ => Done (set_Err None u)
              | Exit => Exit
              | Panic => Panic
              end
      ∧ final r = final p
      ∧ calls (events r)
        = user_create (Uid u) "" (Name u) (Secondname u) (Email u) 1
          :: calls (events p)
  end.
Proof.
  intros reply r. subst r reply. unfold createUser.
  rewrite bind_unfold. cbn [logf emit out final events].
  rewrite bind_unfold. cbn [uc out final events].
  destruct (uc_Call _ st) as [[err|v] st1]; cbn [fst snd].
  - cbn [IsValid Err set_Err negb]. rewrite bind_unfold.
    cbn [logf emit ret out final events]. done.
  - cbn [IsValid Err set_Err negb]. rewrite bind_unfold.
    destruct (out (pushUserRolesToUyuni uc_Call (set_Err None u) st1));
      cbn [ret out final events]; rewrite ?app_nil_r; done.
Qed.
End Creation.

(** *** The users that [SyncUsers] returns *)

Lemma writeBack_created users created :
  Forall2 createdFrom (filter (λ u, IsNew u = true) users) created →
  filter (λ u, IsNew u = true) (writeBack created users) = created.
Proof.
  revert created. induction users as [|u users IH]; intros created.
  - rewrite filter_nil. by intros ->%Forall2_nil_inv_l.
  - rewrite filter_cons. cbn [writeBack].
    destruct (decide (IsNew u = true)) as [Hu|Hu].
    + rewrite Hu. intros (c & cs & [e ->] & Hcs & ->)%Forall2_cons_inv_l.
      rewrite filter_cons. rewrite decide_True by done. by rewrite (IH cs Hcs).
    + apply not_true_is_false in Hu. rewrite Hu. intros Hcs.
      rewrite filter_cons. rewrite decide_False by (by rewrite Hu).
      by apply IH.
Qed.

Section FailedCreations.
Context {St : Type}.
Variable uc_Call : Call → St → Reply * St.
Hypothesis typed : listRoles_typed uc_Call.

Abbreviation quiet := (select (λ _ : Call, @nil unit)).

Lemma createUser_created u :
  exact quiet [] (createdFrom u) (createUser uc_Call u).
Proof using typed.
  unfold createUser. eapply exact_bind_l; [apply (logf_quiet (λ _, []))|]. intros _ _.
  eapply exact_bind_l; [apply (exact_uc quiet)|].
  intros r _. destruct (negb (IsValid _)).
  - eapply exact_bind_l; [apply (logf_quiet (λ _, []))|]. intros _ _.
    apply exact_ret. by eexists.
  - eapply exact_bind_l;
      [by apply (pushUserRolesToUyuni_exact uc_Call (λ _, []) typed)|].
    intros _ _. apply exact_ret. by eexists.
Qed.

Lemma createUsers_created newUsers :
  exact quiet []
    (λ p, p.2 = filter (λ u, IsValid u = false) p.1
          ∧ Forall2 createdFrom newUsers p.1)
    (createUsers uc_Call newUsers).
Proof using typed.
  unfold createUsers.
  eapply exact_weaken;
    [apply (exact_foldM _ (λ _, [])
              (λ pre (p : list UyuniUser * list UyuniUser),
                 p.2 = filter (λ u, IsValid u = false) p.1
                 ∧ Forall2 createdFrom pre p.1))
    |apply bind_nil|done]; [by split; [|constructor]|].
  intros pre u [users failed] [Hfailed Hcreated]. cbn [fst snd] in *.
  eapply exact_bind_l; [apply createUser_created|].
  intros u' Hu'.
  assert (Forall2 createdFrom (pre ++ [u]) (users ++ [u'])) as Hall
    by (apply Forall2_app; [done|by repeat constructor]).
  destruct (negb (IsValid u')) eqn:Hvalid; apply exact_ret; cbn [fst snd];
    (split; [|done]); rewrite filter_app, filter_cons, filter_nil, <- Hfailed.
  - apply negb_true_iff in Hvalid. by rewrite decide_True.
  - apply negb_false_iff in Hvalid. rewrite decide_False by (by rewrite Hvalid).
    by rewrite app_nil_r.
Qed.

(** X12: when the replies to user.listRoles are lists of role names,
    [SyncUsers] returns, and the users it returns as failed are exactly
    the new users of the destination set that carry the error of their
    creation. The uids of the destination set, the staged set and the
    full set are as before. *)
Theorem SyncUsers_returns_the_failed_creations sync st :
  ∃ sync' failed,
    out (SyncUsers uc_Call sync st) = Done (sync', failed)
    ∧ failed = filter (λ u, IsValid u = false)
                 (filter (λ u, IsNew u = true) (uyuniusers sync'))
    ∧ Uid <$> uyuniusers sync' = Uid <$> uyuniusers sync
    ∧ ldapusers sync' = ldapusers sync
    ∧ allldapusers sync' = allldapusers sync.
Proof using typed.
  enough (exact quiet []
            (λ p, p.2 = filter (λ u, IsValid u = false)
                          (filter (λ u, IsNew u = true) (uyuniusers p.1))
                  ∧ Uid <$> uyuniusers p.1 = Uid <$> uyuniusers sync
                  ∧ ldapusers p.1 = ldapusers sync
                  ∧ allldapusers p.1 = allldapusers sync)
            (SyncUsers uc_Call sync)) as H.
  { destruct (H st) as ([sync' failed] & Hout & HQ & _). by exists sync', failed. }
  unfold SyncUsers. eapply exact_bind_l; [apply (logf_quiet (λ _, []))|].
  intros _ _. unfold GetNewUsers. cbv beta iota zeta.
  set (users' := (λ user, if IsNew user then updateFromLDAPUser sync user else user)
                   <$> uyuniusers sync).
  set (newUsers := filter (λ user, IsNew user = true) users').
  assert (Uid <$> users' = Uid <$> uyuniusers sync) as Husers.
  { subst users'. rewrite <- list_fmap_compose. apply list_fmap_ext.
    intros _ u _. cbn. destruct (IsNew u); [|done].
    by destruct (updateFromLDAPUser_fields sync u) as [-> _]. }
  eapply exact_bind_l
    with (Q := λ p, p.2 = filter (λ u, IsValid u = false) p.1
                    ∧ Forall2 createdFrom newUsers p.1).
  - case_bool_decide as Hlen.
    + eapply exact_bind_l; [apply (logf_quiet (λ _, []))|]. intros _ _.
      apply createUsers_created.
    + destruct newUsers; [by apply exact_ret|]. cbn in Hlen. lia.
  - intros [created failed] [Hfailed Hcreated]. cbn [fst snd] in Hfailed, Hcreated.
    cbn [uyuniusers set_uyuniusers].
    eapply (exact_bind_l _ _ (λ _, True)).
    + case_bool_decide; [|by apply exact_ret].
      eapply exact_bind_l; [apply (logf_quiet (λ _, []))|]. intros _ _.
      eapply exact_weaken; [apply (exact_forM_ _ (λ _, []))|apply bind_nil|done].
      intros u _. eapply exact_bind_l; [apply (logf_quiet (λ _, []))|]. intros _ _.
      eapply exact_bind_l;
        [by apply (pushUserRolesToUyuni_exact uc_Call (λ _, []) typed)|].
      intros _ _. by apply (pushUserAccountDataToUyuni_exact uc_Call (λ _, [])).
    + intros _ _. eapply (exact_bind_l _ _ (λ _, True)).
      * case_bool_decide; [|by apply exact_ret].
        eapply exact_bind_l; [apply (logf_quiet (λ _, []))|]. intros _ _.
        eapply exact_weaken; [apply (exact_forM_ _ (λ _, []))|apply bind_nil|done].
        intros u _. eapply exact_bind_l; [apply (logf_quiet (λ _, []))|]. intros _ _.
        apply (deleteUser_exact uc_Call (λ _, [])).
      * intros _ _. eapply exact_bind_l; [apply (logf_quiet (λ _, []))|]. intros _ _.
        eapply exact_bind_l; [apply (logf_quiet (λ _, []))|]. intros _ _.
        apply exact_ret. cbn [fst snd uyuniusers ldapusers allldapusers set_uyuniusers].
        split_and!; [|  |done..].
        -- by rewrite (writeBack_created users' created Hcreated).
        -- rewrite writeBack_Uid; [done|].
           clear -Hcreated. fold newUsers.
           induction Hcreated as [|n c ns cs [e ->] _ IH]; [done|].
           cbn. by rewrite IH.
Qed.
End FailedCreations.

Lemma SyncUsers_returns_the_failed_creations_witness :
  ∃ sync' failed,
    out (SyncUsers store_Call (classify Sets.before) Example.store)
    = Done (sync', failed)
    ∧ failed = filter (λ u, IsValid u = false)
                 (filter (λ u, IsNew u = true) (uyuniusers sync')).
Proof.
  destruct (SyncUsers_returns_the_failed_creations store_Call
              store_Call_listRoles_typed (classify Sets.before) Example.store)
    as (sync' & failed & Hout & Hfailed & _).
  exact (ex_intro _ sync' (ex_intro _ failed (conj Hout Hfailed))).
Defined.

(** ** The two phases of a run: [Start] reads, [SyncUsers] writes *)

Section Steady.
Context {St : Type}.
Variable uc_Call : Call → St → Reply * St.
Variable P : Event → Prop.
Hypothesis P_call : ∀ c, P (EvCall c).
Hypothesis P_log : ∀ l msg, l ≠ Fatal → P (EvLog l msg).

Lemma steady_ret {A} (a : A) : steady (St:=St) P (ret a).
Proof. intros st. by split. Qed.

Lemma steady_bind {A B} (m : M St A) (k : A → M St B) :
  steady P m → (∀ a, steady P (k a)) → steady P (bind m k).
Proof.
  intros Hm Hk st. rewrite bind_unfold. destruct (Hm st) as [Hout Hevs].
  destruct (out (m st)) as [a| |]; cbn [out events]; [|done..].
  destruct (Hk a (final (m st))) as [Hout' Hevs'].
  split; [done|by apply Forall_app].
Qed.

Lemma steady_logf l parts : l ≠ Fatal → steady (St:=St) P (logf l parts).
Proof using P_log. intros Hl st. split; [done|]. repeat constructor. by apply P_log. Qed.

Lemma steady_uc c : steady P (uc uc_Call c).
Proof using P_call. intros st. split; [done|]. by repeat constructor. Qed.

Lemma steady_asString v : steady (St:=St) P (asString v).
Proof. intros st. by destruct v. Qed.

Lemma steady_asArray v : steady (St:=St) P (asArray v).
Proof. intros st. by destruct v. Qed.

Lemma steady_forM_ {A} (l : list A) (f : A → M St unit) :
  (∀ x, steady P (f x)) → steady P (forM_ l f).
Proof.
  intros Hf. induction l as [|x l IH]; cbn [forM_]; [apply steady_ret|].
  apply steady_bind; [apply Hf|]. intros _. apply IH.
Qed.

Lemma steady_foldM {A B} (f : B → A → M St B) (l : list A) (b : B) :
  (∀ b x, steady P (f b x)) → steady P (foldM f l b).
Proof.
  intros Hf. revert b. induction l as [|x l IH]; intros b; cbn [foldM];
    [apply steady_ret|].
  apply steady_bind; [apply Hf|]. intros b'. apply IH.
Qed.

Lemma steady_logged c (onFail : string → M St unit) (onOk : M St unit) :
  (∀ err, steady P (onFail err)) → steady P onOk →
  steady P (let* r := uc uc_Call c in
            match r with
            | Failed err => onFail err
            | Returned _ => onOk
            end).
Proof using P_call.
  intros Hfail Hok. apply steady_bind; [apply steady_uc|].
  intros [err|v]; [apply Hfail|apply Hok].
Qed.

Lemma steady_pushUserRolesToUyuni u : steady P (pushUserRolesToUyuni uc_Call u).
Proof using All.
  unfold pushUserRolesToUyuni. apply steady_bind; [apply steady_uc|].
  intros [err|v]; [by apply steady_logf|].
  apply steady_bind; [apply steady_asArray|]. intros items.
  apply steady_bind.
  - apply steady_forM_. intros item. apply steady_bind; [apply steady_asString|].
    intros role. apply steady_logged; [intros err|]; by apply steady_logf.
  - intros _. apply steady_forM_. intros role.
    apply steady_logged; [intros err|]; by apply steady_logf.
Qed.

Lemma steady_pushUserAccountDataToUyuni u :
  steady P (pushUserAccountDataToUyuni uc_Call u).
Proof using All.
  unfold pushUserAccountDataToUyuni.
  apply steady_logged; [intros err; by apply steady_logf|].
  apply steady_logged; [intros err; by apply steady_logf|apply steady_ret].
Qed.

Lemma steady_deleteUser u : steady P (deleteUser uc_Call u).
Proof using All.
  unfold deleteUser. apply steady_logged; [intros err; by apply steady_logf|].
  apply steady_ret.
Qed.

Lemma steady_createUser u : steady P (createUser uc_Call u).
Proof using All.
  unfold createUser. apply steady_bind; [by apply steady_logf|]. intros _.
  apply steady_bind; [apply steady_uc|]. intros r.
  destruct (negb (IsValid _)).
  - apply steady_bind; [by apply steady_logf|]. intros _. apply steady_ret.
  - apply steady_bind; [apply steady_pushUserRolesToUyuni|]. intros _.
    apply steady_ret.
Qed.

Lemma steady_SyncUsers sync : steady P (SyncUsers uc_Call sync).
Proof using All.
  unfold SyncUsers. apply steady_bind; [by apply steady_logf|]. intros _.
  unfold GetNewUsers. cbv beta iota zeta.
  apply steady_bind.
  - case_bool_decide; [|apply steady_ret].
    apply steady_bind; [by apply steady_logf|]. intros _.
    unfold createUsers. apply steady_foldM. intros [users failed] u.
    apply steady_bind; [apply steady_createUser|]. intros u'.
    destruct (negb (IsValid u')); apply steady_ret.
  - intros [created failed]. apply steady_bind.
    + case_bool_decide; [|apply steady_ret].
      apply steady_bind; [by apply steady_logf|]. intros _.
      apply steady_forM_. intros u.
      apply steady_bind; [by apply steady_logf|]. intros _.
      apply steady_bind; [apply steady_pushUserRolesToUyuni|]. intros _.
      apply steady_pushUserAccountDataToUyuni.
    + intros _. apply steady_bind.
      * case_bool_decide; [|apply steady_ret].
        apply steady_bind; [by apply steady_logf|]. intros _.
        apply steady_forM_. intros u.
        apply steady_bind; [by apply steady_logf|]. intros _.
        apply steady_deleteUser.
      * intros _. apply steady_bind; [by apply steady_logf|]. intros _.
        apply steady_bind; [by apply steady_logf|]. intros _. apply steady_ret.
Qed.
End Steady.

Lemma strings_or_not (items : list Value) :
  (∃ current, items = VString <$> current)
  ∨ (∀ current, items ≠ VString <$> current).
Proof.
  induction items as [|item items IH]; [left; by exists []|].
  destruct item as [|s|n|l|fs];
    try (right; intros [|c current]; discriminate).
  destruct IH as [[current ->]|Hnot].
  - left. by exists (s :: current).
  - right. intros [|c current]; [discriminate|]. cbn. intros [= _ Heq].
    by apply (Hnot current).
Qed.

Lemma typed_or_not (v : Value) :
  (∃ current, v = VArray (VString <$> current))
  ∨ (∀ current, v ≠ VArray (VString <$> current)).
Proof.
  destruct v as [|s|n|items|fs]; try (right; intros current; discriminate).
  destruct (strings_or_not items) as [[current ->]|Hnot].
  - left. by exists current.
  - right. intros current [= Heq]. by apply (Hnot current).
Qed.

Section Panics.
Context {St : Type}.
Variable uc_Call : Call → St → Reply * St.
Variable B : Prop.

Lemma calm_ret {A} (a : A) : panicsOnlyIf (St:=St) B (ret a).
Proof. by intros st. Qed.

Lemma calm_bind {A C} (m : M St A) (k : A → M St C) :
  panicsOnlyIf B m → (∀ a, panicsOnlyIf B (k a)) → panicsOnlyIf B (bind m k).
Proof.
  intros Hm Hk st. rewrite bind_unfold. specialize (Hm st).
  destruct (out (m st)) as [a| |]; cbn [out]; [apply Hk|done|by intros _; apply Hm].
Qed.

Lemma calm_logf l parts : panicsOnlyIf (St:=St) B (logf l parts).
Proof. by intros st. Qed.

Lemma calm_uc c : panicsOnlyIf B (uc uc_Call c).
Proof. by intros st. Qed.

Lemma calm_forM_ {A} (l : list A) (f : A → M St unit) :
  (∀ x, panicsOnlyIf B (f x)) → panicsOnlyIf B (forM_ l f).
Proof.
  intros Hf. induction l as [|x l IH]; cbn [forM_]; [apply calm_ret|].
  apply calm_bind; [apply Hf|]. intros _. apply IH.
Qed.

Lemma calm_foldM {A C} (f : C → A → M St C) (l : list A) (b : C) :
  (∀ b x, panicsOnlyIf B (f b x)) → panicsOnlyIf B (foldM f l b).
Proof.
  intros Hf. revert b. induction l as [|x l IH]; intros b; cbn [foldM];
    [apply calm_ret|].
  apply calm_bind; [apply Hf|]. intros b'. apply IH.
Qed.

Lemma calm_logged c (onFail : string → M St unit) (onOk : M St unit) :
  (∀ err, panicsOnlyIf B (onFail err)) → panicsOnlyIf B onOk →
  panicsOnlyIf B (let* r := uc uc_Call c in
                  match r with
                  | Failed err => onFail err
                  | Returned _ => onOk
                  end).
Proof.
  intros Hfail Hok. apply calm_bind; [apply calm_uc|].
  intros [err|v]; [apply Hfail|apply Hok].
Qed.
End Panics.

Section PanicsOfThePush.
Context {St : Type}.
Variable uc_Call : Call → St → Reply * St.

Abbreviation bad := (illTypedRoles uc_Call).

(** The role push panics only on a reply to the listing of the roles
    that is not an array of strings. *)
Lemma calm_pushUserRolesToUyuni u :
  panicsOnlyIf bad (pushUserRolesToUyuni uc_Call u).
Proof.
  intros st Hpanic.
  destruct (uc_Call (user_listRoles (Uid u)) st) as [r st1] eqn:Hcall.
  destruct r as [err|v].
  - exfalso. revert Hpanic. unfold pushUserRolesToUyuni. rewrite bind_unfold.
    cbn [uc out final events]. by rewrite Hcall.
  - destruct (typed_or_not v) as [[current ->]|Hv].
    + destruct (pushUserRolesToUyuni_calls uc_Call u st st1 current Hcall)
        as [Hout _]. congruence.
    + exists (Uid u), st. by rewrite Hcall.
Qed.

Lemma calm_SyncUsers sync : panicsOnlyIf bad (SyncUsers uc_Call sync).
Proof.
  unfold SyncUsers. apply calm_bind; [apply calm_logf|]. intros _.
  unfold GetNewUsers. cbv beta iota zeta.
  apply calm_bind.
  - case_bool_decide; [|apply calm_ret].
    apply calm_bind; [apply calm_logf|]. intros _.
    unfold createUsers. apply calm_foldM. intros [users failed] u.
    apply calm_bind.
    + unfold createUser. apply calm_bind; [apply calm_logf|]. intros _.
      apply calm_bind; [apply calm_uc|]. intros r.
      destruct (negb (IsValid _)).
      * apply calm_bind; [apply calm_logf|]. intros _. apply calm_ret.
      * apply calm_bind; [apply calm_pushUserRolesToUyuni|]. intros _.
        apply calm_ret.
    + intros u'. destruct (negb (IsValid u')); apply calm_ret.
  - intros [created failed]. apply calm_bind.
    + case_bool_decide; [|apply calm_ret].
      apply calm_bind; [apply calm_logf|]. intros _.
      apply calm_forM_. intros u.
      apply calm_bind; [apply calm_logf|]. intros _.
      apply calm_bind; [apply calm_pushUserRolesToUyuni|]. intros _.
      unfold pushUserAccountDataToUyuni.
      apply calm_logged; [intros err; apply calm_logf|].
      apply calm_logged; [intros err; apply calm_logf|apply calm_ret].
    + intros _. apply calm_bind.
      * case_bool_decide; [|apply calm_ret].
        apply calm_bind; [apply calm_logf|]. intros _.
        apply calm_forM_. intros u.
        apply calm_bind; [apply calm_logf|]. intros _.
        unfold deleteUser.
        apply calm_logged; [intros err; apply calm_logf|apply calm_ret].
      * intros _. apply calm_bind; [apply calm_logf|]. intros _.
        apply calm_bind; [apply calm_logf|]. intros _. apply calm_ret.
Qed.
End PanicsOfThePush.

(** X13: [SyncUsers] never writes a line of the level Fatal, never ends
    the process through the log and never searches the directory,
    whatever the account store answers: a call that fails is logged below
    the level Fatal. The one way in which it does not return is a panic
    of the type assertions of the role push, and that takes a reply to
    user.listRoles that is not an array of strings: when every such reply
    is one, [SyncUsers] returns. *)
Theorem SyncUsers_is_never_fatal {St} (uc_Call : Call → St → Reply * St) sync st :
  let r := SyncUsers uc_Call sync st in
  out r ≠ Exit
  ∧ Forall pushEvent (events r)
  ∧ (out r = Panic → illTypedRoles uc_Call)
  ∧ (listRoles_typed uc_Call → ∃ sync' failed, out r = Done (sync', failed)).
Proof.
  intros r. subst r.
  destruct (steady_SyncUsers uc_Call pushEvent ltac:(done) ltac:(done) sync st)
    as [Hexit Hevs].
  pose proof (calm_SyncUsers uc_Call sync st) as Hpanic.
  split_and!; [done..|]. intros typed.
  destruct (out (SyncUsers uc_Call sync st)) as [[sync' failed]| |] eqn:Hout;
    [by eauto|done|].
  destruct (Hpanic eq_refl) as (login & st0 & Hbad).
  specialize (typed login st0).
  destruct ((uc_Call (user_listRoles login) st0).1) as [err|v]; [done|].
  destruct typed as [current ->]. by destruct (Hbad current).
Qed.

Lemma SyncUsers_is_never_fatal_witness :
  (∃ sync' failed,
     out (SyncUsers store_Call (classify Sets.before) Example.store)
     = Done (sync', failed))
  ∧ out (SyncUsers Odd.uc_Call (classify Sets.before) ()) = Panic
  ∧ illTypedRoles Odd.uc_Call.
Proof.
  destruct (SyncUsers_is_never_fatal store_Call (classify Sets.before)
              Example.store) as (_ & _ & _ & Hreturns).
  destruct (SyncUsers_is_never_fatal Odd.uc_Call (classify Sets.before) ())
    as (_ & _ & Hpanics & _).
  assert (out (SyncUsers Odd.uc_Call (classify Sets.before) ()) = Panic) as Hout
    by (vm_compute; reflexivity).
  split; [exact (Hreturns store_Call_listRoles_typed)|].
  split; [exact Hout|exact (Hpanics Hout)].
Defined.

Lemma ok_impl {St A} (P P' : Event → Prop) (Q : A → Prop) (m : M St A) :
  (∀ ev, P ev → P' ev) → ok P Q m → ok P' Q m.
Proof.
  intros HP Hm st. destruct (Hm st) as [Hevs HQ]. split; [|done].
  eapply Forall_impl; [exact Hevs|exact HP].
Qed.

Section ReadPhase.
Context {St : Type}.
Variable uc_Call : Call → St → Reply * St.
Variable ldap_Dial : string → string → option string.
Variable ldap_Search : SearchRequest → string + list Entry.
Variable range : ∀ A : Type, list A → list A.

Lemma reads_log l parts : ok (St:=St) readEvent (λ _, True) (logf l parts).
Proof. by apply ok_logf. Qed.

Lemma reads_Search lc request : ok (St:=St) readEvent (λ _, True)
    (Search ldap_Search lc request).
Proof.
  unfold Search. destruct (lc_conn lc); [|apply ok_panic].
  eapply (ok_bind _ (λ _, True)); [by apply ok_emit|]. intros _ _.
  destruct (ldap_Search request); [by apply ok_fatal|by apply ok_ret].
Qed.

Lemma reads_newUserFromDN sync dn : ok (St:=St) readEvent (λ _, True)
    (newUserFromDN ldap_Search sync dn).
Proof.
  unfold newUserFromDN. eapply ok_bind; [apply reads_Search|].
  intros [|entry [|? ?]] _.
  - eapply ok_bind; [apply reads_log|]. intros _ _. by apply ok_ret.
  - destruct (Split _ _) as [|? [|? [|? ?]]]; by apply ok_ret.
  - eapply ok_bind; [apply reads_log|]. intros _ _. by apply ok_ret.
Qed.

Lemma reads_updateLDAPUserRoles sync user :
  ok (St:=St) readEvent (λ _, True)
    (updateLDAPUserRoles ldap_Search range sync user).
Proof.
  unfold updateLDAPUserRoles. apply (ok_foldM _ (λ _, True)); [done|].
  intros user1 searchConfig _ _. apply (ok_foldM _ (λ _, True)); [done|].
  intros user2 [dn uyuniRoles] _ _. unfold mergeRolesByAttributes.
  eapply ok_bind; [apply reads_Search|]. intros entries _. by apply ok_ret.
Qed.

Lemma reads_verifyIgnoredUsers sync : ok (St:=St) readEvent (λ _, True)
    (verifyIgnoredUsers uc_Call sync).
Proof.
  unfold verifyIgnoredUsers. eapply (ok_bind _ (λ _, True)).
  - induction (Frozen (cr sync)) as [|uid uids IH]; cbn [findFrozenAdmin];
      [by apply ok_ret|].
    eapply ok_bind; [by apply ok_uc|]. intros [err|v] _.
    + eapply ok_bind; [apply reads_log|]. intros _ _. apply IH.
    + eapply ok_bind; [apply ok_asArray|]. intros items _.
      eapply (ok_bind _ (λ _, True)).
      * clear. induction items as [|item items IH]; cbn [hasOrgAdmin];
          [by apply ok_ret|].
        eapply ok_bind; [apply ok_asString|]. intros role _.
        destruct (String.eqb role "org_admin"); [by apply ok_ret|apply IH].
      * intros [|] _; [by apply ok_ret|apply IH].
  - intros [|] _; cbn [negb]; [by apply ok_ret|by apply ok_fatal].
Qed.

Lemma reads_refreshStagedLDAPUsers sync :
  ok (St:=St) readEvent (λ _, True)
    (refreshStagedLDAPUsers ldap_Search range sync).
Proof.
  unfold refreshStagedLDAPUsers. eapply (ok_bind _ (λ _, True)).
  - unfold stagedDNs. apply (ok_foldM _ (λ _, True)); [done|].
    intros udns roleset _ _. apply (ok_foldM _ (λ _, True)); [done|].
    intros udns' [gdn ?] _ _. eapply ok_bind; [apply reads_Search|].
    intros entries _. by apply ok_ret.
  - intros udns _. eapply (ok_bind _ (λ _, True)); [|intros; by apply ok_ret].
    apply (ok_foldM _ (λ _, True)); [done|]. intros users udn _ _.
    unfold stagedUserOf. eapply ok_bind; [apply reads_newUserFromDN|].
    intros user _. destruct (_ && _); [|by apply ok_ret].
    eapply ok_bind; [apply reads_updateLDAPUserRoles|]. intros user' _.
    by apply ok_ret.
Qed.

Lemma reads_refreshAllLDAPUsers sync :
  ok (St:=St) readEvent (λ _, True)
    (refreshAllLDAPUsers ldap_Search sync).
Proof.
  unfold refreshAllLDAPUsers. eapply ok_bind; [apply reads_Search|].
  intros entries _. eapply (ok_bind _ (λ _, True)); [|intros; by apply ok_ret].
  apply (ok_foldM _ (λ _, True)); [done|]. intros users entry _ _.
  eapply ok_bind; [apply reads_newUserFromDN|]. intros user _. by apply ok_ret.
Qed.

(** X14: [Start] only reads: whatever the directory and the account
    store hold, the lockout guard, the computation of the three sets and
    the classification make no create, setDetails, usePamAuthentication,
    delete, addRole or removeRole call. *)
Theorem Start_makes_no_write sync st :
  Forall readEvent (events (Start uc_Call ldap_Dial ldap_Search range sync st)).
Proof.
  revert st.
  enough (ok readEvent (λ _, True)
            (Start uc_Call ldap_Dial ldap_Search range sync)) as H
    by (intros st; apply H).
  unfold Start. eapply (ok_bind _ (λ _, True)).
  { unfold Connect. destruct (lc_conn _); [by apply ok_ret|].
    destruct (ldap_Dial _ _); [by apply ok_fatal|by apply ok_ret]. }
  intros lc' _. eapply ok_bind; [apply reads_verifyIgnoredUsers|]. intros _ _.
  eapply (ok_bind _ (λ _, True)).
  { eapply ok_impl; [|apply listing_refreshExistingUyuniUsers].
    intros [[]| |]; done. }
  intros s1 _. eapply ok_bind; [apply reads_refreshStagedLDAPUsers|].
  intros s2 _. eapply ok_bind; [apply reads_refreshAllLDAPUsers|].
  intros s3 _ st. destruct (refreshUyuniUsersStatus_run s3 st) as (evs & -> & Hevs).
  cbn [out events]. split; [|done].
  eapply Forall_impl; [exact Hevs|]. by intros ev [msg ->].
Qed.
End ReadPhase.

(** ** Users that need no action *)

Lemma overwritten_account user u :
  Email (overwritten user u) = Email user
  ∧ Name (overwritten user u) = Name user
  ∧ Secondname (overwritten user u) = Secondname user.
Proof.
  unfold overwritten. set (v := FlushRoles _).
  by destruct (AddRoles_fields (GetRoles user) v) as (_ & _ & -> & -> & -> & _).
Qed.

Lemma firstOf_overwrite_same uid user uyuni u :
  Uid user = uid →
  firstOf uid uyuni = Some u →
  firstOf uid (overwrite user uyuni) = Some (overwritten user u).
Proof.
  intros <-. unfold overwrite. induction uyuni as [|x uyuni IH]; [done|]. cbn.
  destruct (String.eqb_spec (Uid x) (Uid user)) as [Heq|Hx].
  - intros [= ->]. destruct (overwritten_fields user u) as (-> & _).
    by rewrite Heq, String.eqb_refl.
  - intros H. rewrite (proj2 (String.eqb_neq _ _)) by done. by apply IH.
Qed.

Lemma classified_unchanged d uyuni u :
  firstOf (Uid d) uyuni = Some u →
  unchanged d u →
  classified d uyuni = set_outdated false (set_new false d).
Proof.
  intros Hu Hsame%same_unchanged. unfold classified. rewrite Hu.
  change (same (set_new false d) u) with (same d u). rewrite Hsame. cbn [negb].
  unfold flagged. change (sameAccount (set_new false d) u) with (sameAccount d u).
  assert (sameAccount d u = true) as ->
    by (unfold same in Hsame; by apply andb_true_iff in Hsame as [? _]).
  change (same (set_new false d) u) with (same d u). by rewrite Hsame.
Qed.

Lemma classifyLoop_unchanged pending ldap uyuni newusers :
  Forall settled uyuni →
  (∀ d, d ∈ pending → ∃ u, firstOf (Uid d) uyuni = Some u ∧ unchanged d u) →
  (classifyLoop pending ldap uyuni newusers).2 = newusers
  ∧ Forall settled (classifyLoop pending ldap uyuni newusers).1.2.
Proof.
  revert ldap uyuni newusers.
  induction pending as [|d pending IH]; intros ldap uyuni newusers Hdest Hsame;
    [done|].
  cbn [classifyLoop].
  destruct (Hsame d) as (u & Hu & Hdu); [left|].
  assert (in_ d uyuni = true) as ->
    by (apply in_firstOf; rewrite Hu; by eexists).
  rewrite (classified_unchanged d uyuni u Hu Hdu).
  set (c := set_outdated false (set_new false d)).
  apply IH.
  - unfold overwrite. apply Forall_fmap. eapply Forall_impl; [exact Hdest|].
    intros v [Hnew Hout]. unfold compose.
    destruct (String.eqb (Uid v) (Uid c)); [|done].
    destruct (overwritten_fields c v) as (_ & Hn & Ho & _).
    unfold settled, IsNew, IsOutdated. by rewrite Hn, Ho.
  - intros d2 Hd2. destruct (Hsame d2) as (u2 & Hu2 & Hdu2); [by right|].
    destruct (decide (Uid c = Uid d2)) as [Heq|Hne].
    + exists (overwritten c u2). split; [by apply firstOf_overwrite_same|].
      assert (u2 = u) as -> by (cbn in Heq; rewrite <- Heq in Hu2; congruence).
      destruct (overwritten_account c u) as (He & Hn & Hs).
      destruct (overwritten_fields c u) as (_ & _ & _ & Hr & _).
      destruct Hdu as (? & ? & ? & ?), Hdu2 as (? & ? & ? & ?).
      unfold unchanged. rewrite He, Hn, Hs.
      split_and!; [cbn; congruence..|]. intros r. rewrite Hr. cbn. naive_solver.
    + exists u2. by rewrite firstOf_overwrite_other.
Qed.

Lemma writeBack_nil users : writeBack [] users = users.
Proof.
  induction users as [|u users IH]; [done|]. cbn.
  destruct (IsNew u); [done|by rewrite IH].
Qed.

Lemma SyncUsers_idle {St} (uc_Call : Call → St → Reply * St) sync st :
  Forall settled (uyuniusers sync) →
  GetDeletedUsers sync = [] →
  ∃ evs,
    SyncUsers uc_Call sync st = mkResult (Done (sync, [])) st evs
    ∧ Forall logLine evs.
Proof.
  intros Hdest Hdel. unfold SyncUsers, GetNewUsers. cbv beta iota zeta.
  assert (∀ l, Forall settled l →
               (λ user, if IsNew user then updateFromLDAPUser sync user else user)
                 <$> l = l) as Hid.
  { induction 1 as [|u l [Hu _] _ IH]; [done|].
    cbn [fmap list_fmap]. rewrite Hu. f_equal. exact IH. }
  rewrite (Hid _ Hdest).
  assert (filter (λ user, IsNew user = true) (uyuniusers sync) = []) as ->.
  { apply filter_none. intros u Hu. rewrite Forall_forall in Hdest.
    destruct (Hdest u Hu) as [-> _]. done. }
  cbn [length]. rewrite bool_decide_eq_false_2 by lia.
  rewrite bind_unfold. cbn [logf emit out final events].
  rewrite bind_ret_l. cbv beta iota. rewrite writeBack_nil.
  assert (set_uyuniusers (uyuniusers sync) sync = sync) as Hsync
    by (by destruct sync).
  rewrite !Hsync.
  assert (GetOutdatedUsers sync = []) as ->.
  { apply filter_none. intros u Hu. rewrite Forall_forall in Hdest.
    destruct (Hdest u Hu) as [_ ->]. rewrite andb_false_r. by intros []. }
  rewrite Hdel. cbn [length]. rewrite bool_decide_eq_false_2 by lia.
  eexists. split; [reflexivity|]. repeat constructor; by eexists _, _.
Qed.

(** X15: a run that finds nothing to do does nothing. When every staged
    user has a destination user of its uid with the same email, names and
    role set, the destination users carry no flag, and no user of the
    directory is on the destination without being staged, then the
    classification flags nobody and [SyncUsers] makes no call at all: it
    writes its log lines, leaves the account store as it is and reports
    no failure. *)
Theorem unchanged_users_cause_no_call {St} (uc_Call : Call → St → Reply * St)
    sync (st st' : St) :
  Forall settled (uyuniusers sync) →
  (∀ d, d ∈ ldapusers sync →
        ∃ u, firstOf (Uid d) (uyuniusers sync) = Some u ∧ unchanged d u) →
  (∀ u, u ∈ allldapusers sync →
        in_ u (uyuniusers sync) = true → in_ u (ldapusers sync) = true) →
  ∃ sync' evs evs',
    refreshUyuniUsersStatus sync st = mkResult (Done sync') st evs
    ∧ SyncUsers uc_Call sync' st' = mkResult (Done (sync', [])) st' evs'
    ∧ Forall logLine evs' ∧ calls evs' = []
    ∧ Forall settled (uyuniusers sync').
Proof.
  intros Hdest Hsame Hfull.
  destruct (refreshUyuniUsersStatus_run sync st) as (evs & Hrun & _).
  assert (Forall settled (uyuniusers (classify sync))) as Hsettled.
  { destruct (classifyLoop_unchanged (ldapusers sync) [] (uyuniusers sync) []
                Hdest Hsame) as [Hnew Hflags].
    unfold classify.
    destruct (classifyLoop _ _ _ _) as [[ldap' uyuni'] newusers'].
    cbn [fst snd] in *. subst newusers'. cbn. by rewrite app_nil_r. }
  assert (GetDeletedUsers (classify sync) = []) as Hdel.
  { rewrite GetDeletedUsers_classify. apply filter_none.
    intros u Hu [Hstaged Hlisted]. rewrite (Hfull u Hu Hlisted) in Hstaged. done. }
  destruct (SyncUsers_idle uc_Call (classify sync) st' Hsettled Hdel)
    as (evs' & Hpush & Hlogs).
  exists (classify sync), evs, evs'. split_and!; try done.
  clear -Hlogs. induction Hlogs as [|ev evs' (l & msg & ->) _ IH]; [done|].
  exact IH.
Qed.

Lemma unchanged_users_cause_no_call_witness :
  ∃ sync' evs',
    SyncUsers store_Call sync' Example.store
    = mkResult (Done (sync', [])) Example.store evs'
    ∧ calls evs' = [].
Proof.
  destruct (unchanged_users_cause_no_call store_Call InSync.sync
              Example.store Example.store)
    as (sync' & evs & evs' & _ & Hpush & _ & Hcalls & _).
  - repeat constructor.
  - intros d Hd.
    apply elem_of_cons in Hd as [->|Hd];
      [|apply elem_of_cons in Hd as [->|Hd]; [|by apply elem_of_nil in Hd]].
    + exists InSync.alice. split; [reflexivity|].
      apply same_unchanged. vm_compute. reflexivity.
    + exists InSync.carol. split; [reflexivity|].
      apply same_unchanged. vm_compute. reflexivity.
  - intros u Hu.
    apply elem_of_cons in Hu as [->|Hu];
      [|apply elem_of_cons in Hu as [->|Hu];
        [|apply elem_of_cons in Hu as [->|Hu]; [|by apply elem_of_nil in Hu]]];
      vm_compute; congruence.
  - exact (ex_intro _ sync' (ex_intro _ evs' (conj Hpush Hcalls))).
Defined.

(** ** One action for a uid *)

Lemma classifyLoop_outdated pending ldap uyuni newusers seen :
  Forall (λ v, IsOutdated v = true → Uid v ∈ seen) uyuni →
  Forall (λ v, IsOutdated v = true → Uid v ∈ seen ++ (Uid <$> pending))
    (classifyLoop pending ldap uyuni newusers).1.2.
Proof.
  revert ldap uyuni newusers seen.
  induction pending as [|d pending IH]; intros ldap uyuni newusers seen Hdest.
  - cbn. by rewrite app_nil_r.
  - cbn [classifyLoop fmap list_fmap]. rewrite (cons_middle (Uid d)), (assoc_L (++)).
    apply IH. unfold overwrite. apply Forall_fmap.
    eapply Forall_impl; [exact Hdest|]. intros v Hv. unfold compose.
    destruct (String.eqb_spec (Uid v) (Uid (classified d uyuni))) as [Heq|Hne].
    + intros _. destruct (overwritten_fields (classified d uyuni) v) as (-> & _).
      rewrite Heq. destruct (classified_fields d uyuni) as (-> & _).
      apply elem_of_app. right. by apply list_elem_of_singleton.
    + intros Hout. apply elem_of_app. left. by apply Hv.
Qed.

(** X16: after the classification no uid is due for two actions. The
    users to create, the users to update and the users to delete have
    uids that differ from one list to the other: a uid to create is
    staged and not on the destination, a uid to update is staged and on
    the destination, and a uid to delete is not staged. *)
Theorem classified_actions_do_not_overlap sync :
  Forall settled (uyuniusers sync) →
  let s := classify sync in
  (∀ u, u ∈ (GetNewUsers s).2 →
        Uid u ∈ Uid <$> ldapusers sync ∧ Uid u ∉ Uid <$> uyuniusers sync)
  ∧ (∀ u, u ∈ GetOutdatedUsers s →
          Uid u ∈ Uid <$> ldapusers sync ∧ Uid u ∈ Uid <$> uyuniusers sync)
  ∧ (∀ u, u ∈ GetDeletedUsers s →
          Uid u ∈ Uid <$> uyuniusers sync ∧ Uid u ∉ Uid <$> ldapusers sync)
  ∧ ∀ u v,
      (u ∈ (GetNewUsers s).2 ∧ v ∈ GetOutdatedUsers s)
      ∨ (u ∈ (GetNewUsers s).2 ∧ v ∈ GetDeletedUsers s)
      ∨ (u ∈ GetOutdatedUsers s ∧ v ∈ GetDeletedUsers s) →
      Uid u ≠ Uid v.
Proof.
  intros Hdest s.
  assert (Forall (λ u, IsNew u = false) (uyuniusers sync)) as Hold
    by (eapply Forall_impl; [exact Hdest|]; by intros u [? _]).
  assert (∀ u, u ∈ (GetNewUsers s).2 →
               Uid u ∈ Uid <$> ldapusers sync ∧ Uid u ∉ Uid <$> uyuniusers sync)
    as Hnew.
  { subst s. rewrite (GetNewUsers_classify sync Hold).
    intros u (v & -> & (d & -> & [Hd Hin]%list_elem_of_filter)%list_elem_of_fmap)
             %list_elem_of_fmap.
    destruct (updateFromLDAPUser_fields (classify sync) (set_new true d)) as [-> _].
    cbn [Uid set_new]. split; [by apply list_elem_of_fmap_2|].
    by apply in_false_elem. }
  assert (∀ u, u ∈ GetOutdatedUsers s →
               Uid u ∈ Uid <$> ldapusers sync ∧ Uid u ∈ Uid <$> uyuniusers sync)
    as Hout.
  { subst s. unfold GetOutdatedUsers, classify.
    pose proof (classifyLoop_spec (ldapusers sync) [] (uyuniusers sync) []) as Hspec.
    pose proof (classifyLoop_outdated (ldapusers sync) [] (uyuniusers sync) [] [])
      as Hseen.
    destruct (classifyLoop _ _ _ _) as [[ldap' uyuni'] newusers'].
    destruct Hspec as (Huid & _ & -> & _). cbn [fst snd app] in Hseen.
    cbn [uyuniusers set_uyuniusers set_ldapusers].
    intros u [Hflags Hu]%list_elem_of_filter.
    apply andb_prop_elim in Hflags as [Hnotnew Hisout].
    apply Is_true_true in Hisout. apply negb_prop_elim in Hnotnew.
    apply elem_of_app in Hu as [Hu|Hu].
    - rewrite <- Huid. split; [|by apply list_elem_of_fmap_2].
      assert (Forall (λ v, IsOutdated v = true → Uid v ∈ Uid <$> ldapusers sync)
                uyuni') as Hall.
      { apply Hseen. eapply Forall_impl; [exact Hdest|].
        intros v [_ Hv]. by rewrite Hv. }
      rewrite Forall_forall in Hall. by apply Hall.
    - apply list_elem_of_fmap in Hu as (d & -> & _). by destruct Hnotnew. }
  assert (∀ u, u ∈ GetDeletedUsers s →
               Uid u ∈ Uid <$> uyuniusers sync ∧ Uid u ∉ Uid <$> ldapusers sync)
    as Hdel.
  { subst s. rewrite GetDeletedUsers_classify.
    intros u [[Hstaged Hlisted] _]%list_elem_of_filter.
    split; [by apply in_elem|by apply in_false_elem]. }
  split_and!; [done..|].
  intros u v [[Hu Hv]|[[Hu Hv]|[Hu Hv]]] Heq.
  - destruct (Hnew u Hu) as [_ Hno]. destruct (Hout v Hv) as [_ Hyes].
    by rewrite Heq in Hno.
  - destruct (Hnew u Hu) as [Hyes _]. destruct (Hdel v Hv) as [_ Hno].
    by rewrite Heq in Hyes.
  - destruct (Hout u Hu) as [Hyes _]. destruct (Hdel v Hv) as [_ Hno].
    by rewrite Heq in Hyes.
Qed.

Lemma classified_actions_do_not_overlap_witness :
  Forall (λ u, Forall (λ v, Uid u ≠ Uid v) (GetDeletedUsers (classify Sets.before)))
    (GetOutdatedUsers (classify Sets.before)).
Proof.
  apply Forall_forall. intros u Hu. apply Forall_forall. intros v Hv.
  apply (proj2 (proj2 (proj2 (classified_actions_do_not_overlap Sets.before
                                 ltac:(vm_compute; repeat constructor))))).
  right. right. by split.
Defined.

(** ** The users read from the directory *)

Lemma mergeInto_account user entries attribute uyuniRoles :
  Dn (mergeInto user entries attribute uyuniRoles) = Dn user
  ∧ Uid (mergeInto user entries attribute uyuniRoles) = Uid user
  ∧ Email (mergeInto user entries attribute uyuniRoles) = Email user.
Proof.
  unfold mergeInto. revert user. induction entries as [|entry entries IH];
    intros user; cbn [foldl]; [done|].
  destruct (IH (foldl (λ user roleDn,
                         if String.eqb roleDn (Dn user)
                         then AddRoles uyuniRoles user else user)
                  user (GetAttributeValues entry attribute))) as (-> & -> & ->).
  generalize (GetAttributeValues entry attribute) as vs. intros vs.
  clear IH. revert user. induction vs as [|v vs IHv]; intros user; cbn [foldl]; [done|].
  destruct (IHv (if String.eqb v (Dn user) then AddRoles uyuniRoles user else user))
    as (-> & -> & ->).
  destruct (String.eqb v (Dn user)); [|done].
  by destruct (AddRoles_fields uyuniRoles user) as (-> & -> & -> & _).
Qed.

Lemma collect_elem (vals : Entry → list string) entries (udns0 : gset string) udn :
  udn ∈ foldl (λ udns entry,
                 foldl (λ (udns : gset string) udn, {[udn]} ∪ udns) udns (vals entry))
          udns0 entries
  ↔ udn ∈ udns0 ∨ ∃ entry, entry ∈ entries ∧ udn ∈ vals entry.
Proof.
  assert (∀ l (udns : gset string),
            udn ∈ foldl (λ (udns : gset string) udn, {[udn]} ∪ udns) udns l
            ↔ udn ∈ udns ∨ udn ∈ l) as Hinner.
  { induction l as [|x l IH]; intros udns; cbn [foldl]; [set_solver|].
    rewrite IH. set_solver. }
  revert udns0. induction entries as [|entry entries IH]; intros udns0;
    cbn [foldl]; [set_solver|].
  rewrite IH, Hinner. set_solver.
Qed.

Section Directory.
Context {St X : Type}.
Variable dir : SearchRequest → list Entry.
Variable range : ∀ A : Type, list A → list A.
Variable π : Event → list X.
Hypothesis π_log : ∀ l msg, π (EvLog l msg) = [].

Abbreviation answering := (λ r : SearchRequest, @inr string _ (dir r)).

Lemma Search_found lc request :
  lc_conn lc = true →
  exact (St:=St) π (π (EvSearch request)) (λ entries, entries = dir request)
    (Search answering lc request).
Proof.
  intros Hconn st. rewrite (Search_connected answering lc request st Hconn).
  eexists. split_and!; [done..|]. cbn. by rewrite app_nil_r.
Qed.

Lemma newUserFromDN_found sync dn :
  lc_conn (lc sync) = true →
  exact (St:=St) π (π (EvSearch (lookupOf dn))) (resolved dir sync dn)
    (newUserFromDN answering sync dn).
Proof using π_log.
  intros Hconn st. unfold resolved.
  destruct (dir (lookupOf dn)) as [|entry [|entry' entries]] eqn:Hdir.
  - rewrite (newUserFromDN_not_one answering sync dn [] st Hconn);
      [|unfold lookupOf in Hdir; by rewrite Hdir|done].
    eexists. split_and!; [done..|]. cbn. by rewrite π_log, !app_nil_r.
  - rewrite (newUserFromDN_one answering sync dn entry st Hconn);
      [|unfold lookupOf in Hdir; by rewrite Hdir].
    eexists. split_and!; [done| |cbn; by rewrite app_nil_r].
    unfold fromEntry.
    by destruct (Split _ _) as [|? [|? [|? ?]]].
  - rewrite (newUserFromDN_not_one answering sync dn (entry :: entry' :: entries)
               st Hconn); [|unfold lookupOf in Hdir; by rewrite Hdir|done].
    eexists. split_and!; [done..|]. cbn. by rewrite π_log, !app_nil_r.
Qed.

Lemma refreshAllLDAPUsers_found sync :
  lc_conn (lc sync) = true →
  let request :=
    NewSearchRequest (Allusers (cr sync)) "(objectClass=organizationalPerson)" in
  exact (St:=St) π
    (π (EvSearch request) ++ (dir request ≫= λ entry, π (EvSearch (lookupOf (DN entry)))))
    (λ s, ∃ users,
            s = set_allldapusers users sync
            ∧ Forall2 (λ entry u, resolved dir sync (DN entry) u) (dir request) users)
    (refreshAllLDAPUsers answering sync).
Proof using π_log.
  intros Hconn request. unfold refreshAllLDAPUsers.
  eapply exact_bind; [by apply Search_found|]. intros entries ->.
  fold request. eapply exact_bind_r.
  - apply (exact_foldM π (λ entry, π (EvSearch (lookupOf (DN entry))))
             (λ pre users, Forall2 (λ entry u, resolved dir sync (DN entry) u)
                             pre users)); [constructor|].
    intros pre entry users Hpre.
    eapply exact_bind_r; [by apply newUserFromDN_found|].
    intros u Hu. apply exact_ret. apply Forall2_app; [done|].
    by repeat constructor.
  - intros users Husers. apply exact_ret. by exists users.
Qed.

Lemma updateLDAPUserRoles_found sync user :
  lc_conn (lc sync) = true →
  exact (St:=St) π
    (roleConfigs sync ≫= λ sc,
       range _ (map_to_list (sc_config sc)) ≫= λ p,
         π (EvSearch (NewSearchRequest p.1 (sc_filter sc))))
    (λ user', Dn user' = Dn user ∧ Uid user' = Uid user ∧ Email user' = Email user)
    (updateLDAPUserRoles answering range sync user).
Proof.
  intros Hconn. unfold updateLDAPUserRoles.
  apply (exact_foldM π _
           (λ _ user', Dn user' = Dn user ∧ Uid user' = Uid user
                       ∧ Email user' = Email user)); [done|].
  intros _ sc user1 Huser1.
  apply (exact_foldM π (λ p, π (EvSearch (NewSearchRequest p.1 (sc_filter sc))))
           (λ _ user', Dn user' = Dn user ∧ Uid user' = Uid user
                       ∧ Email user' = Email user)); [done|].
  intros _ [dn uyuniRoles] user2 (Hdn & Huid & Hemail). unfold mergeRolesByAttributes.
  eapply exact_bind_r; [by apply Search_found|]. intros entries _.
  apply exact_ret.
  destruct (mergeInto_account user2 entries (sc_attribute sc) uyuniRoles)
    as (Hdn' & Huid' & Hemail').
  unfold mergeInto in *. by rewrite Hdn', Huid', Hemail'.
Qed.

Lemma stagedDNs_found sync :
  lc_conn (lc sync) = true →
  (∀ A (l : list A), range A l ≡ₚ l) →
  exact (St:=St) π
    ([Groups (cr sync); Roles (cr sync)] ≫= λ roleset,
       range _ (map_to_list roleset) ≫= λ p, π (EvSearch (lookupOf p.1)))
    (λ udns, ∀ udn, udn ∈ udns ↔ listedMember dir (cr sync) udn)
    (stagedDNs answering range sync).
Proof using π_log.
  intros Hconn Hrange. unfold stagedDNs.
  set (lists := λ (entry : Entry) (udn : string),
         udn ∈ GetAttributeValues entry "member"
         ∨ udn ∈ GetAttributeValues entry "roleOccupant").
  eapply exact_weaken;
    [apply (exact_foldM π
              (λ roleset : gmap string (list string),
                 range _ (map_to_list roleset) ≫= λ p,
                   π (EvSearch (lookupOf p.1)))
              (λ pre (udns : gset string),
                 ∀ udn, udn ∈ udns ↔
                        ∃ (roleset : gmap string (list string)) gdn entry,
                          roleset ∈ pre ∧ is_Some (roleset !! gdn)
                          ∧ entry ∈ dir (lookupOf gdn) ∧ lists entry udn))
    |done|].
  - intros udn. split; [set_solver|]. by intros (? & ? & ? & ?%elem_of_nil & _).
  - intros pre roleset udns Hudns.
    eapply exact_weaken;
      [apply (exact_foldM π (λ p, π (EvSearch (lookupOf p.1)))
                (λ pre' (udns' : gset string),
                   ∀ udn, udn ∈ udns' ↔
                          udn ∈ udns
                          ∨ ∃ (p : string * list string) entry,
                              p ∈ pre' ∧ entry ∈ dir (lookupOf p.1)
                              ∧ lists entry udn))
      |done|].
    + intros udn. split; [by left|]. intros [?|(? & ? & ?%elem_of_nil & _)]; done.
    + intros pre' [gdn rs] udns' Hudns'.
      eapply exact_bind_r; [by apply Search_found|]. intros entries ->.
      apply exact_ret. intros udn.
      rewrite (collect_elem
                 (λ entry, GetAttributeValues entry "member"
                           ++ GetAttributeValues entry "roleOccupant")).
      rewrite Hudns'. setoid_rewrite elem_of_app.
      setoid_rewrite list_elem_of_singleton. subst lists. cbv beta.
      split.
      * intros [[Hin|(p & entry & Hp & He & Hl)]|(entry & He & Hl)].
        -- by left.
        -- right. exists p, entry. split_and!; [by left|done..].
        -- right. exists (gdn, rs), entry. split_and!; [by right|done..].
      * intros [Hin|(p & entry & [Hp| ->] & He & Hl)].
        -- left. by left.
        -- left. right. by exists p, entry.
        -- right. by exists entry.
    + intros udns' Hudns' udn. cbv beta in Hudns'. rewrite Hudns', Hudns.
      setoid_rewrite elem_of_app. setoid_rewrite list_elem_of_singleton.
      split.
      * intros [(rs' & gdn & entry & Hin & Hsome & Hentry & Hlists)
               |([gdn rs] & entry & Hp & Hentry & Hlists)].
        -- exists rs', gdn, entry. by split_and!; [left|..].
        -- exists roleset, gdn, entry. split_and!; [by right| |done..].
           rewrite Hrange in Hp. apply elem_of_map_to_list in Hp. by eexists.
      * intros (rs' & gdn & entry & [Hin| ->] & Hsome & Hentry & Hlists).
        -- left. by exists rs', gdn, entry.
        -- right. destruct Hsome as [rs Hrs]. exists (gdn, rs), entry.
           split_and!; [|done..]. rewrite Hrange. by apply elem_of_map_to_list.
  - intros udns Hudns udn. cbv beta in Hudns. rewrite Hudns.
    unfold listedMember. split.
    + intros (roleset & gdn & entry & Hin & Hsome & Hentry & Hlists).
      exists gdn, entry. split_and!; [|done..].
      apply elem_of_cons in Hin as [->|Hin]; [by left|].
      apply list_elem_of_singleton in Hin as ->. by right.
    + intros (gdn & entry & [Hsome|Hsome] & Hentry & Hlists).
      * exists (Groups (cr sync)), gdn, entry. split_and!; [left|done..].
      * exists (Roles (cr sync)), gdn, entry.
        split_and!; [right; left|done..].
Qed.
End Directory.

(** X17: the full set of the directory, when the directory answers. The
    engine searches the subtree of all users for organizationalPerson
    objects and then looks every entry found up again by its DN; the full
    set has one user for each entry found, in their order, and an entry
    whose DN does not resolve to exactly one object is kept as a user
    with nothing set. The staged and the destination set stay. *)
Theorem refreshAllLDAPUsers_one_user_per_entry {St} dir sync (st : St) :
  lc_conn (lc sync) = true →
  let request :=
    NewSearchRequest (Allusers (cr sync)) "(objectClass=organizationalPerson)" in
  let r := refreshAllLDAPUsers (λ r, inr (dir r)) sync st in
  ∃ users,
    out r = Done (set_allldapusers users sync)
    ∧ Forall2 (λ entry u, resolved dir sync (DN entry) u) (dir request) users
    ∧ searches (events r) = request :: (lookupOf ∘ DN <$> dir request).
Proof.
  intros Hconn request r. subst r.
  destruct (refreshAllLDAPUsers_found dir theSearch (λ _ _, eq_refl) sync Hconn st)
    as (s & Hout & (users & -> & Husers) & Hevs).
  exists users. split; [done|]. split; [done|]. unfold searches. rewrite Hevs.
  cbn [theSearch app]. by rewrite (bind_singleton (λ entry, lookupOf (DN entry))).
Qed.

Lemma refreshAllLDAPUsers_one_user_per_entry_witness :
  ∃ users,
    out (refreshAllLDAPUsers (λ r, inr (Answering.dir r)) Answering.sync ())
    = Done (set_allldapusers users Answering.sync)
    ∧ length users = 3.
Proof.
  destruct (refreshAllLDAPUsers_one_user_per_entry Answering.dir Answering.sync ()
              eq_refl) as (users & Hout & Husers & _).
  exists users. split; [exact Hout|].
  apply Forall2_length in Husers. rewrite <- Husers. reflexivity.
Defined.

Section StagedSet.
Context {St : Type}.
Variable dir : SearchRequest → list Entry.
Variable range : ∀ A : Type, list A → list A.

Lemma exact_returns {A X} (π : Event → list X) xs (Q : A → Prop) (m : M St A) :
  exact π xs Q m → returns Q m.
Proof. intros Hm st. destruct (Hm st) as (a & Hout & HQ & _). by exists a. Qed.

Lemma returns_ret {A} (Q : A → Prop) a : Q a → returns (St:=St) Q (ret a).
Proof. intros HQ st. by exists a. Qed.

Lemma returns_bind {A B} (Q : A → Prop) (R : B → Prop) (m : M St A) k :
  returns Q m → (∀ a, Q a → returns R (k a)) → returns R (bind m k).
Proof.
  intros Hm Hk st. destruct (Hm st) as (a & Hout & HQ).
  rewrite (bind_Done m k st a Hout). cbn [out].
  by destruct (Hk a HQ (final (m st))) as (b & Hout' & HR); exists b.
Qed.

Lemma returns_foldM {A B} (I : list A → B → Prop) (f : B → A → M St B) l b :
  I [] b →
  (∀ pre x b, I pre b → returns (I (pre ++ [x])) (f b x)) →
  returns (I l) (foldM f l b).
Proof.
  intros Hb Hf.
  enough (∀ pre b, I pre b → returns (I (pre ++ l)) (foldM f l b)) as H
    by (apply (H [] b Hb)).
  induction l as [|x l IH]; intros pre b' Hb'; cbn [foldM].
  - rewrite app_nil_r. by apply returns_ret.
  - eapply returns_bind; [by apply Hf|]. intros b'' Hb''.
    rewrite cons_middle, (assoc_L (++)). by apply IH.
Qed.

(** X18: the staged set, when the directory answers. The staged users
    are exactly the DNs that an entry under a configured group or role DN
    lists as "member" or as "roleOccupant" and that resolve to one entry
    with a uid that is not empty and not frozen; each has the DN, the uid
    and the email of its entry. The destination set and the full set
    stay. *)
Theorem staged_set_characterised sync (st : St) :
  lc_conn (lc sync) = true →
  (∀ A (l : list A), range A l ≡ₚ l) →
  ∃ s,
    out (refreshStagedLDAPUsers (λ r, inr (dir r)) range sync st) = Done s
    ∧ (∀ u, u ∈ ldapusers s →
            Uid u ≠ "" ∧ (Uid u ∉ Frozen (cr sync))
            ∧ ∃ udn entry,
                listedMember dir (cr sync) udn
                ∧ dir (lookupOf udn) = [entry] ∧ fromEntry sync entry u)
    ∧ (∀ udn entry,
         listedMember dir (cr sync) udn →
         dir (lookupOf udn) = [entry] →
         GetAttributeValue entry (getAttributeNameFor sync "uid") ≠ "" →
         GetAttributeValue entry (getAttributeNameFor sync "uid") ∉ Frozen (cr sync) →
         ∃ u, u ∈ ldapusers s ∧ fromEntry sync entry u)
    ∧ uyuniusers s = uyuniusers sync
    ∧ allldapusers s = allldapusers sync.
Proof.
  intros Hconn Hrange.
  set (quiet := λ _ : Event, @nil unit).
  set (sync0 := set_ldapusers [] sync).
  enough (returns (St:=St)
            (λ s, (∀ u, u ∈ ldapusers s →
                        Uid u ≠ "" ∧ (Uid u ∉ Frozen (cr sync))
                        ∧ ∃ udn entry,
                            listedMember dir (cr sync) udn
                            ∧ dir (lookupOf udn) = [entry] ∧ fromEntry sync entry u)
                  ∧ (∀ udn entry,
                       listedMember dir (cr sync) udn →
                       dir (lookupOf udn) = [entry] →
                       GetAttributeValue entry (getAttributeNameFor sync "uid") ≠ "" →
                       GetAttributeValue entry (getAttributeNameFor sync "uid")
                         ∉ Frozen (cr sync) →
                       ∃ u, u ∈ ldapusers s ∧ fromEntry sync entry u)
                  ∧ uyuniusers s = uyuniusers sync
                  ∧ allldapusers s = allldapusers sync)
            (refreshStagedLDAPUsers (λ r, inr (dir r)) range sync)) as H.
  { destruct (H st) as (s & Hout & HQ). exists s. split; [exact Hout|exact HQ]. }
  unfold refreshStagedLDAPUsers. fold sync0.
  eapply returns_bind.
  { eapply exact_returns.
    apply (stagedDNs_found dir range quiet (λ _ _, eq_refl) sync0 Hconn Hrange). }
  intros udns Hudns. cbn [cr sync0 set_ldapusers] in Hudns.
  eapply returns_bind.
  - apply (returns_foldM
             (λ pre users,
                (∀ u, u ∈ users →
                      Uid u ≠ "" ∧ (Uid u ∉ Frozen (cr sync))
                      ∧ ∃ udn entry,
                          udn ∈ pre ∧ dir (lookupOf udn) = [entry]
                          ∧ fromEntry sync entry u)
                ∧ (∀ udn entry,
                     udn ∈ pre →
                     dir (lookupOf udn) = [entry] →
                     GetAttributeValue entry (getAttributeNameFor sync "uid") ≠ "" →
                     GetAttributeValue entry (getAttributeNameFor sync "uid")
                       ∉ Frozen (cr sync) →
                     ∃ u, u ∈ users ∧ fromEntry sync entry u))).
    { split; [by intros ? ?%elem_of_nil|by intros ? ? ?%elem_of_nil]. }
    intros pre udn users [Hsound Hcomplete]. unfold stagedUserOf.
    eapply returns_bind.
    { eapply exact_returns.
      apply (newUserFromDN_found dir quiet (λ _ _, eq_refl) sync0 udn Hconn). }
    intros user Huser. unfold resolved in Huser.
    change (fromEntry sync0) with (fromEntry sync) in Huser.
    assert (∀ users' : list UyuniUser,
              (∀ u, u ∈ users' → u ∈ users) →
              ∀ u, u ∈ users' →
                   Uid u ≠ "" ∧ (Uid u ∉ Frozen (cr sync))
                   ∧ ∃ udn0 entry,
                       udn0 ∈ pre ++ [udn] ∧ dir (lookupOf udn0) = [entry]
                       ∧ fromEntry sync entry u) as Hkeep.
    { intros users' Hsub u Hu.
      destruct (Hsound u (Hsub u Hu)) as (? & ? & udn0 & entry & ? & ? & ?).
      split_and!; [done..|]. exists udn0, entry. split_and!; [|done..].
      apply elem_of_app. by left. }
    destruct (negb (String.eqb (Uid user) "")
              && negb (Contains (Frozen (cr sync0)) (Uid user))) eqn:Hgood.
    + apply andb_true_iff in Hgood as [Huid Hfrozen].
      apply negb_true_iff, String.eqb_neq in Huid.
      apply negb_true_iff, bool_decide_eq_false in Hfrozen.
      cbn [cr sync0 set_ldapusers] in Hfrozen.
      destruct (dir (lookupOf udn)) as [|entry [|? ?]] eqn:Hdir;
        try (by rewrite Huser in Huid).
      eapply returns_bind.
      { eapply exact_returns.
        apply (updateLDAPUserRoles_found dir range quiet sync0 user Hconn). }
      intros user' (Hdn' & Huid' & Hemail'). apply returns_ret.
      assert (fromEntry sync entry user') as Hentry.
      { destruct Huser as (? & ? & ?). unfold fromEntry. by rewrite Hdn', Huid', Hemail'. }
      split.
      * intros u [Hu| ->%list_elem_of_singleton]%elem_of_app; [by apply (Hkeep users)|].
        rewrite Huid'. split_and!; [done..|]. exists udn, entry.
        split_and!; [|done..]. apply elem_of_app. right. by apply list_elem_of_singleton.
      * intros udn0 entry0 [Hin| ->%list_elem_of_singleton]%elem_of_app Hdir0 Hne Hnf.
        -- destruct (Hcomplete udn0 entry0 Hin Hdir0 Hne Hnf) as (u & Hu & Hfrom).
           exists u. split; [|done]. apply elem_of_app. by left.
        -- rewrite Hdir in Hdir0. injection Hdir0 as <-. exists user'.
           split; [|done]. apply elem_of_app. right. by apply list_elem_of_singleton.
    + apply returns_ret. split; [by apply (Hkeep users)|].
      intros udn0 entry0 [Hin| ->%list_elem_of_singleton]%elem_of_app Hdir0 Hne Hnf.
      * by apply (Hcomplete udn0 entry0).
      * rewrite Hdir0 in Huser. destruct Huser as (_ & Huid & _).
        apply andb_false_iff in Hgood as [Hgood|Hgood].
        -- apply negb_false_iff, String.eqb_eq in Hgood. by rewrite Huid in Hgood.
        -- apply negb_false_iff, bool_decide_eq_true in Hgood.
           cbn [cr sync0 set_ldapusers] in Hgood. by rewrite Huid in Hgood.
  - intros users [Hsound Hcomplete]. apply returns_ret.
    cbn [ldapusers uyuniusers allldapusers sync0 set_ldapusers].
    assert (∀ udn, udn ∈ range _ (elements udns) ↔ listedMember dir (cr sync) udn)
      as Hlisted by (intros udn; by rewrite Hrange, elem_of_elements).
    split_and!; [| |done..].
    + intros u Hu. destruct (Hsound u Hu) as (? & ? & udn & entry & ? & ? & ?).
      split_and!; [done..|]. exists udn, entry. split_and!; [|done..].
      by apply Hlisted.
    + intros udn entry Hudn. apply (Hcomplete udn entry). by apply Hlisted.
Qed.
End StagedSet.

Lemma staged_set_characterised_witness :
  ∃ s,
    out (refreshStagedLDAPUsers (λ r, inr (Answering.dir r)) (λ _ l, l)
           Answering.sync ()) = Done s
    ∧ ∀ u, u ∈ ldapusers s → Uid u ≠ "".
Proof.
  destruct (staged_set_characterised Answering.dir (λ _ l, l) Answering.sync ()
              eq_refl (λ _ l, reflexivity l))
    as (s & Hout & Hsound & _).
  exists s. split; [exact Hout|]. intros u Hu. by destruct (Hsound u Hu) as [? _].
Defined.

(** ** Searches that fail *)

Section Failsafe.
Context {St : Type}.
Variable uc_Call : Call → St → Reply * St.
Variable ldap_Dial : string → string → option string.
Variable ldap_Search : SearchRequest → string + list Entry.
Variable range : ∀ A : Type, list A → list A.

Lemma answered_app evs evs' :
  answered ldap_Search evs → answered ldap_Search evs' →
  answered ldap_Search (evs ++ evs').
Proof. intros H H' r [?|?]%elem_of_app; [by apply H|by apply H']. Qed.

Lemma failsafe_silent {A} (m : M St A) :
  (∀ st r, EvSearch r ∉ events (m st)) → failsafe ldap_Search m.
Proof. intros Hm st. left. intros r Hr. by destruct (Hm st r). Qed.

Lemma failsafe_ret {A} (a : A) : failsafe (St:=St) ldap_Search (ret a).
Proof. apply failsafe_silent. intros st r. apply not_elem_of_nil. Qed.

Lemma failsafe_panic {A} : failsafe (St:=St) ldap_Search (panic (A:=A)).
Proof. apply failsafe_silent. intros st r. apply not_elem_of_nil. Qed.

Lemma failsafe_fatal {A} msg : failsafe (St:=St) ldap_Search (fatal (A:=A) msg).
Proof. intros st. right. by rewrite fatal_run. Qed.

Lemma failsafe_logf l parts : failsafe (St:=St) ldap_Search (logf l parts).
Proof. apply failsafe_silent. by intros st r ?%list_elem_of_singleton. Qed.

Lemma failsafe_uc c : failsafe ldap_Search (uc uc_Call c).
Proof. apply failsafe_silent. by intros st r ?%list_elem_of_singleton. Qed.

Lemma failsafe_asString v : failsafe (St:=St) ldap_Search (asString v).
Proof. destruct v; apply failsafe_ret || apply failsafe_panic. Qed.

Lemma failsafe_asArray v : failsafe (St:=St) ldap_Search (asArray v).
Proof. destruct v; apply failsafe_ret || apply failsafe_panic. Qed.

Lemma failsafe_asMap v : failsafe (St:=St) ldap_Search (asMap v).
Proof. destruct v; apply failsafe_ret || apply failsafe_panic. Qed.

Lemma failsafe_bind {A B} (m : M St A) (k : A → M St B) :
  failsafe ldap_Search m → (∀ a, failsafe ldap_Search (k a)) →
  failsafe ldap_Search (bind m k).
Proof.
  intros Hm Hk st. rewrite bind_unfold.
  destruct (Hm st) as [Hevs|Hexit]; [|rewrite Hexit; by right].
  destruct (out (m st)) as [a| |]; cbn [out events]; [|by right|by left].
  destruct (Hk a (final (m st))) as [Hevs'|Hexit']; [left|by right].
  by apply answered_app.
Qed.

Lemma failsafe_foldM {A B} (f : B → A → M St B) (l : list A) (b : B) :
  (∀ b x, failsafe ldap_Search (f b x)) → failsafe ldap_Search (foldM f l b).
Proof.
  intros Hf. revert b. induction l as [|x l IH]; intros b; cbn [foldM];
    [apply failsafe_ret|].
  apply failsafe_bind; [apply Hf|]. intros b'. apply IH.
Qed.

Lemma failsafe_Search lc request : failsafe (St:=St) ldap_Search (Search ldap_Search lc request).
Proof.
  intros st. unfold Search. destruct (lc_conn lc); [|by left; intros r ?%elem_of_nil].
  rewrite bind_unfold. cbn [emit out final events].
  destruct (ldap_Search request) as [err|entries] eqn:Hfound.
  - right. by rewrite fatal_run.
  - left. cbn. intros r [= ->]%list_elem_of_singleton. by exists entries.
Qed.

Lemma failsafe_newUserFromDN sync dn :
  failsafe (St:=St) ldap_Search (newUserFromDN ldap_Search sync dn).
Proof.
  unfold newUserFromDN. apply failsafe_bind; [apply failsafe_Search|].
  intros [|entry [|? ?]].
  - apply failsafe_bind; [apply failsafe_logf|]. intros _. apply failsafe_ret.
  - destruct (Split _ _) as [|? [|? [|? ?]]]; apply failsafe_ret.
  - apply failsafe_bind; [apply failsafe_logf|]. intros _. apply failsafe_ret.
Qed.

Lemma failsafe_verifyIgnoredUsers sync :
  failsafe ldap_Search (verifyIgnoredUsers uc_Call sync).
Proof.
  unfold verifyIgnoredUsers. apply failsafe_bind.
  - induction (Frozen (cr sync)) as [|uid uids IH]; cbn [findFrozenAdmin];
      [apply failsafe_ret|].
    apply failsafe_bind; [apply failsafe_uc|]. intros [err|v].
    + apply failsafe_bind; [apply failsafe_logf|]. intros _. apply IH.
    + apply failsafe_bind; [apply failsafe_asArray|]. intros items.
      apply failsafe_bind.
      * clear. induction items as [|item items IH]; cbn [hasOrgAdmin];
          [apply failsafe_ret|].
        apply failsafe_bind; [apply failsafe_asString|]. intros role.
        destruct (String.eqb role "org_admin"); [apply failsafe_ret|apply IH].
      * intros [|]; [apply failsafe_ret|apply IH].
  - intros [|]; cbn [negb]; [apply failsafe_ret|apply failsafe_fatal].
Qed.

Lemma failsafe_refreshExistingUyuniUsers sync :
  failsafe ldap_Search (refreshExistingUyuniUsers uc_Call sync).
Proof.
  unfold refreshExistingUyuniUsers.
  apply failsafe_bind; [apply failsafe_uc|]. intros [err|v]; [apply failsafe_fatal|].
  apply failsafe_bind; [apply failsafe_asArray|]. intros items.
  apply failsafe_bind; [|intros; apply failsafe_ret].
  apply failsafe_foldM. intros users usrdata. unfold existingUserOf.
  apply failsafe_bind; [apply failsafe_asMap|]. intros fields.
  apply failsafe_bind; [apply failsafe_asString|]. intros uid.
  destruct (Contains _ _); [apply failsafe_ret|].
  apply failsafe_bind; [apply failsafe_uc|]. intros [err|v']; [apply failsafe_fatal|].
  apply failsafe_bind; [apply failsafe_asMap|]. intros userDetails.
  apply failsafe_bind; [apply failsafe_asString|]. intros email.
  apply failsafe_bind; [apply failsafe_asString|]. intros first_name.
  apply failsafe_bind; [apply failsafe_asString|]. intros last_name.
  apply failsafe_bind; [apply failsafe_uc|]. intros [err|v'']; [apply failsafe_fatal|].
  apply failsafe_bind; [apply failsafe_asArray|]. intros roleItems.
  apply failsafe_bind; [|intros; apply failsafe_ret].
  apply failsafe_foldM. intros user roleItf.
  apply failsafe_bind; [apply failsafe_asString|]. intros role. apply failsafe_ret.
Qed.

Lemma failsafe_refreshStagedLDAPUsers sync :
  failsafe (St:=St) ldap_Search (refreshStagedLDAPUsers ldap_Search range sync).
Proof.
  unfold refreshStagedLDAPUsers. apply failsafe_bind.
  - unfold stagedDNs. apply failsafe_foldM. intros udns roleset.
    apply failsafe_foldM. intros udns' [gdn ?].
    apply failsafe_bind; [apply failsafe_Search|]. intros entries. apply failsafe_ret.
  - intros udns. apply failsafe_bind; [|intros; apply failsafe_ret].
    apply failsafe_foldM. intros users udn. unfold stagedUserOf.
    apply failsafe_bind; [apply failsafe_newUserFromDN|]. intros user.
    destruct (_ && _); [|apply failsafe_ret].
    apply failsafe_bind; [|intros; apply failsafe_ret].
    unfold updateLDAPUserRoles. apply failsafe_foldM. intros user1 searchConfig.
    apply failsafe_foldM. intros user2 [dn uyuniRoles]. unfold mergeRolesByAttributes.
    apply failsafe_bind; [apply failsafe_Search|]. intros entries. apply failsafe_ret.
Qed.

Lemma failsafe_refreshAllLDAPUsers sync :
  failsafe (St:=St) ldap_Search (refreshAllLDAPUsers ldap_Search sync).
Proof.
  unfold refreshAllLDAPUsers. apply failsafe_bind; [apply failsafe_Search|].
  intros entries. apply failsafe_bind; [|intros; apply failsafe_ret].
  apply failsafe_foldM. intros users entry.
  apply failsafe_bind; [apply failsafe_newUserFromDN|]. intros user.
  apply failsafe_ret.
Qed.

(** X19: a search of the directory that fails ends the run: [Start] does
    not go on with the entries it has. If [Start] did not end the run,
    the directory has answered every search it made, and [Start] returns
    the three sets only then. *)
Theorem Start_stops_at_a_failed_search sync st :
  let r := Start uc_Call ldap_Dial ldap_Search range sync st in
  out r ≠ Exit → answered ldap_Search (events r).
Proof.
  intros r Hout. subst r.
  enough (failsafe ldap_Search (Start uc_Call ldap_Dial ldap_Search range sync))
    as H by (by destruct (H st)).
  unfold Start. apply failsafe_bind.
  { unfold Connect. destruct (lc_conn _); [apply failsafe_ret|].
    destruct (ldap_Dial _ _); [apply failsafe_fatal|apply failsafe_ret]. }
  intros lc'. apply failsafe_bind; [apply failsafe_verifyIgnoredUsers|]. intros _.
  apply failsafe_bind; [apply failsafe_refreshExistingUyuniUsers|]. intros s1.
  apply failsafe_bind; [apply failsafe_refreshStagedLDAPUsers|]. intros s2.
  apply failsafe_bind; [apply failsafe_refreshAllLDAPUsers|]. intros s3.
  apply failsafe_silent. intros st' r.
  destruct (refreshUyuniUsersStatus_run s3 st') as (evs & -> & Hevs).
  cbn [events]. intros Hr. rewrite Forall_forall in Hevs.
  by destruct (Hevs _ Hr) as [msg ?].
Qed.
End Failsafe.

Lemma Start_stops_at_a_failed_search_witness :
  answered Example.search
    (events (Start store_Call Example.dial Example.search (λ _ l, l)
               (NewLDAPSync Example.cfg) Example.store)).
Proof.
  apply (Start_stops_at_a_failed_search store_Call Example.dial Example.search
           (λ _ l, l) (NewLDAPSync Example.cfg) Example.store).
  vm_compute. discriminate.
Defined.

(** ** The searches of the role resolution *)

(** X20: the role resolution of a user searches every DN of the role
    configuration and then every DN of the group configuration, each once
    and with the filter of its source, whether the user turns out to be a
    member or not; DN, uid and email of the user stay. *)
Theorem updateLDAPUserRoles_searches_every_source {St} dir range sync user (st : St) :
  lc_conn (lc sync) = true →
  let r := updateLDAPUserRoles (λ r, inr (dir r)) range sync user st in
  (∃ user', out r = Done user' ∧ Dn user' = Dn user ∧ Uid user' = Uid user
            ∧ Email user' = Email user)
  ∧ searches (events r)
    = (λ g, NewSearchRequest (g_dn g) (g_filter g)) <$> grantsOf range sync.
Proof.
  intros Hconn r. subst r.
  destruct (updateLDAPUserRoles_found dir range theSearch sync user Hconn st)
    as (user' & Hout & HQ & Hevs).
  split; [by exists user'|]. unfold searches. rewrite Hevs. unfold grantsOf.
  clear Hevs Hout HQ. induction (roleConfigs sync) as [|sc scs IH]; [done|].
  rewrite !bind_cons, fmap_app, IH. f_equal.
  rewrite <- list_fmap_compose. cbn [theSearch].
  by rewrite (bind_singleton (λ p : string * list string,
                                NewSearchRequest p.1 (sc_filter sc))).
Qed.

Lemma updateLDAPUserRoles_searches_every_source_witness :
  searches (events (updateLDAPUserRoles (λ r, inr (Answering.dir r)) (λ _ l, l)
                      Answering.sync (set_Dn "cn=carol,ou=Users,dc=x" NewUyuniUser) ()))
  = [NewSearchRequest "cn=root,ou=Groups,dc=x" "(objectClass=organizationalRole)";
     NewSearchRequest "cn=org_admin,ou=Groups,dc=x"
       "(|(objectClass=groupOfNames)(objectClass=group))";
     NewSearchRequest "cn=sysop,ou=Groups,dc=x"
       "(|(objectClass=groupOfNames)(objectClass=group))"].
Proof.
  rewrite (proj2 (updateLDAPUserRoles_searches_every_source Answering.dir (λ _ l, l)
                    Answering.sync (set_Dn "cn=carol,ou=Users,dc=x" NewUyuniUser) ()
                    eq_refl)).
  vm_compute. reflexivity.
Defined.

(** ** The push on the reference store *)

Lemma pushUserAccountDataToUyuni_store u (store : gmap string Account) a :
  store !! Uid u = Some a →
  ∃ evs,
    pushUserAccountDataToUyuni store_Call u store
    = mkResult (Done ())
        (<[Uid u := mkAccount (Email u) (Name u) (Secondname u) (acc_roles a) true]>
           store) evs.
Proof.
  intros Ha. unfold pushUserAccountDataToUyuni. eexists. eapply bind_run.
  - unfold uc, store_Call. by rewrite Ha.
  - cbn [fst snd]. eapply bind_run.
    + unfold uc, store_Call. by rewrite lookup_insert_eq.
    + cbn [fst snd acc_email acc_first_name acc_last_name acc_roles ret].
      by rewrite insert_insert_eq.
Qed.

(** X21: the creation of a user on the reference store. When the store
    has no account of the uid, the account is created with the email and
    the names of the user, with PAM authentication and with the roles of
    the user, each once, and the other accounts stay; when the store has
    an account of the uid, the store is left as it is and the user
    carries the error. *)
Theorem createUser_on_the_reference_store u (store : gmap string Account) :
  let r := createUser store_Call u store in
  match store !! Uid u with
  | None =>
      out r = Done (set_Err None u)
      ∧ ∃ a, final r = <[Uid u := a]> store
             ∧ acc_email a = Email u ∧ acc_first_name a = Name u
             ∧ acc_last_name a = Secondname u ∧ acc_pam a = true
             ∧ (∀ role, role ∈ acc_roles a ↔ role ∈ GetRoles u)
             ∧ NoDup (acc_roles a)
  | Some _ => final r = store ∧ ∃ err, out r = Done (set_Err (Some err) u)
  end.
Proof.
  intros r. subst r. unfold createUser.
  rewrite bind_unfold. cbn [logf emit out final events].
  rewrite bind_unfold. cbn [uc store_Call out final events].
  destruct (store !! Uid u) as [a|] eqn:Ha; cbn [fst snd].
  - cbn [IsValid Err set_Err negb]. rewrite bind_unfold.
    cbn [logf emit ret out final events]. split; [done|by eexists].
  - cbn [IsValid Err set_Err negb]. rewrite bind_unfold.
    set (a0 := mkAccount (Email u) (Name u) (Secondname u) [] (bool_decide (1 ≠ 0)%Z)).
    destruct (pushUserRolesToUyuni_store (set_Err None u) (<[Uid u := a0]> store) a0
                (lookup_insert_eq _ _ _)) as (evs & ->).
    cbn [out final events ret]. split; [done|].
    exists (withRoles a0 (addAll [] (GetRoles u))).
    destruct (addAll_spec [] (GetRoles u)) as [Helem Hnodup].
    split_and!; [by rewrite insert_insert_eq|done..| |].
    + intros role. cbn. rewrite Helem. set_solver.
    + apply Hnodup. constructor.
Qed.

(** X22: the update of an outdated user on the reference store, and the
    way back. After the role push and the push of the account data, the
    account of the user has the email, the names and exactly the roles of
    the user, and PAM authentication; the other accounts stay. A listing
    of the destination then reads the user back with the same data: it
    would be classified as unchanged. *)
Theorem update_on_the_reference_store_reads_back sync u
    (store : gmap string Account) a :
  store !! Uid u = Some a →
  Uid u ∉ Frozen (cr sync) →
  let r := (pushUserRolesToUyuni store_Call u;;
            pushUserAccountDataToUyuni store_Call u) store in
  out r = Done ()
  ∧ (∃ a', final r = <[Uid u := a']> store
           ∧ acc_email a' = Email u ∧ acc_first_name a' = Name u
           ∧ acc_last_name a' = Secondname u ∧ acc_pam a' = true
           ∧ (∀ role, role ∈ acc_roles a' ↔ role ∈ GetRoles u)
           ∧ NoDup (acc_roles a'))
  ∧ ∃ evs listed,
      existingUserOf store_Call sync [] (VStruct [("login", VString (Uid u))])
        (final r)
      = mkResult (Done [listed]) (final r) evs
      ∧ Uid listed = Uid u ∧ unchanged u listed ∧ settled listed.
Proof.
  intros Ha Hfrozen r. subst r.
  destruct (pushUserRolesToUyuni_store u store a Ha) as (evs1 & Hroles).
  set (a1 := withRoles a (addAll [] (GetRoles u))) in *.
  destruct (pushUserAccountDataToUyuni_store u (<[Uid u := a1]> store) a1
              (lookup_insert_eq _ _ _)) as (evs2 & Haccount).
  rewrite insert_insert_eq in Haccount.
  set (a2 := mkAccount (Email u) (Name u) (Secondname u) (acc_roles a1) true) in *.
  rewrite (bind_run _ _ _ _ _ _ _ _ _ Hroles Haccount). cbn [out final].
  destruct (addAll_spec [] (GetRoles u)) as [Helem Hnodup].
  assert (∀ role, role ∈ acc_roles a2 ↔ role ∈ GetRoles u) as Hsame
    by (intros role; cbn; rewrite Helem; set_solver).
  split; [done|]. split.
  { exists a2. split_and!; [done..|]. apply Hnodup. constructor. }
  set (store' := <[Uid u := a2]> store).
  assert (store' !! Uid u = Some a2) as Ha2 by apply lookup_insert_eq.
  assert (store_Call (user_getDetails (Uid u)) store'
          = (Returned (VStruct [("first_name", VString (acc_first_name a2));
                                ("last_name", VString (acc_last_name a2));
                                ("email", VString (acc_email a2))]), store'))
    as Hdetails by (cbn [store_Call]; by rewrite Ha2).
  assert (store_Call (user_listRoles (Uid u)) store'
          = (Returned (VArray (VString <$> acc_roles a2)), store'))
    as Hlisted by (cbn [store_Call]; by rewrite Ha2).
  pose proof (existingUserOf_run store_Call sync [] [("login", VString (Uid u))]
                (Uid u) _ (acc_email a2) (acc_first_name a2) (acc_last_name a2)
                (acc_roles a2) store' store' store' eq_refl Hfrozen Hdetails
                eq_refl eq_refl eq_refl Hlisted) as Hlist.
  eexists _, _. split; [exact Hlist|].
  set (base := set_Secondname _ _).
  destruct (AddRoles_fields (acc_roles a2) base)
    as (Hdn & Huid & Hemail & Hname & Hsecond & Herr & Hnew & Hout).
  split_and!.
  - by rewrite Huid.
  - unfold unchanged. rewrite Hemail, Hname, Hsecond. split_and!; [done..|].
    intros role. rewrite AddRoles_elem, Hsame. cbn. set_solver.
  - unfold settled, IsNew, IsOutdated. by rewrite Hnew, Hout.
Qed.

Lemma update_on_the_reference_store_reads_back_witness :
  let r := (pushUserRolesToUyuni store_Call Outdated.staged;;
            pushUserAccountDataToUyuni store_Call Outdated.staged) Example.store in
  out r = Done ()
  ∧ ∃ a', final r = <["carol" := a']> Example.store
          ∧ ∀ role, role ∈ acc_roles a' ↔ role ∈ ["channel_admin"; "config_admin"].
Proof.
  destruct (update_on_the_reference_store_reads_back (NewLDAPSync Example.cfg)
              Outdated.staged Example.store
              (mkAccount "carol@x" "Carol" "Jones" ["channel_admin"] true))
    as (Hout & (a' & Hfinal & _ & _ & _ & _ & Hroles & _) & _).
  - vm_compute. reflexivity.
  - apply (bool_decide_unpack _). vm_compute. exact I.
  - split; [exact Hout|]. exists a'. split; [exact Hfinal|exact Hroles].
Defined.

(** ** What the role push emits *)

Section RolePushEvents.
Context {St : Type}.
Variable uc_Call : Call → St → Reply * St.

Lemma step_logf P l parts :
  (∀ l msg, P (EvLog l msg)) → ok (St:=St) P (λ _, True) (logf l parts).
Proof. intros HP. by apply ok_logf. Qed.

Lemma step_pushUserRolesToUyuni P u :
  (∀ l msg, P (EvLog l msg)) →
  P (EvCall (user_listRoles (Uid u))) →
  (∀ role, P (EvCall (user_removeRole (Uid u) role))) →
  (∀ role, P (EvCall (user_addRole (Uid u) role))) →
  ok P (λ _, True) (pushUserRolesToUyuni uc_Call u).
Proof.
  intros Hlog Hlist Hremove Hadd. unfold pushUserRolesToUyuni.
  eapply ok_bind; [by apply ok_uc|].
  intros [err|v] _; [by apply step_logf|].
  eapply ok_bind; [apply ok_asArray|]. intros items _.
  eapply (ok_bind _ (λ _, True)).
  - apply ok_forM_. intros item _. eapply ok_bind; [apply ok_asString|].
    intros role _. eapply ok_bind; [by apply ok_uc|].
    intros [err|v'] _; by apply step_logf.
  - intros _ _. apply ok_forM_. intros role _.
    eapply ok_bind; [by apply ok_uc|]. intros [err|v'] _; by apply step_logf.
Qed.
End RolePushEvents.

(** ** The order of the push: create, update, delete *)

Section Shapes.
Context {St : Type}.
Implicit Types st : St.








End Shapes.







Section OrderOfThePush.
Context {St : Type}.
Variable uc_Call : Call → St → Reply * St.
Hypothesis typed : listRoles_typed uc_Call.
Implicit Types st : St.





End OrderOfThePush.


(** ** Staged users of the same uid *)

Lemma classifyLoop_app l1 l2 ldap uyuni newusers :
  classifyLoop (l1 ++ l2) ldap uyuni newusers
  = classifyLoop l2 (classifyLoop l1 ldap uyuni newusers).1.1
      (classifyLoop l1 ldap uyuni newusers).1.2
      (classifyLoop l1 ldap uyuni newusers).2.
Proof.
  revert ldap uyuni newusers. induction l1 as [|d l1 IH]; intros ldap uyuni newusers;
    cbn [app classifyLoop]; [done|apply IH].
Qed.

Lemma classifyLoop_uids pending ldap uyuni newusers :
  Uid <$> (classifyLoop pending ldap uyuni newusers).1.2 = Uid <$> uyuni.
Proof.
  pose proof (classifyLoop_spec pending ldap uyuni newusers) as H.
  destruct (classifyLoop _ _ _ _) as [[ldap' uyuni'] newusers'].
  by destruct H as (H & _).
Qed.

Lemma same_uid_lookup (l l' : list UyuniUser) j v' :
  Uid <$> l' = Uid <$> l →
  l' !! j = Some v' →
  ∃ v, l !! j = Some v ∧ Uid v = Uid v'.
Proof.
  intros Huids Hv'.
  assert ((Uid <$> l) !! j = Some (Uid v')) as H
    by (by rewrite <- Huids, list_lookup_fmap, Hv').
  rewrite list_lookup_fmap in H. destruct (l !! j) as [v|]; [|done].
  exists v. split; [done|]. by injection H.
Qed.

Lemma same_ext user u u' :
  Email u' = Email u → Name u' = Name u → Secondname u' = Secondname u →
  (∀ r, r ∈ GetRoles u' ↔ r ∈ GetRoles u) →
  same user u' = same user u.
Proof.
  intros He Hn Hs Hr. unfold same, sameAccount. rewrite He, Hn, Hs. f_equal.
  apply eq_true_iff_eq. rewrite !CompareRoles_spec.
  split; intros H r; [by rewrite <- Hr|by rewrite Hr].
Qed.

Lemma classifyLoop_same_uid_twice d1 mid d2 post ldap uyuni newusers j v :
  Uid d1 = Uid d2 →
  Uid d2 ∉ Uid <$> mid →
  Uid d2 ∉ Uid <$> post →
  uyuni !! j = Some v →
  Uid v = Uid d2 →
  ∃ v',
    (classifyLoop (d1 :: mid ++ d2 :: post) ldap uyuni newusers).1.2 !! j = Some v'
    ∧ IsOutdated v' = negb (same d2 d1).
Proof.
  intros Hsame Hmid Hpost Hv Huid. cbn [classifyLoop].
  set (c1 := classified d1 uyuni).
  assert (Uid c1 = Uid d2) as Hc1
    by (subst c1; by destruct (classified_fields d1 uyuni) as (-> & _)).
  set (uyuni1 := overwrite c1 uyuni).
  assert (∀ j' w, uyuni !! j' = Some w → Uid w = Uid d2 →
                  uyuni1 !! j' = Some (overwritten c1 w)) as Hstep1.
  { intros j' w Hw Hwuid. subst uyuni1. rewrite (overwrite_lookup _ _ _ _ Hw).
    by rewrite Hwuid, Hc1, String.eqb_refl. }
  rewrite classifyLoop_app.
  set (ldap1 := ldap ++ [c1]).
  set (news1 := if in_ d1 uyuni then newusers else newusers ++ [c1]).
  set (uyuni2 := (classifyLoop mid ldap1 uyuni1 news1).1.2).
  assert (∀ j' w, uyuni !! j' = Some w → Uid w = Uid d2 →
                  uyuni2 !! j' = Some (overwritten c1 w)) as Hstep2.
  { intros j' w Hw Hwuid. subst uyuni2. apply classifyLoop_untouched.
    - by apply Hstep1.
    - destruct (overwritten_fields c1 w) as (-> & _). by rewrite Hwuid. }
  cbn [classifyLoop].
  set (c2 := classified d2 uyuni2).
  assert (Uid <$> uyuni2 = Uid <$> uyuni) as Huids2.
  { subst uyuni2. rewrite classifyLoop_uids. subst uyuni1. apply overwrite_Uid. }
  assert (IsOutdated c2 = negb (same d2 d1)) as Hc2.
  { subst c2. unfold classified.
    destruct (firstOf (Uid d2) uyuni2) as [w|] eqn:Hw.
    - change (same (set_new false d2) w) with (same d2 w).
      assert (same d2 w = same d2 d1) as ->; [|done].
      apply firstOf_Some in Hw as [Hin Hwuid].
      apply list_elem_of_lookup in Hin as [j' Hj'].
      destruct (same_uid_lookup uyuni uyuni2 j' w Huids2 Hj') as (w0 & Hw0 & Hw0uid).
      rewrite (Hstep2 j' w0 Hw0) in Hj' by congruence. injection Hj' as <-.
      destruct (overwritten_account c1 w0) as (He & Hn & Hs).
      destruct (overwritten_fields c1 w0) as (_ & _ & _ & Hr & _).
      destruct (classified_fields d1 uyuni) as (_ & _ & He1 & Hn1 & Hs1 & Hr1).
      apply same_ext.
      + by rewrite He, <- He1.
      + by rewrite Hn, <- Hn1.
      + by rewrite Hs, <- Hs1.
      + intros r. rewrite Hr. subst c1. unfold GetRoles. by rewrite Hr1.
    - assert (is_Some (firstOf (Uid d2) uyuni2)) as [? Hsome]; [|congruence].
      apply in_firstOf, in_elem. rewrite Huids2, <- Huid.
      apply list_elem_of_fmap_2. by eapply list_elem_of_lookup_2. }
  exists (overwritten c2 (overwritten c1 v)). split.
  - apply classifyLoop_untouched.
    + rewrite (overwrite_lookup _ _ _ _ (Hstep2 j v Hv Huid)).
      destruct (overwritten_fields c1 v) as (-> & _).
      assert (Uid c2 = Uid d2) as ->
        by (subst c2; by destruct (classified_fields d2 uyuni2) as (-> & _)).
      by rewrite Huid, String.eqb_refl.
    + destruct (overwritten_fields c2 (overwritten c1 v)) as (-> & _).
      destruct (overwritten_fields c1 v) as (-> & _). by rewrite Huid.
  - unfold IsOutdated in *.
    by destruct (overwritten_fields c2 (overwritten c1 v)) as (_ & _ & -> & _).
Qed.

(** X24: staged users of the same uid. When two staged users have the
    uid of a destination user, the second of them is compared with the
    data of the first, which the classification has written over the
    destination user, and not with what the destination holds: after the
    classification the destination user is outdated exactly when the last
    two staged users of its uid differ from each other. *)
Theorem duplicate_staged_uid_hides_the_destination sync pre d1 mid d2 post v :
  ldapusers sync = pre ++ d1 :: mid ++ d2 :: post →
  Uid d1 = Uid d2 →
  Uid d2 ∉ Uid <$> mid →
  Uid d2 ∉ Uid <$> post →
  in_ d2 (uyuniusers sync) = true →
  v ∈ uyuniusers (classify sync) →
  Uid v = Uid d2 →
  IsOutdated v = negb (same d2 d1)
  ∧ (IsOutdated v = false ↔ unchanged d2 d1).
Proof.
  intros Hstaged Hsame Hmid Hpost Hlisted Hv Huid.
  enough (IsOutdated v = negb (same d2 d1)) as Hout.
  { split; [done|]. rewrite Hout, negb_false_iff. apply same_unchanged. }
  unfold classify in Hv. rewrite Hstaged, classifyLoop_app in Hv.
  pose proof (classifyLoop_uids pre [] (uyuniusers sync) []) as Huids0.
  set (s0 := classifyLoop pre [] (uyuniusers sync) []) in *.
  pose proof (classifyLoop_spec (d1 :: mid ++ d2 :: post) s0.1.1 s0.1.2 s0.2) as Hspec.
  pose proof (classifyLoop_same_uid_twice d1 mid d2 post s0.1.1 s0.1.2 s0.2)
    as Htwice.
  destruct (classifyLoop (d1 :: mid ++ d2 :: post) s0.1.1 s0.1.2 s0.2)
    as [[ldap' uyuni'] newusers'].
  destruct Hspec as (Huids' & _ & -> & _).
  cbn [uyuniusers set_uyuniusers set_ldapusers fst snd] in Hv, Htwice.
  apply elem_of_app in Hv as [Hv|Hv].
  - apply list_elem_of_lookup in Hv as [j Hj].
    destruct (same_uid_lookup s0.1.2 uyuni' j v Huids' Hj) as (v0 & Hv0 & Hv0uid).
    destruct (Htwice j v0 Hsame Hmid Hpost Hv0) as (v' & Hv' & Hout);
      [congruence|].
    rewrite Hj in Hv'. by injection Hv' as ->.
  - exfalso. apply elem_of_app in Hv as [Hv|Hv].
    + pose proof (classifyLoop_spec pre [] (uyuniusers sync) []) as Hspec0.
      fold s0 in Hspec0. destruct s0 as [[ldap0 uyuni0] newusers0].
      destruct Hspec0 as (_ & _ & -> & _). cbn [snd app] in Hv.
      apply list_elem_of_fmap in Hv as (d & -> & [Hd _]%list_elem_of_filter).
      cbn [Uid set_new] in Huid.
      rewrite (in_ext d d2 (uyuniusers sync) (uyuniusers sync)) in Hd by done.
      congruence.
    + apply list_elem_of_fmap in Hv as (d & -> & [Hd _]%list_elem_of_filter).
      cbn [Uid set_new] in Huid.
      rewrite (in_ext d d2 s0.1.2 (uyuniusers sync)) in Hd by done.
      congruence.
Qed.

Lemma duplicate_staged_uid_hides_the_destination_witness :
  Forall (λ v, Uid v = "carol" → IsOutdated v = false)
    (uyuniusers (classify Twice.sync)).
Proof.
  apply Forall_forall. intros v Hv Huid.
  destruct (duplicate_staged_uid_hides_the_destination Twice.sync []
              (Twice.carol "cn=carol,ou=Users,dc=x") []
              (Twice.carol "cn=carol,ou=Staff,dc=x") [] v) as [Hout _].
  - reflexivity.
  - reflexivity.
  - apply not_elem_of_nil.
  - apply not_elem_of_nil.
  - reflexivity.
  - exact Hv.
  - exact Huid.
  - rewrite Hout. vm_compute. reflexivity.
Defined.

(** ** Accounts that the directory does not have *)

Lemma classify_flagged_staged sync :
  Forall settled (uyuniusers sync) →
  Forall (λ u, IsNew u = true ∨ IsOutdated u = true →
               Uid u ∈ Uid <$> ldapusers sync)
    (uyuniusers (classify sync)).
Proof.
  intros Hdest. unfold classify.
  pose proof (classifyLoop_spec (ldapusers sync) [] (uyuniusers sync) []) as Hspec.
  pose proof (classifyLoop_outdated (ldapusers sync) [] (uyuniusers sync) [] [])
    as Hseen.
  destruct (classifyLoop _ _ _ _) as [[ldap' uyuni'] newusers'].
  destruct Hspec as (_ & Hnew & -> & _). cbn [fst snd app] in Hseen.
  cbn [uyuniusers set_uyuniusers set_ldapusers app]. apply Forall_app. split.
  - assert (Forall (λ v, IsOutdated v = true → Uid v ∈ Uid <$> ldapusers sync)
              uyuni') as Hout.
    { apply Hseen. eapply Forall_impl; [exact Hdest|].
      intros v [_ Hv]. by rewrite Hv. }
    assert (Forall (λ b, b = false) (new <$> uyuni')) as Hold.
    { rewrite Hnew. apply Forall_fmap. eapply Forall_impl; [exact Hdest|].
      by intros v [Hv _]. }
    apply Forall_fmap in Hold. rewrite Forall_forall in Hout, Hold.
    apply Forall_forall. intros v Hv [Hisnew|Hisout]; [|by apply Hout].
    specialize (Hold v Hv). cbn in Hold. unfold IsNew in Hisnew. congruence.
  - apply Forall_forall.
    intros v (d & -> & [_ Hd]%list_elem_of_filter)%list_elem_of_fmap _.
    cbn [Uid set_new]. by apply list_elem_of_fmap_2.
Qed.

Section LocalAccounts.
Context {St : Type}.
Variable uc_Call : Call → St → Reply * St.
Variable uids : list string.

Lemma within_pushUserRolesToUyuni u :
  Uid u ∈ uids → ok (writesWithin uids) (λ _, True) (pushUserRolesToUyuni uc_Call u).
Proof.
  intros Hu. apply step_pushUserRolesToUyuni; [done|done|..];
    intros role uid [= <-]; exact Hu.
Qed.

Lemma within_SyncUsers sync :
  Forall (λ u, IsNew u = true ∨ IsOutdated u = true → Uid u ∈ uids)
    (uyuniusers sync) →
  Forall (λ u, Uid u ∈ uids) (allldapusers sync) →
  ok (writesWithin uids) (λ _, True) (SyncUsers uc_Call sync).
Proof.
  intros Husers Hfull. unfold SyncUsers.
  eapply ok_bind; [by apply step_logf|]. intros _ _.
  unfold GetNewUsers. cbv beta iota zeta.
  set (users' := (λ user, if IsNew user then updateFromLDAPUser sync user else user)
                   <$> uyuniusers sync).
  set (newUsers := filter (λ user, IsNew user = true) users').
  assert (Forall (λ u, IsNew u = true ∨ IsOutdated u = true → Uid u ∈ uids) users')
    as Husers'.
  { subst users'. apply Forall_fmap. eapply Forall_impl; [exact Husers|].
    intros u Hu. unfold compose. destruct (IsNew u) eqn:Hnew; [|done].
    intros _. destruct (updateFromLDAPUser_fields sync u) as [-> _].
    apply Hu. by left. }
  assert (Forall (λ u, Uid u ∈ uids) newUsers) as Hnew.
  { apply Forall_forall. intros u [Hisnew Hu]%list_elem_of_filter.
    rewrite Forall_forall in Husers'. apply (Husers' u Hu). by left. }
  eapply ok_bind with (Q := λ p, Forall (λ u, Uid u ∈ uids) p.1).
  - case_bool_decide; [|by apply ok_ret].
    eapply ok_bind; [by apply step_logf|]. intros _ _. unfold createUsers.
    apply (ok_foldM _ (λ p : list UyuniUser * list UyuniUser,
                         Forall (λ u, Uid u ∈ uids) p.1)); [by constructor|].
    intros [users failed] u Hdone Hu. cbn [fst] in Hdone.
    rewrite Forall_forall in Hnew. specialize (Hnew u Hu).
    eapply (ok_bind _ (λ u', Uid u' = Uid u)).
    + unfold createUser. eapply ok_bind; [by apply step_logf|]. intros _ _.
      eapply ok_bind; [apply ok_uc; by intros uid [= <-]|]. intros r _.
      destruct (negb (IsValid _)).
      * eapply ok_bind; [by apply step_logf|]. intros _ _. by apply ok_ret.
      * eapply ok_bind; [by apply within_pushUserRolesToUyuni|]. intros _ _.
        by apply ok_ret.
    + intros u' Hu'. destruct (negb (IsValid u')); apply ok_ret; cbn [fst];
        (apply Forall_app; split; [done|]); repeat constructor; by rewrite Hu'.
  - intros [created failed] Hcreated. cbn [fst] in Hcreated.
    cbn [uyuniusers set_uyuniusers].
    set (sync' := set_uyuniusers (writeBack created users') _).
    assert (Forall (λ u, IsNew u = true ∨ IsOutdated u = true → Uid u ∈ uids)
              (uyuniusers sync')) as Hsync'.
    { apply writeBack_Forall; [|done].
      eapply Forall_impl; [exact Hcreated|]. by intros u Hu _. }
    eapply ok_bind with (Q := λ _, True).
    + case_bool_decide; [|by apply ok_ret].
      eapply ok_bind; [by apply step_logf|]. intros _ _.
      apply ok_forM_. intros u [Hflags Hu]%list_elem_of_filter.
      apply andb_prop_elim in Hflags as [_ Hisout]. apply Is_true_true in Hisout.
      assert (Uid u ∈ uids) as Huid
        by (rewrite Forall_forall in Hsync'; apply (Hsync' u Hu); by right).
      eapply ok_bind; [by apply step_logf|]. intros _ _.
      eapply ok_bind; [by apply within_pushUserRolesToUyuni|]. intros _ _.
      unfold pushUserAccountDataToUyuni.
      eapply ok_bind; [apply ok_uc; by intros uid [= <-]|].
      intros [err|v] _; [by apply step_logf|].
      eapply ok_bind; [apply ok_uc; by intros uid [= <-]|].
      intros [err|v'] _; [by apply step_logf|by apply ok_ret].
    + intros _ _. eapply ok_bind with (Q := λ _, True).
      * case_bool_decide; [|by apply ok_ret].
        eapply ok_bind; [by apply step_logf|]. intros _ _.
        apply ok_forM_. intros u [_ Hu]%list_elem_of_filter.
        assert (Uid u ∈ uids) as Huid
          by (rewrite Forall_forall in Hfull; by apply Hfull).
        eapply ok_bind; [by apply step_logf|]. intros _ _.
        unfold deleteUser. eapply ok_bind; [apply ok_uc; by intros uid [= <-]|].
        intros [err|v] _; [by apply step_logf|by apply ok_ret].
      * intros _ _. eapply ok_bind; [by apply step_logf|]. intros _ _.
        eapply ok_bind; [by apply step_logf|]. intros _ _. by apply ok_ret.
Qed.
End LocalAccounts.

(** X25: the push leaves the accounts alone that the directory does not
    have. After the classification, every create, setDetails,
    usePamAuthentication, addRole, removeRole and delete call of
    [SyncUsers] targets a uid of the staged set or of the full set of
    the directory: an account that exists on the destination only is
    never written, whatever the account store answers. *)
Theorem push_leaves_local_accounts_alone {St} (uc_Call : Call → St → Reply * St)
    sync st :
  Forall settled (uyuniusers sync) →
  Forall (writesWithin ((Uid <$> ldapusers sync) ++ (Uid <$> allldapusers sync)))
    (events (SyncUsers uc_Call (classify sync) st)).
Proof.
  intros Hdest.
  apply (within_SyncUsers uc_Call
           ((Uid <$> ldapusers sync) ++ (Uid <$> allldapusers sync))
           (classify sync)).
  - eapply Forall_impl; [by apply classify_flagged_staged|].
    intros u Hu Hflag. apply elem_of_app. left. by apply Hu.
  - destruct (classify_spec sync) as (_ & _ & _ & _ & _ & _ & -> & _).
    apply Forall_forall. intros u Hu. apply elem_of_app. right.
    by apply list_elem_of_fmap_2.
Qed.

Lemma push_leaves_local_accounts_alone_witness :
  Forall (writesWithin ((Uid <$> ldapusers Sets.before)
                        ++ (Uid <$> allldapusers Sets.before)))
    (events (SyncUsers store_Call (classify Sets.before) Local.store)).
Proof.
  apply (push_leaves_local_accounts_alone store_Call Sets.before Local.store).
  vm_compute. repeat constructor.
Defined.


(** ** The end of a run: [Finish] *)

(** X26: [Finish] closes the connection to the directory and leaves the
    configuration and the three sets as they are. Without a connection a
    search does not reach the directory: a read of the directory after
    [Finish] brings the process down before any search is made, until
    the engine is started again. *)
Theorem no_search_after_Finish {St} ldap_Search sync (st : St) :
  ∃ s,
    Finish sync st = mkResult (Done s) st []
    ∧ lc_conn (lc s) = false
    ∧ cr s = cr sync ∧ ldapusers s = ldapusers sync
    ∧ uyuniusers s = uyuniusers sync ∧ allldapusers s = allldapusers sync
    ∧ refreshAllLDAPUsers ldap_Search s st = mkResult Panic st []
    ∧ ∀ dn, newUserFromDN ldap_Search s dn st = mkResult Panic st [].
Proof.
  unfold Finish, Disconnect.
  destruct (lc_conn (lc sync)) eqn:Hconn; rewrite bind_ret_l; eexists;
    (split; [reflexivity|]); cbn [lc set_lc set_conn lc_conn cr ldapusers
                                   uyuniusers allldapusers];
    (split_and!; [done..| |]).
  - unfold refreshAllLDAPUsers, Search. cbn [lc set_lc set_allldapusers set_conn lc_conn].
    by rewrite bind_unfold.
  - intros dn. unfold newUserFromDN, Search. cbn [lc set_lc set_conn lc_conn].
    by rewrite bind_unfold.
  - unfold refreshAllLDAPUsers, Search. cbn [lc set_lc set_allldapusers set_conn lc_conn].
    rewrite Hconn. by rewrite bind_unfold.
  - intros dn. unfold newUserFromDN, Search. cbn [lc set_lc set_conn lc_conn].
    rewrite Hconn. by rewrite bind_unfold.
Qed.
